(** * Schematron: extraction, detection, classification and synthesis

    A shallow embedding of [src/website-analyzer.ts] (class
    [WebsiteAnalyzer]) and of [generateSchemaMarkup] from [src/index.ts],
    with the properties of the pipeline stated and proved over it.

    Conventions of the embedding.
    - A JavaScript string is a [string] (a sequence of 8-bit characters);
      [toLowerCase], [trim] and the regular expression class [\s] are the
      ASCII ones.
    - The document that [cheerio.load] returns is a forest of [Node]s; a
      selection [$(sel)] is the list of the matching elements in document
      order.  The selector strings of the source are written as [Selector]
      terms.
    - [JSON.parse] and [new URL(rel, base).href] are platform functions:
      they are parameters of the functions that call them.
    - A thrown exception is [Throw] in the monad [Exn].
    - [generateSchemaMarkup] is given twice: on values, where the
      arguments are trees, and on a store with references, where the
      effect of the synthesis on its arguments can be stated. *)

From Stdlib Require Import String Ascii List ZArith Lia Bool.
From stdpp Require Import base list strings pretty.
Import ListNotations.

Local Open Scope string_scope.
Local Open Scope list_scope.
Set Warnings "-register-all".

(** ** JavaScript strings *)

Module Js.

(** [\s] of a regular expression and the white space of [trim],
    restricted to ASCII: TAB, LF, VT, FF, CR and SPACE. *)
Definition is_space (c : ascii) : bool :=
  let n := nat_of_ascii c in
  ((9 <=? n)%nat && (n <=? 13)%nat) || (n =? 32)%nat.

(** [s.startsWith(p)] *)
Definition startsWith (s p : string) : bool := String.prefix p s.

(** [s.includes(sub)] *)
Fixpoint includes (s sub : string) : bool :=
  String.prefix sub s ||
  match s with
  | EmptyString => false
  | String _ s' => includes s' sub
  end.

(** [s.trim()] *)
Fixpoint trimStart (s : string) : string :=
  match s with
  | EmptyString => EmptyString
  | String c s' => if is_space c then trimStart s' else s
  end.

Fixpoint trimEnd (s : string) : string :=
  match s with
  | EmptyString => EmptyString
  | String c s' =>
      match trimEnd s' with
      | EmptyString => if is_space c then EmptyString else String c EmptyString
      | r => String c r
      end
  end.

Definition trim (s : string) : string := trimEnd (trimStart s).

(** [s.toLowerCase()] on ASCII letters. *)
Definition lower (c : ascii) : ascii :=
  let n := nat_of_ascii c in
  if ((65 <=? n)%nat && (n <=? 90)%nat) then ascii_of_nat (n + 32) else c.

Fixpoint toLowerCase (s : string) : string :=
  match s with
  | EmptyString => EmptyString
  | String c s' => String (lower c) (toLowerCase s')
  end.

(** Prepending a character to the first piece of a split. *)
Definition cons_first (c : ascii) (ws : list string) : list string :=
  match ws with
  | w :: ws' => String c w :: ws'
  | [] => [String c EmptyString]
  end.

(** [s.split(sep)] for a separator of one character. *)
Fixpoint split_char (sep : ascii) (s : string) : list string :=
  match s with
  | EmptyString => [EmptyString]
  | String c s' =>
      if Ascii.eqb c sep then EmptyString :: split_char sep s'
      else cons_first c (split_char sep s')
  end.

(** [s.split(/\s+/)]: [in_run] tells that the previous character was
    white space, so that a run of white space separates once. *)
Fixpoint split_ws_from (in_run : bool) (s : string) : list string :=
  match s with
  | EmptyString => [EmptyString]
  | String c s' =>
      if is_space c then
        if in_run then split_ws_from true s'
        else EmptyString :: split_ws_from true s'
      else cons_first c (split_ws_from false s')
  end.

Definition split_ws (s : string) : list string := split_ws_from false s.

(** [s.replace(/\s+/g, ' ')] *)
Fixpoint collapse_ws_from (in_run : bool) (s : string) : string :=
  match s with
  | EmptyString => EmptyString
  | String c s' =>
      if is_space c then
        if in_run then collapse_ws_from true s'
        else String " " (collapse_ws_from true s')
      else String c (collapse_ws_from false s')
  end.

Definition collapse_ws (s : string) : string := collapse_ws_from false s.

(** Truthiness of a string: the empty string is falsy. *)
Definition truthy (s : string) : bool :=
  match s with EmptyString => false | _ => true end.

(** [a || b] on values that are a string or [undefined]. *)
Definition or_else (a b : option string) : option string :=
  match a with
  | Some s => if truthy s then a else b
  | None => b
  end.

(** [a || undefined]: an empty string becomes [undefined]. *)
Definition or_undefined (a : option string) : option string := or_else a None.

(** [a || ''] *)
Definition or_empty (a : option string) : string :=
  match or_undefined a with Some s => s | None => EmptyString end.

(** [arr.includes(x)] on an array of strings. *)
Definition arr_includes (arr : list string) (x : string) : bool :=
  existsb (String.eqb x) arr.

End Js.

(** ** The parsed document *)

Inductive Node : Type :=
| Element (name : string) (attribs : list (string * string)) (children : list Node)
| Text (data : string)
| Comment (data : string).

Definition Document := list Node.

(** The element nodes of a subtree in document order, the root first. *)
Fixpoint descendants_or_self (n : Node) : list Node :=
  match n with
  | Element _ _ cs => n :: flat_map descendants_or_self cs
  | _ => []
  end.

(** [$('*')] *)
Definition all_elements (d : Document) : list Node :=
  flat_map descendants_or_self d.

(** [el.find(...)] searches the proper descendants. *)
Definition proper_descendants (n : Node) : list Node :=
  match n with
  | Element _ _ cs => flat_map descendants_or_self cs
  | _ => []
  end.

(** [textContent]: the text nodes below a node, concatenated; comments
    give nothing. *)
Fixpoint textContent (n : Node) : string :=
  match n with
  | Element _ _ cs => String.concat "" (map textContent cs)
  | Text s => s
  | Comment _ => ""
  end.

(** [$(sel).text()] *)
Definition text (sel : list Node) : string :=
  String.concat "" (map textContent sel).

Definition tagName (n : Node) : string :=
  match n with Element t _ _ => t | _ => "" end.

Fixpoint assoc (k : string) (kvs : list (string * string)) : option string :=
  match kvs with
  | [] => None
  | (k', v) :: r => if String.eqb k k' then Some v else assoc k r
  end.

(** [$(el).attr(a)]: [None] is [undefined]. *)
Definition attr (a : string) (n : Node) : option string :=
  match n with Element _ at_ _ => assoc a at_ | _ => None end.

(** [$(sel).attr(a)] reads the first element of the selection. *)
Definition attr_first (a : string) (sel : list Node) : option string :=
  match sel with
  | n :: _ => attr a n
  | [] => None
  end.

(** [$(el).html()] of a [script] element: a script holds raw text, which
    is serialised as it is. *)
Definition html (n : Node) : string := textContent n.

(** ** Selectors *)

Inductive Simple : Type :=
| STag (t : string)              (* form *)
| SClass (c : string)            (* .cart *)
| SAttr (a : string)             (* [ng-app] *)
| SAttrEq (a v : string)         (* [type="search"] *)
| SAttrSub (a v : string).       (* [class*="product"] *)

(** A compound selector is a conjunction, a selector a comma-separated
    union. *)
Definition Compound := list Simple.
Definition Selector := list Compound.

Definition has_class (c : string) (n : Node) : bool :=
  match attr "class" n with
  | Some v => existsb (String.eqb c) (Js.split_ws v)
  | None => false
  end.

(** The attributes whose value a selector compares without regard to
    case in an HTML document: the list of [css-select], which [cheerio]
    selects with.  Of the selectors of the analyzer, [type] and [rel] are
    among them. *)
Definition case_insensitive_attr (a : string) : bool :=
  existsb (String.eqb a)
    [ "accept"; "accept-charset"; "align"; "alink"; "axis"; "bgcolor"; "charset";
      "checked"; "clear"; "codetype"; "color"; "compact"; "declare"; "defer";
      "dir"; "direction"; "disabled"; "enctype"; "face"; "frame"; "hreflang";
      "http-equiv"; "lang"; "language"; "link"; "media"; "method"; "multiple";
      "nohref"; "noresize"; "noshade"; "nowrap"; "readonly"; "rel"; "rev";
      "rules"; "scope"; "scrolling"; "selected"; "shape"; "target"; "text";
      "type"; "valign"; "valuetype"; "vlink" ].

(** The value [w] of the attribute [a] against the value [v] of the
    selector. *)
Definition attr_value_eqb (a w v : string) : bool :=
  if case_insensitive_attr a
  then String.eqb (Js.toLowerCase w) (Js.toLowerCase v)
  else String.eqb w v.

Definition attr_value_includes (a w v : string) : bool :=
  if case_insensitive_attr a
  then Js.includes (Js.toLowerCase w) (Js.toLowerCase v)
  else Js.includes w v.

Definition matches_simple (s : Simple) (n : Node) : bool :=
  match s with
  | STag t => String.eqb (tagName n) t
  | SClass c => has_class c n
  | SAttr a => match attr a n with Some _ => true | None => false end
  | SAttrEq a v => match attr a n with Some w => attr_value_eqb a w v | None => false end
  | SAttrSub a v =>
      match attr a n with Some w => attr_value_includes a w v | None => false end
  end.

Definition matches (s : Selector) (n : Node) : bool :=
  existsb (fun c => forallb (fun x => matches_simple x n) c) s.

(** [$(sel)] *)
Definition select (d : Document) (s : Selector) : list Node :=
  List.filter (matches s) (all_elements d).

(** [$(sel).length > 0] *)
Definition found (d : Document) (s : Selector) : bool :=
  (0 <? length (select d s))%nat.

Definition tag (t : string) : Selector := [[STag t]].
Definition cls (c : string) : Selector := [[SClass c]].
Definition has_attr (a : string) : Selector := [[SAttr a]].
Definition attr_sub (a v : string) : Selector := [[SAttrSub a v]].
Definition tag_attr (t a : string) : Selector := [[STag t; SAttr a]].
Definition tag_attr_eq (t a v : string) : Selector := [[STag t; SAttrEq a v]].
Definition tag_attr_sub (t a v : string) : Selector := [[STag t; SAttrSub a v]].

(** ** Types of [types.ts] *)

Inductive WebsiteType : Type :=
| ecommerce | blog | news | portfolio | corporate | social_media | forum
| documentation | landing_page | saas | educational | entertainment
| government | nonprofit | unknown.

Record DetectedElements : Type := {
  hasVideo : bool;
  hasImages : bool;
  hasForms : bool;
  hasNavigation : bool;
  hasFooter : bool;
  hasSidebar : bool;
  hasComments : bool;
  hasSearch : bool;
  hasShoppingCart : bool;
  hasUserAuth : bool
}.

Record TechnicalDetails : Type := {
  framework : option string;
  cms : option string;
  analytics : list string;
  socialMedia : list string;
  paymentMethods : list string
}.

(** ** [WebsiteAnalyzer.detectElements] *)

Definition detectElements (d : Document) : DetectedElements := {|
  hasVideo := found d (tag "video") || found d (tag_attr_sub "iframe" "src" "youtube")
              || found d (tag_attr_sub "iframe" "src" "vimeo");
  hasImages := found d (tag "img");
  hasForms := found d (tag "form");
  hasNavigation := found d (tag "nav") || found d (cls "nav") || found d (cls "navigation");
  hasFooter := found d (tag "footer") || found d (cls "footer");
  hasSidebar := found d (cls "sidebar") || found d (cls "side-bar") || found d (tag "aside");
  hasComments := found d (cls "comments") || found d (cls "comment")
                 || found d (attr_sub "id" "comment");
  hasSearch := found d (tag_attr_eq "input" "type" "search") || found d (cls "search")
               || found d (attr_sub "id" "search");
  hasShoppingCart := found d (cls "cart") || found d (cls "shopping-cart")
                     || found d (attr_sub "id" "cart");
  hasUserAuth := found d (cls "login") || found d (cls "signin")
                 || found d (attr_sub "id" "login") || found d (attr_sub "id" "signin")
|}.

(** ** [WebsiteAnalyzer.detectTechnicalDetails] *)

(** [cond && arr.push(label)] *)
Definition push_if (cond : bool) (label : string) (arr : list string) : list string :=
  if cond then arr ++ [label] else arr.

(** The body of the loop over the [script] elements. *)
Definition analytics_step (analytics : list string) (el : Node) : list string :=
  let scriptContent := Js.or_empty (Some (html el)) in
  let analytics :=
    push_if (Js.includes scriptContent "google-analytics" || Js.includes scriptContent "gtag")
            "Google Analytics" analytics in
  let analytics :=
    push_if (Js.includes scriptContent "facebook" && Js.includes scriptContent "pixel")
            "Facebook Pixel" analytics in
  let analytics :=
    push_if (Js.includes scriptContent "mixpanel") "Mixpanel" analytics in
  analytics.

Definition detect_analytics (d : Document) : list string :=
  fold_left analytics_step (select d (tag "script")) [].

Definition detect_socialMedia (d : Document) : list string :=
  let socialMedia := [] in
  let socialMedia := push_if (found d (tag_attr_sub "a" "href" "facebook.com")) "Facebook" socialMedia in
  let socialMedia := push_if (found d (tag_attr_sub "a" "href" "twitter.com")) "Twitter" socialMedia in
  let socialMedia := push_if (found d (tag_attr_sub "a" "href" "linkedin.com")) "LinkedIn" socialMedia in
  let socialMedia := push_if (found d (tag_attr_sub "a" "href" "instagram.com")) "Instagram" socialMedia in
  let socialMedia := push_if (found d (tag_attr_sub "a" "href" "youtube.com")) "YouTube" socialMedia in
  socialMedia.

Definition detect_paymentMethods (d : Document) : list string :=
  let paymentMethods := [] in
  let paymentMethods := push_if (found d (tag_attr_sub "img" "src" "stripe")) "Stripe" paymentMethods in
  let paymentMethods := push_if (found d (tag_attr_sub "img" "src" "paypal")) "PayPal" paymentMethods in
  let paymentMethods := push_if (found d (tag_attr_sub "img" "src" "square")) "Square" paymentMethods in
  let paymentMethods := push_if (found d (attr_sub "class" "stripe")) "Stripe" paymentMethods in
  let paymentMethods := push_if (found d (attr_sub "class" "paypal")) "PayPal" paymentMethods in
  paymentMethods.

(** The conditions of the framework and CMS checks, in the order of the
    source. *)
Definition is_react (d : Document) : bool :=
  found d (tag_attr_sub "script" "src" "react") || found d (has_attr "data-reactroot").
Definition is_vue (d : Document) : bool :=
  found d (tag_attr_sub "script" "src" "vue") || found d (has_attr "data-v-").
Definition is_angular (d : Document) : bool :=
  found d (tag_attr_sub "script" "src" "angular") || found d (has_attr "ng-app").

(** [$('meta[name="generator"]').attr('content')?.includes(w)] *)
Definition generator_includes (d : Document) (w : string) : bool :=
  match attr_first "content" (select d (tag_attr_eq "meta" "name" "generator")) with
  | Some c => Js.includes c w
  | None => false
  end.

(** [let framework; if (..) framework = 'React'; if (..) framework = 'Vue.js';
    if (..) framework = 'Angular';]: three assignments, none guarded by the
    earlier ones. *)
Definition detect_framework (d : Document) : option string :=
  let framework := None in
  let framework := if is_react d then Some "React" else framework in
  let framework := if is_vue d then Some "Vue.js" else framework in
  let framework := if is_angular d then Some "Angular" else framework in
  framework.

Definition detect_cms (d : Document) : option string :=
  let cms := None in
  let cms := if generator_includes d "WordPress" then Some "WordPress" else cms in
  let cms := if generator_includes d "Drupal" then Some "Drupal" else cms in
  let cms := if generator_includes d "Joomla" then Some "Joomla" else cms in
  cms.

Definition detectTechnicalDetails (d : Document) : TechnicalDetails := {|
  framework := detect_framework d;
  cms := detect_cms d;
  analytics := detect_analytics d;
  socialMedia := detect_socialMedia d;
  paymentMethods := detect_paymentMethods d
|}.

(** ** [WebsiteAnalyzer.determineWebsiteType] *)

Section Classifier.

Variable d : Document.
Variable elements : DetectedElements.
Variable technical : TechnicalDetails.
Variable url : string.

(** [$('.c').length > 0 || $('[class*="c"]').length > 0] is written out
    where the source has it; the conditions below are the conditions of
    the [if] statements, with the precedence of [&&] over [||]. *)

Definition cond_ecommerce : bool :=
  hasShoppingCart elements || (0 <? length (paymentMethods technical))%nat ||
  found d (cls "product") || found d (attr_sub "class" "product") ||
  found d (cls "price") || found d (attr_sub "class" "price").

Definition cond_blog : bool :=
  found d (tag "article") || found d (cls "post") || found d (cls "blog") ||
  found d (attr_sub "class" "post") || found d (attr_sub "class" "blog").

Definition cond_news : bool :=
  found d (cls "news") || found d (attr_sub "class" "news") ||
  found d (cls "article") || found d (attr_sub "class" "article") ||
  found d (cls "headline") || found d (attr_sub "class" "headline").

Definition cond_portfolio : bool :=
  found d (cls "portfolio") || found d (attr_sub "class" "portfolio") ||
  found d (cls "gallery") || found d (attr_sub "class" "gallery") ||
  found d (cls "work") || found d (attr_sub "class" "work").

Definition cond_social_media : bool :=
  hasUserAuth elements && hasComments elements &&
  (hasVideo elements || hasImages elements) &&
  (0 <? length (socialMedia technical))%nat.

(** [a && b && c || e || f || g] is [((a && b && c) || e || f || g)]. *)
Definition cond_forum : bool :=
  (hasComments elements && hasUserAuth elements && found d (cls "thread")) ||
  found d (attr_sub "class" "thread") ||
  found d (cls "topic") || found d (attr_sub "class" "topic").

Definition cond_documentation : bool :=
  found d (cls "documentation") || found d (attr_sub "class" "docs") ||
  found d (cls "tutorial") || found d (attr_sub "class" "tutorial") ||
  found d (cls "guide") || found d (attr_sub "class" "guide").

Definition cond_saas : bool :=
  hasUserAuth elements && hasForms elements &&
  (found d (cls "dashboard") || found d (attr_sub "class" "dashboard") ||
   found d (cls "app") || found d (attr_sub "class" "app")).

Definition cond_educational : bool :=
  found d (cls "course") || found d (attr_sub "class" "course") ||
  found d (cls "lesson") || found d (attr_sub "class" "lesson") ||
  found d (cls "education") || found d (attr_sub "class" "education").

Definition cond_entertainment : bool :=
  hasVideo elements && (found d (cls "entertainment") ||
  found d (attr_sub "class" "entertainment") ||
  found d (cls "media") || found d (attr_sub "class" "media")).

Definition cond_government : bool :=
  found d (cls "gov") || found d (attr_sub "class" "gov") ||
  Js.includes url ".gov" || found d (cls "government").

Definition cond_nonprofit : bool :=
  found d (cls "nonprofit") || found d (attr_sub "class" "nonprofit") ||
  found d (cls "charity") || found d (attr_sub "class" "charity") ||
  found d (cls "donate") || found d (attr_sub "class" "donate").

Definition cond_landing_page : bool :=
  found d (cls "landing") || found d (attr_sub "class" "landing") ||
  found d (cls "hero") || found d (attr_sub "class" "hero").

Definition cond_corporate : bool :=
  hasNavigation elements && hasFooter elements &&
  (found d (cls "about") || found d (attr_sub "class" "about") ||
   found d (cls "contact") || found d (attr_sub "class" "contact")).

Definition determineWebsiteType : WebsiteType :=
  if cond_ecommerce then ecommerce
  else if cond_blog then blog
  else if cond_news then news
  else if cond_portfolio then portfolio
  else if cond_social_media then social_media
  else if cond_forum then forum
  else if cond_documentation then documentation
  else if cond_saas then saas
  else if cond_educational then educational
  else if cond_entertainment then entertainment
  else if cond_government then government
  else if cond_nonprofit then nonprofit
  else if cond_landing_page then landing_page
  else if cond_corporate then corporate
  else unknown.

(** The rule chain as the specification words it: the pairs of a
    predicate and a label in priority order, and the label of the first
    pair whose predicate holds. *)
Definition rules : list (bool * WebsiteType) :=
  [ (cond_ecommerce, ecommerce); (cond_blog, blog); (cond_news, news);
    (cond_portfolio, portfolio); (cond_social_media, social_media);
    (cond_forum, forum); (cond_documentation, documentation);
    (cond_saas, saas); (cond_educational, educational);
    (cond_entertainment, entertainment); (cond_government, government);
    (cond_nonprofit, nonprofit); (cond_landing_page, landing_page);
    (cond_corporate, corporate) ].

Fixpoint first_match (rs : list (bool * WebsiteType)) : WebsiteType :=
  match rs with
  | [] => unknown
  | (true, t) :: _ => t
  | (false, _) :: rs' => first_match rs'
  end.

End Classifier.

(** The classification of a page as [analyzeWebsite] computes it. *)
Definition classify (d : Document) (url : string) : WebsiteType :=
  determineWebsiteType d (detectElements d) (detectTechnicalDetails d) url.

(** ** Exceptions *)

Inductive Exn (A : Type) : Type :=
| Ok (a : A)
| Throw.
Arguments Ok {A} a.
Arguments Throw {A}.

Definition exn_bind {A B} (m : Exn A) (f : A -> Exn B) : Exn B :=
  match m with
  | Ok a => f a
  | Throw => Throw
  end.

(** [try { body } catch (e) { handler }] *)
Definition try_catch {A} (body handler : Exn A) : Exn A :=
  match body with
  | Ok a => Ok a
  | Throw => handler
  end.

(** A loop whose body may throw: the first exception leaves the loop. *)
Fixpoint exn_fold {A B} (f : A -> B -> Exn A) (l : list B) (a : A) : Exn A :=
  match l with
  | [] => Ok a
  | x :: l' => exn_bind (f a x) (exn_fold f l')
  end.

Fixpoint exn_map {A B} (f : A -> Exn B) (l : list A) : Exn (list B) :=
  match l with
  | [] => Ok []
  | x :: l' =>
      exn_bind (f x) (fun y => exn_bind (exn_map f l') (fun ys => Ok (y :: ys)))
  end.

(** ** JSON values and JavaScript objects *)

(** Numbers are integers here; the properties below do not depend on fractions. *)
Inductive JsVal : Type :=
| JNull
| JBool (b : bool)
| JNum (n : Z)
| JStr (s : string)
| JArr (items : list JsVal)
| JObj (props : list (string * JsVal)).

(** An object is the list of its properties in insertion order (keys that
    are array indices, which JavaScript lists first, are not among the
    keys that the code sets). *)
Section Obj.
Context {V : Type}.

Fixpoint obj_get (k : string) (o : list (string * V)) : option V :=
  match o with
  | [] => None
  | (k', v) :: r => if String.eqb k k' then Some v else obj_get k r
  end.

(** [o[k] = v]: an existing property keeps its place, a new one goes to
    the end. *)
Fixpoint obj_set (k : string) (v : V) (o : list (string * V)) : list (string * V) :=
  match o with
  | [] => [(k, v)]
  | (k', v') :: r =>
      if String.eqb k k' then (k', v) :: r else (k', v') :: obj_set k v r
  end.

(** [Object.assign(o, src)] and the spread [{...o, ...src}] *)
Definition obj_assign (o src : list (string * V)) : list (string * V) :=
  fold_left (fun acc kv => obj_set (fst kv) (snd kv) acc) src o.

(** [Object.keys(o)] *)
Definition obj_keys (o : list (string * V)) : list string := map fst o.
End Obj.

(** The property names that every object inherits from [Object.prototype]:
    reading one of them from an object that has no such property of its own
    gives a function (for [__proto__] the prototype), which is truthy and
    is no array. *)
Definition inherited (k : string) : bool :=
  existsb (String.eqb k)
    [ "constructor"; "toString"; "toLocaleString"; "valueOf"; "hasOwnProperty";
      "isPrototypeOf"; "propertyIsEnumerable"; "__proto__";
      "__defineGetter__"; "__defineSetter__"; "__lookupGetter__";
      "__lookupSetter__" ].

(** Truthiness; [None] is [undefined]. *)
Definition truthy (v : option JsVal) : bool :=
  match v with
  | None => false
  | Some JNull => false
  | Some (JBool b) => b
  | Some (JNum n) => negb (n =? 0)%Z
  | Some (JStr s) => Js.truthy s
  | Some (JArr _) => true
  | Some (JObj _) => true
  end.

(** ** [parseInt] *)

Inductive Num : Type := NaN | Int (z : Z).

Definition digit_val (radix : Z) (c : ascii) : option Z :=
  let n := Z.of_nat (nat_of_ascii c) in
  let v := if ((48 <=? n) && (n <=? 57))%Z then Some (n - 48)%Z
           else if ((97 <=? n) && (n <=? 122))%Z then Some (n - 87)%Z
           else if ((65 <=? n) && (n <=? 90))%Z then Some (n - 55)%Z
           else None in
  match v with
  | Some x => if (x <? radix)%Z then Some x else None
  | None => None
  end.

(** The longest prefix of digits; [None] when there is no digit. *)
Fixpoint parse_digits (radix : Z) (s : string) (acc : option Z) : option Z :=
  match s with
  | EmptyString => acc
  | String c s' =>
      match digit_val radix c with
      | Some v =>
          parse_digits radix s'
            (Some (radix * (match acc with Some a => a | None => 0 end) + v)%Z)
      | None => acc
      end
  end.

Definition parseInt (s : string) : Num :=
  let s := Js.trimStart s in
  let '(neg, s) :=
    match s with
    | String "-" r => (true, r)
    | String "+" r => (false, r)
    | _ => (false, s)
    end in
  let '(radix, s) :=
    match s with
    | String "0" (String "x" r) => (16%Z, r)
    | String "0" (String "X" r) => (16%Z, r)
    | _ => (10%Z, s)
    end in
  match parse_digits radix s None with
  | Some v => Int (if neg then (- v)%Z else v)
  | None => NaN
  end.

(** ** [WebsiteAnalyzer.collectScrapedData] *)

Record Image : Type := {
  img_src : string;
  img_alt : option string;
  img_width : option Num;
  img_height : option Num
}.

Record Video : Type := {
  video_src : option string;
  video_poster : option string;
  video_type : string
}.

Record Link : Type := {
  link_href : string;
  link_text : string;
  link_target : option string
}.

Record Input : Type := {
  input_type : string;
  input_name : option string;
  input_placeholder : option string;
  input_required : bool
}.

Record Form : Type := {
  form_action : option string;
  form_method : option string;
  form_inputs : list Input
}.

Record Script : Type := {
  script_src : option string;
  script_content : option string;
  script_type : option string
}.

Record ScrapedData : Type := {
  sd_html : string;
  sd_title : string;
  sd_description : option string;
  metaTags : list (string * string);
  allClasses : list string;
  allIds : list string;
  allTextContent : string;
  images : list Image;
  videos : list Video;
  links : list Link;
  forms : list Form;
  scripts : list Script;
  stylesheets : list string;
  structuredData : list JsVal;
  socialMediaLinks : list string;
  paymentIndicators : list string;
  ecommerceIndicators : list string;
  contentIndicators : list string
}.

(** The callback of [className.split(' ').forEach]. *)
Definition class_step (allClasses : list string) (cls : string) : list string :=
  if Js.truthy (Js.trim cls) && negb (Js.arr_includes allClasses (Js.trim cls))
  then allClasses ++ [Js.trim cls]
  else allClasses.

(** The callback of [$('*').each]: the state is the pair of the two
    arrays. *)
Definition classes_ids_step (st : list string * list string) (el : Node)
  : list string * list string :=
  let '(allClasses, allIds) := st in
  let className := attr "class" el in
  let id := attr "id" el in
  let allClasses :=
    match Js.or_undefined className with
    | Some className => fold_left class_step (Js.split_char " " className) allClasses
    | None => allClasses
    end in
  let allIds :=
    match Js.or_undefined id with
    | Some id => if negb (Js.arr_includes allIds id) then allIds ++ [id] else allIds
    | None => allIds
    end in
  (allClasses, allIds).

Definition collect_classes_ids (d : Document) : list string * list string :=
  fold_left classes_ids_step (all_elements d) ([], []).

Definition metaTags_step (metaTags : list (string * string)) (el : Node)
  : list (string * string) :=
  let name := Js.or_else (attr "name" el)
                (Js.or_else (attr "property" el) (attr "http-equiv" el)) in
  let content := attr "content" el in
  match Js.or_undefined name, Js.or_undefined content with
  | Some name, Some content => obj_set name content metaTags
  | _, _ => metaTags
  end.

Definition collect_allTextContent (d : Document) : string :=
  Js.trim (Js.collapse_ws (text (select d (tag "body")))).

Definition collect_image (el : Node) : Image := {|
  img_src := Js.or_empty (attr "src" el);
  img_alt := Js.or_undefined (attr "alt" el);
  img_width := match Js.or_undefined (attr "width" el) with
               | Some w => Some (parseInt w) | None => None end;
  img_height := match Js.or_undefined (attr "height" el) with
                | Some w => Some (parseInt w) | None => None end
|}.

(** [$el.prop('tagName')?.toLowerCase() || 'unknown'] *)
Definition tagName_or_unknown (el : Node) : string :=
  let t := Js.toLowerCase (tagName el) in
  if Js.truthy t then t else "unknown".

Definition collect_video (el : Node) : Video := {|
  video_src := Js.or_undefined (attr "src" el);
  video_poster := Js.or_undefined (attr "poster" el);
  video_type := tagName_or_unknown el
|}.

Definition collect_link (el : Node) : Link := {|
  link_href := Js.or_empty (attr "href" el);
  link_text := Js.trim (text [el]);
  link_target := Js.or_undefined (attr "target" el)
|}.

Definition collect_input (el : Node) : Input := {|
  input_type := match Js.or_undefined (attr "type" el) with
                | Some t => t | None => tagName_or_unknown el end;
  input_name := Js.or_undefined (attr "name" el);
  input_placeholder := Js.or_undefined (attr "placeholder" el);
  input_required := match attr "required" el with Some _ => true | None => false end
|}.

Definition collect_form (el : Node) : Form := {|
  form_action := Js.or_undefined (attr "action" el);
  form_method := Js.or_undefined (attr "method" el);
  form_inputs :=
    map collect_input
      (List.filter (matches [[STag "input"]; [STag "select"]; [STag "textarea"]])
         (proper_descendants el))
|}.

Definition collect_script (el : Node) : Script := {|
  script_src := Js.or_undefined (attr "src" el);
  script_content := Js.or_undefined (Some (html el));
  script_type := Js.or_undefined (attr "type" el)
|}.

Definition collect_links (d : Document) : list Link :=
  map collect_link (select d (tag_attr "a" "href")).

Definition is_social (link : Link) : bool :=
  Js.includes (link_href link) "facebook.com" ||
  Js.includes (link_href link) "twitter.com" ||
  Js.includes (link_href link) "linkedin.com" ||
  Js.includes (link_href link) "instagram.com" ||
  Js.includes (link_href link) "youtube.com" ||
  Js.includes (link_href link) "tiktok.com" ||
  Js.includes (link_href link) "snapchat.com".

Definition is_payment_word (word : string) : bool :=
  Js.includes word "paypal" || Js.includes word "stripe" ||
  Js.includes word "square" || Js.includes word "visa" ||
  Js.includes word "mastercard" || Js.includes word "amex" ||
  Js.includes word "payment" || Js.includes word "checkout" ||
  Js.includes word "cart" || Js.includes word "buy" ||
  Js.includes word "purchase".

Definition is_ecommerce_word (word : string) : bool :=
  Js.includes word "product" || Js.includes word "price" ||
  Js.includes word "sale" || Js.includes word "discount" ||
  Js.includes word "shipping" || Js.includes word "inventory" ||
  Js.includes word "stock" || Js.includes word "add to cart" ||
  Js.includes word "buy now" || Js.includes word "shop".

Definition is_content_word (word : string) : bool :=
  Js.includes word "article" || Js.includes word "blog" ||
  Js.includes word "post" || Js.includes word "news" ||
  Js.includes word "tutorial" || Js.includes word "guide" ||
  Js.includes word "documentation" || Js.includes word "help" ||
  Js.includes word "faq".

(** [allTextContent.toLowerCase().split(/\s+/).filter(p)] *)
Definition indicators (p : string -> bool) (allTextContent : string) : list string :=
  List.filter p (Js.split_ws (Js.toLowerCase allTextContent)).

Definition collect_ecommerceIndicators (d : Document) : list string :=
  indicators is_ecommerce_word (collect_allTextContent d).

Definition collect_title (d : Document) : string :=
  let t := Js.trim (text (select d (tag "title"))) in
  if Js.truthy t then t else "Untitled".

Definition collect_description (d : Document) : option string :=
  Js.or_else (attr_first "content" (select d (tag_attr_eq "meta" "name" "description")))
    (Js.or_undefined
       (attr_first "content" (select d (tag_attr_eq "meta" "property" "og:description")))).

Section Extractor.

(** [JSON.parse]; [Throw] is its [SyntaxError]. *)
Variable JSON_parse : string -> Exn JsVal.

(** The statements inside [try]. *)
Definition structuredData_body (structuredData : list JsVal) (el : Node)
  : Exn (list JsVal) :=
  let content := html el in
  if Js.truthy content
  then exn_bind (JSON_parse content) (fun v => Ok (structuredData ++ [v]))
  else Ok structuredData.

(** The callback of the loop: [catch (e) { }] goes on with the array as
    it was. *)
Definition structuredData_step (structuredData : list JsVal) (el : Node)
  : Exn (list JsVal) :=
  try_catch (structuredData_body structuredData el) (Ok structuredData).

Definition collect_structuredData (d : Document) : Exn (list JsVal) :=
  exn_fold structuredData_step
    (select d (tag_attr_eq "script" "type" "application/ld+json")) [].

Definition collectScrapedData (d : Document) (html : string) : Exn ScrapedData :=
  let '(allClasses, allIds) := collect_classes_ids d in
  let metaTags := fold_left metaTags_step (select d (tag "meta")) [] in
  let allTextContent := collect_allTextContent d in
  let images := map collect_image (select d (tag "img")) in
  let videos :=
    map collect_video
      (select d [[STag "video"]; [STag "iframe"; SAttrSub "src" "youtube"];
                 [STag "iframe"; SAttrSub "src" "vimeo"]]) in
  let links := collect_links d in
  let forms := map collect_form (select d (tag "form")) in
  let scripts := map collect_script (select d (tag "script")) in
  let stylesheets :=
    List.filter Js.truthy
      (map (fun el => Js.or_empty (attr "href" el))
         (select d (tag_attr_eq "link" "rel" "stylesheet"))) in
  exn_bind (collect_structuredData d) (fun structuredData =>
  let socialMediaLinks := map link_href (List.filter is_social links) in
  let paymentIndicators := indicators is_payment_word allTextContent in
  let ecommerceIndicators := indicators is_ecommerce_word allTextContent in
  let contentIndicators := indicators is_content_word allTextContent in
  Ok {|
    sd_html := html;
    sd_title := collect_title d;
    sd_description := collect_description d;
    metaTags := metaTags;
    allClasses := allClasses;
    allIds := allIds;
    allTextContent := allTextContent;
    images := images;
    videos := videos;
    links := links;
    forms := forms;
    scripts := scripts;
    stylesheets := stylesheets;
    structuredData := structuredData;
    socialMediaLinks := socialMediaLinks;
    paymentIndicators := paymentIndicators;
    ecommerceIndicators := ecommerceIndicators;
    contentIndicators := contentIndicators
  |}).

End Extractor.

(** ** [WebsiteAnalyzer.analyzeWebsite], after the page has been rendered *)

(** [schemaRecommendation] is a constant advisory text and is left out. *)
Record AnalysisResult : Type := {
  url : string;
  title : string;
  description : option string;
  websiteType : WebsiteType;
  detectedElements : DetectedElements;
  technicalDetails : TechnicalDetails;
  scrapedData : ScrapedData
}.

Definition analyzeWebsite (JSON_parse : string -> Exn JsVal)
  (d : Document) (html u : string) : Exn AnalysisResult :=
  let title := collect_title d in
  let description :=
    Js.or_empty
      (Js.or_else (attr_first "content" (select d (tag_attr_eq "meta" "name" "description")))
         (attr_first "content" (select d (tag_attr_eq "meta" "property" "og:description")))) in
  exn_bind (collectScrapedData JSON_parse d html) (fun scrapedData =>
  let detectedElements := detectElements d in
  let technicalDetails := detectTechnicalDetails d in
  let websiteType := determineWebsiteType d detectedElements technicalDetails u in
  Ok {|
    url := u;
    title := title;
    description := Some description;
    websiteType := websiteType;
    detectedElements := detectedElements;
    technicalDetails := technicalDetails;
    scrapedData := scrapedData
  |}).

(** ** [generateSchemaMarkup] of [index.ts], on values

    The arguments are trees here, as they are when they come from a
    decoded request and from [AnalysisResultSchema.parse]: no object is
    reachable twice.  The version on a store, with references, is
    [Store.generateSchemaMarkup] below.  A key [__proto__] of
    [customProperties], which would replace the prototype of the
    document, is outside the model. *)

Record NestedSchema : Type := {
  ns_type : string;
  ns_context : string;
  ns_properties : list (string * JsVal)
}.

Section Synthesizer.

(** [new URL(rel, base).href]; [Throw] is its [TypeError]. *)
Variable URL_href : string -> string -> Exn string.

Variable analysisResult : AnalysisResult.

(** The callback of [images.map]. *)
Definition image_object (img : Image) : Exn JsVal :=
  exn_bind
    (if Js.startsWith (img_src img) "http" then Ok (img_src img)
     else URL_href (img_src img) (url analysisResult))
    (fun u =>
       Ok (JObj [ ("@type", JStr "ImageObject");
                  ("url", JStr u);
                  ("alt", JStr (match Js.or_undefined (img_alt img) with
                                | Some alt => alt
                                | None => title analysisResult
                                end)) ])).

Definition add_description (schema : list (string * JsVal)) : list (string * JsVal) :=
  match Js.or_undefined (description analysisResult) with
  | Some description => obj_set "description" (JStr description) schema
  | None => schema
  end.

Definition add_images (schema : list (string * JsVal)) : Exn (list (string * JsVal)) :=
  if (0 <? length (images (scrapedData analysisResult)))%nat then
    exn_bind
      (exn_map image_object
         (List.filter (fun img => Js.truthy (img_src img))
            (images (scrapedData analysisResult))))
      (fun image => Ok (obj_set "image" (JArr image) schema))
  else Ok schema.

(** The callback of [Object.keys(nestedSchema).forEach]. *)
Definition absolutize_step (nestedSchema : list (string * JsVal)) (key : string)
  : Exn (list (string * JsVal)) :=
  match obj_get key nestedSchema with
  | Some (JStr s) =>
      if Js.startsWith s "/" then
        exn_bind (URL_href s (url analysisResult))
          (fun href => Ok (obj_set key (JStr href) nestedSchema))
      else Ok nestedSchema
  | _ => Ok nestedSchema
  end.

(** The callback of [nestedSchemas.forEach].  [schema[ctx].push] throws a
    [TypeError] when the field holds a truthy value that is no array, a
    member of [Object.prototype] included. *)
Definition nested_step (schema : list (string * JsVal)) (nested : NestedSchema)
  : Exn (list (string * JsVal)) :=
  let schema :=
    if negb (match obj_get (ns_context nested) schema with
             | Some v => truthy (Some v)
             | None => inherited (ns_context nested)
             end)
    then obj_set (ns_context nested) (JArr []) schema
    else schema in
  let nestedSchema :=
    obj_assign [("@type", JStr (ns_type nested))] (ns_properties nested) in
  exn_bind (exn_fold absolutize_step (obj_keys nestedSchema) nestedSchema)
    (fun nestedSchema =>
       match obj_get (ns_context nested) schema with
       | Some (JArr items) =>
           Ok (obj_set (ns_context nested) (JArr (items ++ [JObj nestedSchema])) schema)
       | _ => Throw
       end).

(** The callback of the last [Object.keys(schema).forEach]. *)
Definition collapse_step (schema : list (string * JsVal)) (key : string)
  : list (string * JsVal) :=
  match obj_get key schema with
  | Some (JArr [x]) => obj_set key x schema
  | _ => schema
  end.

Definition collapse (schema : list (string * JsVal)) : list (string * JsVal) :=
  fold_left collapse_step (obj_keys schema) schema.

(** The document before the last loop. *)
Definition build_schema (mainSchema : string) (nestedSchemas : list NestedSchema)
  (customProperties : list (string * JsVal)) : Exn (list (string * JsVal)) :=
  let schema :=
    [ ("@context", JStr "https://schema.org");
      ("@type", JStr mainSchema);
      ("name", JStr (title analysisResult));
      ("url", JStr (url analysisResult)) ] in
  let schema := add_description schema in
  exn_bind (add_images schema) (fun schema =>
  let schema := obj_assign schema customProperties in
  exn_fold nested_step nestedSchemas schema).

Definition generateSchemaMarkup (mainSchema : string)
  (nestedSchemas : list NestedSchema) (customProperties : list (string * JsVal))
  : Exn JsVal :=
  exn_bind (build_schema mainSchema nestedSchemas customProperties)
    (fun schema => Ok (JObj (collapse schema))).

End Synthesizer.

(** A resolver for the URLs of the examples: a reference with a scheme
    stands for itself, a path that starts with [/] replaces the path of the
    base, any other reference replaces the last segment of the path of the
    base; a base without [://] is refused.  It agrees with [new URL] on
    references that need no normalisation. *)
Module SampleURL.

Definition is_alpha (c : ascii) : bool :=
  let n := nat_of_ascii (Js.lower c) in (97 <=? n)%nat && (n <=? 122)%nat.

Definition is_scheme_char (c : ascii) : bool :=
  let n := nat_of_ascii c in
  is_alpha c || ((48 <=? n)%nat && (n <=? 57)%nat) ||
  Ascii.eqb c "+" || Ascii.eqb c "-" || Ascii.eqb c ".".

Fixpoint scheme_rest (s : string) : bool :=
  match s with
  | EmptyString => false
  | String c s' => if Ascii.eqb c ":" then true
                   else if is_scheme_char c then scheme_rest s' else false
  end.

(** A letter, then letters, digits, [+], [-] or [.], then a colon. *)
Definition has_scheme (s : string) : bool :=
  match s with
  | String c s' => is_alpha c && scheme_rest s'
  | EmptyString => false
  end.

(** [upto_slash s] is the prefix of [s] before its first [/]. *)
Fixpoint upto_slash (s : string) : string :=
  match s with
  | EmptyString => EmptyString
  | String c s' => if Ascii.eqb c "/" then EmptyString else String c (upto_slash s')
  end.

(** The scheme, [://] and the authority of a base. *)
Fixpoint origin (s : string) : option string :=
  match s with
  | EmptyString => None
  | String c s' =>
      if String.prefix "://" s then
        Some ("://" +:+ upto_slash (String.substring 3 (String.length s) s))
      else option_map (String c) (origin s')
  end.

(** The base without the last segment of its path; the slash stays. *)
Fixpoint directory (s : string) : string :=
  match s with
  | EmptyString => EmptyString
  | String c s' =>
      if Js.includes s' "/" then String c (directory s')
      else if Ascii.eqb c "/" then "/" else EmptyString
  end.

Definition href (rel base : string) : Exn string :=
  if has_scheme rel then Ok rel
  else match origin base with
       | None => Throw
       | Some o =>
           if Js.startsWith rel "/" then Ok (o +:+ rel)
           else
             let path := String.substring (String.length o)
                           (String.length base) base in
             Ok (o +:+ (if Js.truthy path then directory path else "/") +:+ rel)
       end.

End SampleURL.

(** ** [generateSchemaMarkup] of [index.ts], on a store

    Objects and arrays live in a store and are passed by reference, so
    that an assignment or a [push] is seen through every reference to the
    object.  [nestedSchemas] has the declared type
    [Array<{type: string; context: string; properties: any}>];
    [analysisResult] and [customProperties] are [any].  Where the source
    expects the array [scrapedData.images] and the value is no array the
    model throws.  A key [__proto__] of [customProperties], which would
    replace the prototype of the document, is outside the model. *)

Module Store.

Abbreviation loc := nat.

Inductive Val : Type :=
| VUndef
| VNull
| VBool (b : bool)
| VNum (n : Z)
| VStr (s : string)
| VRef (l : loc)
| VBuiltin.          (* a member of [Object.prototype] *)

Inductive Cell : Type :=
| CObj (props : list (string * Val))
| CArr (items : list Val).

Abbreviation Heap := (list Cell).

Definition truthy (v : Val) : bool :=
  match v with
  | VUndef | VNull => false
  | VBool b => b
  | VNum n => negb (n =? 0)%Z
  | VStr s => Js.truthy s
  | VRef _ => true
  | VBuiltin => true
  end.

(** A computation reads and writes the store and returns or throws; the
    writes made before an exception stay. *)
Definition M (A : Type) : Type := Heap -> Heap * Exn A.

Definition ret {A} (a : A) : M A := fun h => (h, Ok a).
Definition throw {A} : M A := fun h => (h, Throw).
Definition bind {A B} (m : M A) (f : A -> M B) : M B :=
  fun h =>
    match m h with
    | (h', Ok a) => f a h'
    | (h', Throw) => (h', Throw)
    end.

Notation "x <- m ;; k" := (bind m (fun x => k))
  (at level 100, m at next level, right associativity).
Notation "m ;;; k" := (bind m (fun _ => k))
  (at level 100, right associativity).

Fixpoint forM_ {A} (l : list A) (f : A -> M unit) : M unit :=
  match l with
  | [] => ret tt
  | x :: l' => f x ;;; forM_ l' f
  end.

Fixpoint mapM {A B} (f : A -> M B) (l : list A) : M (list B) :=
  match l with
  | [] => ret []
  | x :: l' => y <- f x ;; ys <- mapM f l' ;; ret (y :: ys)
  end.

Fixpoint filterM {A} (f : A -> M bool) (l : list A) : M (list A) :=
  match l with
  | [] => ret []
  | x :: l' => b <- f x ;; xs <- filterM f l' ;; ret (if b then x :: xs else xs)
  end.

(** A new object or array. *)
Definition alloc (c : Cell) : M loc := fun h => (h ++ [c], Ok (length h)).

(** [v[k]] for a property name [k]; of an array only [length] is read. *)
Definition get_prop (v : Val) (k : string) : M Val := fun h =>
  match v with
  | VUndef | VNull => (h, Throw)
  | VRef l =>
      match h !! l with
      | Some (CObj props) =>
          (h, Ok (match obj_get k props with
                  | Some x => x
                  | None => if inherited k then VBuiltin else VUndef
                  end))
      | Some (CArr items) =>
          (h, Ok (if String.eqb k "length" then VNum (Z.of_nat (length items))
                  else VUndef))
      | None => (h, Throw)
      end
  | VStr s =>
      (h, Ok (if String.eqb k "length" then VNum (Z.of_nat (String.length s))
              else VUndef))
  | _ => (h, Ok VUndef)
  end.

(** [o[k] = v] on the object at [l]. *)
Definition set_prop (l : loc) (k : string) (v : Val) : M unit := fun h =>
  match h !! l with
  | Some (CObj props) => (<[l := CObj (obj_set k v props)]> h, Ok tt)
  | _ => (h, Throw)
  end.

(** The elements of an array; a value that is no array has none of the
    array methods. *)
Definition array_items (v : Val) : M (list Val) := fun h =>
  match v with
  | VRef l =>
      match h !! l with
      | Some (CArr items) => (h, Ok items)
      | _ => (h, Throw)
      end
  | _ => (h, Throw)
  end.

(** [v.push(x)]: a [TypeError] when [v] is no array. *)
Definition push (v x : Val) : M unit := fun h =>
  match v with
  | VRef l =>
      match h !! l with
      | Some (CArr items) => (<[l := CArr (items ++ [x])]> h, Ok tt)
      | _ => (h, Throw)
      end
  | _ => (h, Throw)
  end.

Fixpoint chars (s : string) : list Val :=
  match s with
  | EmptyString => []
  | String c s' => VStr (String c EmptyString) :: chars s'
  end.

Definition indexed (items : list Val) : list (string * Val) :=
  imap (fun i x => (pretty i, x)) items.

(** The own enumerable properties that [Object.assign], a spread and
    [Object.keys] go through. *)
Definition own_props (v : Val) : M (list (string * Val)) := fun h =>
  match v with
  | VRef l =>
      match h !! l with
      | Some (CObj props) => (h, Ok props)
      | Some (CArr items) => (h, Ok (indexed items))
      | None => (h, Throw)
      end
  | VStr s => (h, Ok (indexed (chars s)))
  | _ => (h, Ok [])
  end.

(** An entry of [nestedSchemas]; [properties] is a reference. *)
Record Nested : Type := {
  type : string;
  context : string;
  properties : Val
}.

Section Synthesizer.

Variable URL_href : string -> string -> Exn string.

(** [new URL(s, base).href] where [base] was read from the store. *)
Definition url_href (s : string) (base : Val) : M string := fun h =>
  match base with
  | VStr b => (h, URL_href s b)
  | _ => (h, Throw)
  end.

Variable analysisResult : Val.

(** The callback of [images.map]. *)
Definition image_object (img : Val) : M Val :=
  src <- get_prop img "src" ;;
  u <- match src with
       | VStr s =>
           if Js.startsWith s "http" then ret (VStr s)
           else base <- get_prop analysisResult "url" ;;
                href <- url_href s base ;;
                ret (VStr href)
       | _ => throw
       end ;;
  alt <- get_prop img "alt" ;;
  title <- get_prop analysisResult "title" ;;
  o <- alloc (CObj [ ("@type", VStr "ImageObject");
                     ("url", u);
                     ("alt", if truthy alt then alt else title) ]) ;;
  ret (VRef o).

Definition absolutize_step (nestedSchema : loc) (key : string) : M unit :=
  v <- get_prop (VRef nestedSchema) key ;;
  match v with
  | VStr s =>
      if Js.startsWith s "/" then
        base <- get_prop analysisResult "url" ;;
        href <- url_href s base ;;
        set_prop nestedSchema key (VStr href)
      else ret tt
  | _ => ret tt
  end.

(** The callback of [nestedSchemas.forEach]. *)
Definition nested_step (schema : loc) (nested : Nested) : M unit :=
  cur <- get_prop (VRef schema) (context nested) ;;
  (if negb (truthy cur) then
     a <- alloc (CArr []) ;;
     set_prop schema (context nested) (VRef a)
   else ret tt) ;;;
  props <- own_props (properties nested) ;;
  nestedSchema <- alloc (CObj (obj_assign [("@type", VStr (type nested))] props)) ;;
  keys <- own_props (VRef nestedSchema) ;;
  forM_ (obj_keys keys) (absolutize_step nestedSchema) ;;;
  target <- get_prop (VRef schema) (context nested) ;;
  push target (VRef nestedSchema).

(** The callback of the last loop. *)
Definition collapse_step (schema : loc) (key : string) : M unit :=
  v <- get_prop (VRef schema) key ;;
  match v with
  | VRef a => fun h =>
      match h !! a with
      | Some (CArr [x]) => set_prop schema key x h
      | _ => (h, Ok tt)
      end
  | _ => ret tt
  end.

Definition generateSchemaMarkup (mainSchema : string)
  (nestedSchemas : list Nested) (customProperties : Val) : M Val :=
  title <- get_prop analysisResult "title" ;;
  u <- get_prop analysisResult "url" ;;
  schema <- alloc (CObj [ ("@context", VStr "https://schema.org");
                          ("@type", VStr mainSchema);
                          ("name", title);
                          ("url", u) ]) ;;
  description <- get_prop analysisResult "description" ;;
  (if truthy description then set_prop schema "description" description
   else ret tt) ;;;
  scrapedData <- get_prop analysisResult "scrapedData" ;;
  images <- get_prop scrapedData "images" ;;
  items <- array_items images ;;
  (if (0 <? length items)%nat then
     filtered <- filterM (fun img => src <- get_prop img "src" ;; ret (truthy src))
                   items ;;
     image <- mapM image_object filtered ;;
     arr <- alloc (CArr image) ;;
     set_prop schema "image" (VRef arr)
   else ret tt) ;;;
  props <- own_props customProperties ;;
  forM_ props (fun kv => set_prop schema (fst kv) (snd kv)) ;;;
  forM_ nestedSchemas (nested_step schema) ;;;
  keys <- own_props (VRef schema) ;;
  forM_ (obj_keys keys) (collapse_step schema) ;;;
  ret (VRef schema).

End Synthesizer.

(** *** Values put into the store

    A decoded request and a validated analysis result are trees: every
    object and array of them is a cell of its own. *)

Fixpoint load (v : JsVal) : M Val :=
  match v with
  | JNull => ret VNull
  | JBool b => ret (VBool b)
  | JNum n => ret (VNum n)
  | JStr s => ret (VStr s)
  | JArr items =>
      vs <- (fix load_items (l : list JsVal) : M (list Val) :=
               match l with
               | [] => ret []
               | x :: l' => y <- load x ;; ys <- load_items l' ;; ret (y :: ys)
               end) items ;;
      a <- alloc (CArr vs) ;;
      ret (VRef a)
  | JObj props =>
      ps <- (fix load_props (l : list (string * JsVal)) : M (list (string * Val)) :=
               match l with
               | [] => ret []
               | kv :: l' =>
                   y <- load (snd kv) ;; ys <- load_props l' ;; ret ((fst kv, y) :: ys)
               end) props ;;
      o <- alloc (CObj ps) ;;
      ret (VRef o)
  end.

Definition opt_prop (k : string) (v : option string) : list (string * Val) :=
  match v with
  | Some s => [(k, VStr s)]
  | None => []
  end.

Definition load_image (img : Image) : M Val :=
  o <- alloc (CObj ([("src", VStr (img_src img))] ++ opt_prop "alt" (img_alt img))) ;;
  ret (VRef o).

(** The fields of the analysis result that [generateSchemaMarkup] reads. *)
Definition load_analysis (r : AnalysisResult) : M Val :=
  imgs <- mapM load_image (images (scrapedData r)) ;;
  arr <- alloc (CArr imgs) ;;
  sd <- alloc (CObj [("images", VRef arr)]) ;;
  o <- alloc (CObj ([("url", VStr (url r)); ("title", VStr (title r))]
                    ++ opt_prop "description" (description r)
                    ++ [("scrapedData", VRef sd)])) ;;
  ret (VRef o).

Definition load_nested (n : NestedSchema) : M Nested :=
  p <- load (JObj (ns_properties n)) ;;
  ret {| type := ns_type n; context := ns_context n; properties := p |}.

(** *** Assertions on store computations *)

(** The store is as it was at every cell of [h0] outside [W]. *)
Definition frame (h0 : Heap) (W : loc -> Prop) (h : Heap) : Prop :=
  length h0 <= length h /\
  forall l, l < length h0 -> ~ W l -> h !! l = h0 !! l.

(** From a store that satisfies [P] the computation returns a value and
    a store that satisfy [Q], or throws and leaves a store that
    satisfies [E]. *)
Definition hoare {A} (E P : Heap -> Prop) (m : M A) (Q : A -> Heap -> Prop) : Prop :=
  forall h, P h ->
    match m h with
    | (h', Ok a) => Q a h'
    | (h', Throw) => E h'
    end.

Definition readonly {A} (m : M A) : Prop := forall h, fst (m h) = h.

(** A reference of a value points into the store. *)
Definition valid (h : Heap) (v : Val) : Prop :=
  match v with
  | VRef l => l < length h
  | _ => True
  end.

(** The values that the synthesis copies into the document by
    reference: the properties of [customProperties] and the fields
    [title], [url] and [description] of the analysis result. *)
Definition exposed (h : Heap) (analysisResult customProperties : Val) : list Val :=
  match own_props customProperties h with
  | (_, Ok props) => map snd props
  | _ => []
  end ++
  flat_map (fun k => match get_prop analysisResult k h with
                     | (_, Ok v) => [v]
                     | _ => []
                     end) ["title"; "url"; "description"].

(** A value that the document may hold: a reference in it is new or is
    in [W]. *)
Definition okval (h0 : Heap) (W : loc -> Prop) (v : Val) : Prop :=
  match v with
  | VRef t => length h0 <= t \/ W t
  | _ => True
  end.

(** The document at [s] is a new object whose values are [okval]. *)
Definition schema_ok (h0 : Heap) (W : loc -> Prop) (s : loc) (h : Heap) : Prop :=
  length h0 <= s /\
  exists props,
    h !! s = Some (CObj props) /\ Forall (fun kv => okval h0 W (snd kv)) props.

(** The invariant of the synthesis: the cells outside [Wf] are as in
    [h0] and the document refers to new cells and to cells of [W]. *)
Definition inv (h0 : Heap) (Wf W : loc -> Prop) (s : loc) (h : Heap) : Prop :=
  frame h0 Wf h /\ schema_ok h0 W s h.

(** A reference of [v] points to a cell from [n] on. *)
Definition above (n : nat) (v : Val) : Prop :=
  match v with
  | VRef t => n <= t
  | _ => True
  end.

(** The computation returns and only adds cells at the end of the
    store. *)
Definition appends {A} (m : M A) : Prop :=
  forall h, exists ext a, m h = (h ++ ext, Ok a).

(** No cell. *)
Definition nowhere : loc -> Prop := fun _ => False.

(** The cells that the synthesis may write: those that a value of
    [exposed] refers to. *)
Definition written (h : Heap) (analysisResult customProperties : Val) (l : loc)
  : Prop :=
  In (VRef l) (exposed h analysisResult customProperties).

(** The value that a store holds behind [v], as a tree; [fuel] bounds
    the depth. *)
Fixpoint read (fuel : nat) (h : Heap) (v : Val) : option JsVal :=
  match fuel with
  | O => None
  | S fuel' =>
      match v with
      | VNull => Some JNull
      | VBool b => Some (JBool b)
      | VNum n => Some (JNum n)
      | VStr s => Some (JStr s)
      | VRef l =>
          match h !! l with
          | Some (CArr items) =>
              option_map JArr
                ((fix read_items (l : list Val) : option (list JsVal) :=
                    match l with
                    | [] => Some []
                    | x :: l' =>
                        match read fuel' h x, read_items l' with
                        | Some y, Some ys => Some (y :: ys)
                        | _, _ => None
                        end
                    end) items)
          | Some (CObj props) =>
              option_map JObj
                ((fix read_props (l : list (string * Val))
                    : option (list (string * JsVal)) :=
                    match l with
                    | [] => Some []
                    | kv :: l' =>
                        match read fuel' h (snd kv), read_props l' with
                        | Some y, Some ys => Some ((fst kv, y) :: ys)
                        | _, _ => None
                        end
                    end) props)
          | None => None
          end
      | VUndef => None
      | VBuiltin => None
      end
  end.

(** The synthesis on a store, from trees to a tree: the arguments are
    put into an empty store and the document is read back. *)
Definition synthesize (URL_href : string -> string -> Exn string)
  (r : AnalysisResult) (mainSchema : string) (nestedSchemas : list NestedSchema)
  (customProperties : list (string * JsVal)) : Exn (option JsVal) :=
  match (a <- load_analysis r ;;
         ns <- mapM load_nested nestedSchemas ;;
         c <- load (JObj customProperties) ;;
         generateSchemaMarkup URL_href a mainSchema ns c) [] with
  | (h, Ok v) => Ok (read 16 h v)
  | (_, Throw) => Throw
  end.

End Store.

(** ** Definitions used to state the properties *)

(** The label of the first, and of the last, rule that holds. *)
Fixpoint first_hit (rs : list (bool * string)) : option string :=
  match rs with
  | [] => None
  | (true, l) :: _ => Some l
  | (false, _) :: rs' => first_hit rs'
  end.

Definition last_hit (rs : list (bool * string)) : option string :=
  first_hit (rev rs).

Definition framework_rules (d : Document) : list (bool * string) :=
  [ (is_react d, "React"); (is_vue d, "Vue.js"); (is_angular d, "Angular") ].

Definition cms_rules (d : Document) : list (bool * string) :=
  [ (generator_includes d "WordPress", "WordPress");
    (generator_includes d "Drupal", "Drupal");
    (generator_includes d "Joomla", "Joomla") ].

(** The labels that one [script] element adds to [analytics]. *)
Definition analytics_labels (el : Node) : list string :=
  analytics_step [] el.

(** The tokens of the [class] attributes in document order, as the
    extractor cuts them: split at the space character, trimmed, the empty
    ones dropped. *)
Definition class_tokens_of (el : Node) : list string :=
  match Js.or_undefined (attr "class" el) with
  | Some className =>
      List.filter Js.truthy (map Js.trim (Js.split_char " " className))
  | None => []
  end.

Definition class_tokens (d : Document) : list string :=
  flat_map class_tokens_of (all_elements d).

(** Adding a string to an array that does not hold it yet. *)
Definition add_new (acc : list string) (x : string) : list string :=
  if Js.arr_includes acc x then acc else acc ++ [x].

(** The first occurrence of every string, in the order of the list. *)
Fixpoint first_seen (l : list string) : list string :=
  match l with
  | [] => []
  | x :: r => x :: List.filter (fun y => negb (String.eqb x y)) (first_seen r)
  end.

(** The values of the blocks that parse, in the order of the blocks. *)
Definition parsed_blocks (JSON_parse : string -> Exn JsVal) (els : list Node)
  : list JsVal :=
  flat_map (fun el => match JSON_parse (html el) with
                      | Ok v => [v]
                      | Throw => []
                      end) els.

(** The values that the loop over the blocks adds: a block without
    content is not parsed. *)
Definition kept_blocks (JSON_parse : string -> Exn JsVal) (els : list Node)
  : list JsVal :=
  flat_map (fun el => if Js.truthy (html el)
                      then match JSON_parse (html el) with
                           | Ok v => [v]
                           | Throw => []
                           end
                      else []) els.

Definition with_structuredData (v : list JsVal) (s : ScrapedData) : ScrapedData := {|
  sd_html := sd_html s;
  sd_title := sd_title s;
  sd_description := sd_description s;
  metaTags := metaTags s;
  allClasses := allClasses s;
  allIds := allIds s;
  allTextContent := allTextContent s;
  images := images s;
  videos := videos s;
  links := links s;
  forms := forms s;
  scripts := scripts s;
  stylesheets := stylesheets s;
  structuredData := v;
  socialMediaLinks := socialMediaLinks s;
  paymentIndicators := paymentIndicators s;
  ecommerceIndicators := ecommerceIndicators s;
  contentIndicators := contentIndicators s
|}.

(** The fields that the synthesis sets before it merges
    [customProperties]. *)
Definition base_keys : list string :=
  ["@context"; "@type"; "name"; "url"; "description"; "image"].

(** [Array.isArray(v)] *)
Definition is_array (v : JsVal) : Prop :=
  match v with
  | JArr _ => True
  | _ => False
  end.

(** What the last loop of the synthesis does to one field. *)
Definition collapsed (v : JsVal) : JsVal :=
  match v with
  | JArr [x] => x
  | _ => v
  end.

(** A parser for the JSON texts of the examples. *)
Module SampleJSON.

Definition parse (s : string) : Exn JsVal :=
  if String.eqb s "{}" then Ok (JObj [])
  else if String.eqb s "[]" then Ok (JArr [])
  else if String.eqb s "null" then Ok JNull
  else if String.eqb s "true" then Ok (JBool true)
  else if String.eqb s "false" then Ok (JBool false)
  else Throw.

End SampleJSON.

(** Pages of the examples. *)
Module Pages.

Definition el (t : string) (attribs : list (string * string)) (cs : list Node) : Node :=
  Element t attribs cs.

Definition page (head body : list Node) : Document :=
  [el "html" [] [el "head" [] head; el "body" [] body]].

(** React and Vue on one page. *)
Definition react_and_vue : Document :=
  page [el "script" [("src", "/js/react.min.js")] [];
        el "script" [("src", "/js/vue.min.js")] []] [].

Definition wordpress_and_drupal : Document :=
  page [el "meta" [("name", "generator"); ("content", "WordPress to Drupal bridge")] []] [].

(** A form, a class [add-to-cart] and a link to [checkout.stripe.com]. *)
Definition stripe_link : Document :=
  page []
    [el "form" [] [el "div" [("class", "add-to-cart")] []];
     el "a" [("href", "https://checkout.stripe.com/pay")] [Text "Pay"]].

Definition stripe_class : Document :=
  page []
    [el "form" [] [el "div" [("class", "stripe-button")] [Text "Shop now"]]].

Definition two_gtag_scripts : Document :=
  page [el "script" [] [Text "gtag('config', 'G-1');"];
        el "script" [] [Text "gtag('event', 'view');"]] [].

Definition stripe_twice : Document :=
  page [] [el "img" [("src", "/img/stripe.png"); ("class", "stripe-logo")] []].

Definition classes_twice : Document :=
  page [] [el "div" [("class", "a b a")] []; el "p" [("class", "b c")] []].

Definition topic_list : Document :=
  page [] [el "ul" [("class", "topic-list")] []].

Definition shop_and_blog : Document :=
  page [] [el "article" [("class", "product")] []].

Definition ld_json_blocks : Document :=
  page [el "script" [("type", "application/ld+json")] [Text "{}"];
        el "script" [("type", "application/ld+json")] [Text "{oops"];
        el "script" [("type", "application/ld+json")] [Text "[]"]] [].

(** The type of a block in other cases of the letters. *)
Definition ld_json_upper_case : Document :=
  page [el "script" [("type", "Application/LD+JSON")] [Text "{}"];
        el "script" [("type", "text/javascript")] [Text "null"];
        el "script" [("type", "APPLICATION/LD+JSON")] [Text "[]"]] [].

End Pages.

(** Analysis results of the examples. *)
Module Samples.

Definition snapshot (imgs : list Image) : ScrapedData := {|
  sd_html := "";
  sd_title := "Shop";
  sd_description := None;
  metaTags := [];
  allClasses := [];
  allIds := [];
  allTextContent := "";
  images := imgs;
  videos := [];
  links := [];
  forms := [];
  scripts := [];
  stylesheets := [];
  structuredData := [];
  socialMediaLinks := [];
  paymentIndicators := [];
  ecommerceIndicators := [];
  contentIndicators := []
|}.

(** The result of an analysis of [https://x.test/page]. *)
Definition result (imgs : list Image) : AnalysisResult := {|
  url := "https://x.test/page";
  title := "Shop";
  description := Some "";
  websiteType := unknown;
  detectedElements := detectElements [];
  technicalDetails := detectTechnicalDetails [];
  scrapedData := snapshot imgs
|}.

Definition image (src : string) : Image := {|
  img_src := src;
  img_alt := None;
  img_width := None;
  img_height := None
|}.

Definition offer : NestedSchema := {|
  ns_type := "Offer";
  ns_context := "offers";
  ns_properties := [("price", JStr "10")]
|}.

End Samples.

(** ** [WebsiteAnalyzer.analyzeWebsite] with the browser

    The calls to the browser are recorded in a log; whether a call
    throws and what [page.content()] returns is up to the environment,
    which sees the log.  A page is named by the position of its
    [newPage] call in the log. *)
Module Session.

Inductive Call : Type :=
| Launch
| NewPage
| SetUserAgent (page : nat)
| SetViewport (page : nat)
| Goto (page : nat) (url : string)
| Content (page : nat)
| ClosePage (page : nat)
| CloseBrowser.

(** The analyzer: whether [this.browser] is set, and the calls made so
    far. *)
Record Analyzer : Type := {
  browser : bool;
  log : list Call
}.

Definition M (A : Type) : Type := Analyzer -> Analyzer * Exn A.

Definition bind {A B} (m : M A) (f : A -> M B) : M B :=
  fun a =>
    match m a with
    | (a', Ok x) => f x a'
    | (a', Throw) => (a', Throw)
    end.

(** [try { body } finally { fin }]: [fin] runs on both paths, and an
    exception of [fin] replaces the outcome of [body]. *)
Definition try_finally {A} (body : M A) (fin : M unit) : M A :=
  fun a =>
    match body a with
    | (a1, res) =>
        match fin a1 with
        | (a2, Ok _) => (a2, res)
        | (a2, Throw) => (a2, Throw)
        end
    end.

Section Environment.

Variable fails : list Call -> Call -> bool.
Variable content : list Call -> string.
Variable cheerio_load : string -> Document.
Variable JSON_parse : string -> Exn JsVal.

(** An awaited call to the browser. *)
Definition call (c : Call) : M unit :=
  fun a =>
    ({| browser := browser a; log := log a ++ [c] |},
     if fails (log a) c then Throw else Ok tt).

Definition set_browser (b : bool) : M unit :=
  fun a => ({| browser := b; log := log a |}, Ok tt).

Definition initialize : M unit :=
  bind (call Launch) (fun _ => set_browser true).

Definition analyzeWebsite (url : string) : M AnalysisResult :=
  fun a =>
    if negb (browser a) then (a, Throw)
    else
      let page := length (log a) in
      bind (call NewPage) (fun _ =>
        try_finally
          (bind (call (SetUserAgent page)) (fun _ =>
           bind (call (SetViewport page)) (fun _ =>
           bind (call (Goto page url)) (fun _ =>
           bind (call (Content page)) (fun _ a' =>
             let html := content (log a') in
             (a', analyzeWebsite JSON_parse (cheerio_load html) html url))))))
          (call (ClosePage page))) a.

Definition close : M unit :=
  fun a =>
    if browser a then bind (call CloseBrowser) (fun _ => set_browser false) a
    else (a, Ok tt).

End Environment.

(** The calls of one analysis of [url] on the page [p]. *)
Definition page_calls (p : nat) (url : string) : list Call :=
  [SetUserAgent p; SetViewport p; Goto p url; Content p].

(** None of the calls of an analysis of [url] throws. *)
Definition calls_return (fails : list Call -> Call -> bool) (url : string)
  (a : Analyzer) : bool :=
  let l := log a in
  let p := length l in
  negb (fails l NewPage) &&
  negb (fails (l ++ [NewPage]) (SetUserAgent p)) &&
  negb (fails (l ++ [NewPage; SetUserAgent p]) (SetViewport p)) &&
  negb (fails (l ++ [NewPage; SetUserAgent p; SetViewport p]) (Goto p url)) &&
  negb (fails (l ++ [NewPage; SetUserAgent p; SetViewport p; Goto p url]) (Content p)) &&
  negb (fails (l ++ NewPage :: page_calls p url) (ClosePage p)).

(** The content that the page of an analysis of [url] gives. *)
Definition page_content (content : list Call -> string) (url : string)
  (a : Analyzer) : string :=
  content (log a ++ NewPage :: page_calls (length (log a)) url).

End Session.

(** ** Definitions used to state further properties *)

(** The snapshot that [collectScrapedData] returns. *)
Definition scraped (JSON_parse : string -> Exn JsVal) (d : Document) (html : string)
  : ScrapedData := {|
  sd_html := html;
  sd_title := collect_title d;
  sd_description := collect_description d;
  metaTags := fold_left metaTags_step (select d (tag "meta")) [];
  allClasses := fst (collect_classes_ids d);
  allIds := snd (collect_classes_ids d);
  allTextContent := collect_allTextContent d;
  images := map collect_image (select d (tag "img"));
  videos :=
    map collect_video
      (select d [[STag "video"]; [STag "iframe"; SAttrSub "src" "youtube"];
                 [STag "iframe"; SAttrSub "src" "vimeo"]]);
  links := collect_links d;
  forms := map collect_form (select d (tag "form"));
  scripts := map collect_script (select d (tag "script"));
  stylesheets :=
    List.filter Js.truthy
      (map (fun el => Js.or_empty (attr "href" el))
         (select d (tag_attr_eq "link" "rel" "stylesheet")));
  structuredData :=
    kept_blocks JSON_parse
      (select d (tag_attr_eq "script" "type" "application/ld+json"));
  socialMediaLinks := map link_href (List.filter is_social (collect_links d));
  paymentIndicators := indicators is_payment_word (collect_allTextContent d);
  ecommerceIndicators := indicators is_ecommerce_word (collect_allTextContent d);
  contentIndicators := indicators is_content_word (collect_allTextContent d)
|}.

(** The non-empty [id] attributes in document order. *)
Definition element_ids (d : Document) : list string :=
  flat_map (fun el => match Js.or_undefined (attr "id" el) with
                      | Some id => [id]
                      | None => []
                      end) (all_elements d).

(** [s] holds only characters that satisfy [p]. *)
Definition all_chars (p : ascii -> bool) (s : string) : bool :=
  forallb p (list_ascii_of_string s).

Definition no_space (s : string) : bool :=
  all_chars (fun c => negb (Js.is_space c)) s.

(** The first and the last character of [s] are no white space. *)
Definition starts_with_space (s : string) : bool :=
  match s with
  | String c _ => Js.is_space c
  | EmptyString => false
  end.

Fixpoint ends_with_space (s : string) : bool :=
  match s with
  | EmptyString => false
  | String c EmptyString => Js.is_space c
  | String _ s' => ends_with_space s'
  end.

(** The keywords of [ecommerceIndicators] that hold no space. *)
Definition is_ecommerce_word_single (word : string) : bool :=
  Js.includes word "product" || Js.includes word "price" ||
  Js.includes word "sale" || Js.includes word "discount" ||
  Js.includes word "shipping" || Js.includes word "inventory" ||
  Js.includes word "stock" || Js.includes word "shop".

(** The class tokens as the specification words them: the attribute
    split at white space, the empty pieces left out. *)
Definition whitespace_tokens_of (el : Node) : list string :=
  match Js.or_undefined (attr "class" el) with
  | Some className => List.filter Js.truthy (Js.split_ws className)
  | None => []
  end.

Definition whitespace_tokens (d : Document) : list string :=
  flat_map whitespace_tokens_of (all_elements d).

(** The only white space of [s] is the space character. *)
Definition space_separated (s : string) : bool :=
  all_chars (fun c => negb (Js.is_space c) || Ascii.eqb c " ") s.

(** The rules of [determineWebsiteType] with the tests [.c] that stand
    beside a test [[class*="c"]] left out. *)
Definition class_contains (d : Document) (c : string) : bool :=
  found d (attr_sub "class" c).

Definition rules_by_substring (d : Document) (e : DetectedElements)
  (t : TechnicalDetails) (u : string) : list (bool * WebsiteType) :=
  [ (hasShoppingCart e || (0 <? length (paymentMethods t))%nat ||
     class_contains d "product" || class_contains d "price", ecommerce);
    (found d (tag "article") || class_contains d "post" || class_contains d "blog", blog);
    (class_contains d "news" || class_contains d "article" ||
     class_contains d "headline", news);
    (class_contains d "portfolio" || class_contains d "gallery" ||
     class_contains d "work", portfolio);
    (hasUserAuth e && hasComments e && (hasVideo e || hasImages e) &&
     (0 <? length (socialMedia t))%nat, social_media);
    (class_contains d "thread" || class_contains d "topic", forum);
    (found d (cls "documentation") || class_contains d "docs" ||
     class_contains d "tutorial" || class_contains d "guide", documentation);
    (hasUserAuth e && hasForms e &&
     (class_contains d "dashboard" || class_contains d "app"), saas);
    (class_contains d "course" || class_contains d "lesson" ||
     class_contains d "education", educational);
    (hasVideo e && (class_contains d "entertainment" || class_contains d "media"),
     entertainment);
    (class_contains d "gov" || Js.includes u ".gov", government);
    (class_contains d "nonprofit" || class_contains d "charity" ||
     class_contains d "donate", nonprofit);
    (class_contains d "landing" || class_contains d "hero", landing_page);
    (hasNavigation e && hasFooter e &&
     (class_contains d "about" || class_contains d "contact"), corporate) ].

(** The name and the content that a [meta] element gives to [metaTags]. *)
Definition meta_pair (el : Node) : option (string * string) :=
  match Js.or_undefined
          (Js.or_else (attr "name" el)
             (Js.or_else (attr "property" el) (attr "http-equiv" el))),
        Js.or_undefined (attr "content" el) with
  | Some name, Some content => Some (name, content)
  | _, _ => None
  end.

Definition meta_pairs (d : Document) : list (string * string) :=
  flat_map (fun el => match meta_pair el with Some p => [p] | None => [] end)
    (select d (tag "meta")).

(** The object that [nested_step] builds from a nested schema and adds to
    the field of its context. *)
Definition nested_object (URL_href : string -> string -> Exn string)
  (r : AnalysisResult) (n : NestedSchema) : Exn (list (string * JsVal)) :=
  exn_fold (absolutize_step URL_href r)
    (obj_keys (obj_assign [("@type", JStr (ns_type n))] (ns_properties n)))
    (obj_assign [("@type", JStr (ns_type n))] (ns_properties n)).

(** The items of a field that holds a list; any other field has none. *)
Definition items_of (v : option JsVal) : list JsVal :=
  match v with
  | Some (JArr items) => items
  | _ => []
  end.

(** The document before [customProperties] is merged. *)
Definition base_schema (URL_href : string -> string -> Exn string)
  (r : AnalysisResult) (mainSchema : string) : Exn (list (string * JsVal)) :=
  add_images URL_href r
    (add_description r
       [ ("@context", JStr "https://schema.org"); ("@type", JStr mainSchema);
         ("name", JStr (title r)); ("url", JStr (url r)) ]).

(** A field on which [push] fails: it holds a truthy value that is no
    list, or the object has no such field and inherits a member of that
    name. *)
Definition refuses_push (field : option JsVal) (name : string) : Prop :=
  match field with
  | Some v => truthy (Some v) = true /\ ~ is_array v
  | None => inherited name = true
  end.

(** What [nested_step] does to a string property of a nested object. *)
Definition absolutized (URL_href : string -> string -> Exn string)
  (r : AnalysisResult) (before after : option JsVal) : Prop :=
  match before with
  | Some (JStr s) =>
      if Js.startsWith s "/"
      then exists href, URL_href s (url r) = Ok href /\ after = Some (JStr href)
      else after = before
  | _ => after = before
  end.

(** A page without its text: the text nodes and the comments are left
    out, the elements and their attributes stay. *)
Fixpoint strip_text (n : Node) : list Node :=
  match n with
  | Element t a cs => [Element t a (flat_map strip_text cs)]
  | _ => []
  end.

Definition without_text (n : Node) : Node :=
  match n with
  | Element t a cs => Element t a (flat_map strip_text cs)
  | _ => n
  end.

(** The field [k] of the document when the loop over the nested schemas
    starts: the property of [customProperties], or else the field that
    the synthesis has set; of the list of images only that it is a list
    matters here. *)
Definition field_before_nested (r : AnalysisResult) (mainSchema : string)
  (customProperties : list (string * JsVal)) (k : string) : option JsVal :=
  match obj_get k (rev customProperties) with
  | Some v => Some v
  | None =>
      if String.eqb k "image" then
        match images (scrapedData r) with
        | [] => None
        | _ => Some (JArr [])
        end
      else
        obj_get k
          (add_description r
             [ ("@context", JStr "https://schema.org"); ("@type", JStr mainSchema);
               ("name", JStr (title r)); ("url", JStr (url r)) ])
  end.

(** The images whose address is resolved. *)
Definition needs_base (img : Image) : bool :=
  Js.truthy (img_src img) && negb (Js.startsWith (img_src img) "http").

(** ** [AnalysisResultSchema.parse] of [types.ts]

    A result of [analyzeWebsite] has the fields and the types that the
    schema asks for but for the width and the height of an image:
    [z.number()] refuses [NaN], which [parseInt] gives for an attribute
    that does not start with a number.  The validated result has the
    fields of the result.  The integers of the model are exact: a number
    is the number of the source up to [2^53], and what the schema says
    of a greater one is not modelled. *)

Definition valid_dimension (n : option Num) : bool :=
  match n with
  | Some NaN => false
  | _ => true
  end.

Definition valid_image (img : Image) : bool :=
  valid_dimension (img_width img) && valid_dimension (img_height img).

Definition AnalysisResultSchema_parse (result : AnalysisResult) : Exn AnalysisResult :=
  if forallb valid_image (images (scrapedData result)) then Ok result else Throw.

(** ** The tool [generate_schema_markup] of [index.ts]

    The case of the request handler: the address is checked, the page
    analysed with the browser, the result validated and the document
    generated.  The value is the document that the response prints;
    [Throw] is the error response that the handler makes of an
    exception. *)

Section Tool.

(** Whether [new URL(url)] returns. *)
Variable URL_valid : string -> bool.
Variable URL_href : string -> string -> Exn string.
Variable fails : list Session.Call -> Session.Call -> bool.
Variable content : list Session.Call -> string.
Variable cheerio_load : string -> Document.
Variable JSON_parse : string -> Exn JsVal.

Definition generate_schema_markup (url mainSchema : string)
  (nestedSchemas : list NestedSchema) (customProperties : list (string * JsVal))
  : Session.M JsVal :=
  fun a =>
    if URL_valid url then
      Session.bind (Session.analyzeWebsite fails content cheerio_load JSON_parse url)
        (fun result a' =>
           (a',
            exn_bind (AnalysisResultSchema_parse result) (fun validatedResult =>
            generateSchemaMarkup URL_href validatedResult mainSchema nestedSchemas
              customProperties))) a
    else (a, Throw).

End Tool.

(** A [width] or [height] attribute that is absent, empty or starts
    with a number. *)
Definition numeric_or_absent (a : option string) : bool :=
  match Js.or_undefined a with
  | Some w => match parseInt w with NaN => false | Int _ => true end
  | None => true
  end.

(** Every [img] element has such a width and such a height. *)
Definition numeric_dimensions (d : Document) : bool :=
  forallb (fun el => numeric_or_absent (attr "width" el) &&
                     numeric_or_absent (attr "height" el))
    (select d (tag "img")).

(** A [width] or [height] attribute whose number, if any, is exact in
    the source: a safe integer. *)
Definition safe_or_absent (a : option string) : bool :=
  match Js.or_undefined a with
  | Some w => match parseInt w with NaN => true | Int z => (Z.abs z <=? 2 ^ 53)%Z end
  | None => true
  end.

Definition safe_dimensions (d : Document) : bool :=
  forallb (fun el => safe_or_absent (attr "width" el) &&
                     safe_or_absent (attr "height" el))
    (select d (tag "img")).

(** Further data of the examples. *)
Module MoreSamples.

(** A result whose address has no scheme: [new URL(rel, base)] throws
    for it. *)
Definition no_base (imgs : list Image) : AnalysisResult := {|
  url := "x.test";
  title := "Shop";
  description := Some "";
  websiteType := unknown;
  detectedElements := detectElements [];
  technicalDetails := detectTechnicalDetails [];
  scrapedData := Samples.snapshot imgs
|}.

(** Two classes with a tab between them. *)
Definition tab_between_classes : Document :=
  Pages.page []
    [Pages.el "div" [("class", String "a" (String (ascii_of_nat 9) "b"))] []].

(** A page with an image whose width is no number. *)
Definition image_width_auto : Document :=
  Pages.page []
    [Pages.el "img" [("src", "https://x.test/a.png"); ("width", "auto")] []].

(** A page with an image whose width and height start with a number. *)
Definition image_with_size : Document :=
  Pages.page []
    [Pages.el "img" [("src", "/a.png"); ("width", "640"); ("height", "480px")] []].

Definition person (context : string) : NestedSchema := {|
  ns_type := "Person";
  ns_context := context;
  ns_properties := [("image", JStr "/me.png")]
|}.

(** A store with an analysis result at 2 and an empty object at 3. *)
Definition store : list Store.Cell :=
  [ Store.CArr [];
    Store.CObj [("images", Store.VRef 0)];
    Store.CObj [("url", Store.VStr "https://x.test/page");
                ("title", Store.VStr "Shop");
                ("scrapedData", Store.VRef 1)];
    Store.CObj [] ].

End MoreSamples.

(** * Properties *)

(** ** Selections *)

Lemma found_existsb d s : found d s = existsb (matches s) (all_elements d).
Proof.
  unfold found, select.
  induction (all_elements d) as [|n l IH]; simpl; [reflexivity|].
  destruct (matches s n); simpl; [reflexivity | exact IH].
Qed.

Lemma found_intro d s n :
  In n (all_elements d) -> matches s n = true -> found d s = true.
Proof.
  intros Hin Hm. rewrite found_existsb. apply existsb_exists. eauto.
Qed.

Lemma found_elim d s :
  found d s = true -> exists n, In n (all_elements d) /\ matches s n = true.
Proof. rewrite found_existsb. apply existsb_exists. Qed.

(** ** The classifier *)

(** C2: the classifier returns the label of the first rule, in the order
    ecommerce, blog, news, portfolio, social_media, forum, documentation,
    saas, educational, entertainment, government, nonprofit, landing_page,
    corporate, whose condition holds, and [unknown] when none holds; a
    page on which the conditions of ecommerce and of blog both hold is
    classified ecommerce. *)
Theorem determineWebsiteType_first_match d e t u :
  map snd (rules d e t u) =
    [ ecommerce; blog; news; portfolio; social_media; forum; documentation;
      saas; educational; entertainment; government; nonprofit; landing_page;
      corporate ] /\
  determineWebsiteType d e t u = first_match (rules d e t u) /\
  (cond_ecommerce d e t = true -> cond_blog d = true ->
   determineWebsiteType d e t u = ecommerce) /\
  (Forall (fun r => fst r = false) (rules d e t u) ->
   determineWebsiteType d e t u = unknown).
Proof.
  split; [reflexivity|]. split; [|split].
  - unfold determineWebsiteType, rules, first_match.
    repeat match goal with |- context [if ?c then _ else _] => destruct c end;
      reflexivity.
  - intros He _. unfold determineWebsiteType. rewrite He. reflexivity.
  - intros Hall. unfold rules in Hall.
    repeat match goal with
           | H : Forall _ (_ :: _) |- _ => inversion H; subst; clear H
           end.
    simpl in *. unfold determineWebsiteType.
    repeat match goal with H : ?c = false |- _ => rewrite H; clear H end.
    reflexivity.
Qed.

Lemma determineWebsiteType_first_match_witness :
  cond_ecommerce Pages.shop_and_blog (detectElements Pages.shop_and_blog)
    (detectTechnicalDetails Pages.shop_and_blog) = true /\
  cond_blog Pages.shop_and_blog = true /\
  classify Pages.shop_and_blog "https://x.test/" = ecommerce /\
  classify [] "https://x.test/" = unknown.
Proof.
  split; [reflexivity|]. split; [reflexivity|]. split.
  - apply (proj1 (proj2 (proj2 (determineWebsiteType_first_match
       Pages.shop_and_blog (detectElements Pages.shop_and_blog)
       (detectTechnicalDetails Pages.shop_and_blog) "https://x.test/"))));
      reflexivity.
  - apply (proj2 (proj2 (proj2 (determineWebsiteType_first_match []
       (detectElements []) (detectTechnicalDetails []) "https://x.test/")))).
    repeat constructor.
Defined.

(** C10: where none of the rules ecommerce, blog, news, portfolio and
    social_media holds, an element whose class attribute contains
    [thread] or [topic], or that has the class [topic], makes the page a
    forum, whatever [hasComments] and [hasUserAuth] are: the conjunction
    with them guards the test of the class [thread] only. *)
Theorem forum_without_comments_and_auth d e t u n :
  cond_ecommerce d e t = false ->
  cond_blog d = false ->
  cond_news d = false ->
  cond_portfolio d = false ->
  cond_social_media e t = false ->
  In n (all_elements d) ->
  matches (attr_sub "class" "thread") n = true \/
  matches (cls "topic") n = true \/
  matches (attr_sub "class" "topic") n = true ->
  determineWebsiteType d e t u = forum.
Proof.
  intros H1 H2 H3 H4 H5 Hin Hm.
  unfold determineWebsiteType. rewrite H1, H2, H3, H4, H5.
  assert (Hf : cond_forum d e = true).
  { unfold cond_forum.
    destruct Hm as [Hm | [Hm | Hm]]; rewrite (found_intro _ _ _ Hin Hm);
      rewrite ?orb_true_r; reflexivity. }
  rewrite Hf. reflexivity.
Qed.

Lemma forum_without_comments_and_auth_witness :
  hasComments (detectElements Pages.topic_list) = false /\
  hasUserAuth (detectElements Pages.topic_list) = false /\
  classify Pages.topic_list "https://x.test/" = forum.
Proof.
  split; [reflexivity|]. split; [reflexivity|].
  apply (forum_without_comments_and_auth Pages.topic_list
           (detectElements Pages.topic_list)
           (detectTechnicalDetails Pages.topic_list) "https://x.test/"
           (Pages.el "ul" [("class", "topic-list")] []));
    try reflexivity.
  - simpl. tauto.
  - right. right. reflexivity.
Defined.

(** ** The detector *)

Lemma last_hit_3 b1 l1 b2 l2 b3 l3 :
  last_hit [(b1, l1); (b2, l2); (b3, l3)] =
  (let r := None in
   let r := if b1 then Some l1 else r in
   let r := if b2 then Some l2 else r in
   let r := if b3 then Some l3 else r in
   r).
Proof. destruct b1, b2, b3; reflexivity. Qed.

(** C1, as amended: the three framework checks, and the three CMS checks,
    are assignments in a row, so the label recorded is that of the last
    rule that holds in the order React, Vue, Angular (WordPress, Drupal,
    Joomla), and none when no rule holds. *)
Theorem framework_cms_last_match d :
  framework (detectTechnicalDetails d) = last_hit (framework_rules d) /\
  cms (detectTechnicalDetails d) = last_hit (cms_rules d).
Proof.
  split; simpl.
  - unfold detect_framework, framework_rules. rewrite last_hit_3. reflexivity.
  - unfold detect_cms, cms_rules. rewrite last_hit_3. reflexivity.
Qed.

(** C1, as stated, fails: on a page that loads React and Vue the first
    rule that holds is React and the framework recorded is Vue.js; with a
    generator that names WordPress and Drupal the CMS recorded is Drupal. *)
Lemma framework_cms_not_first_match :
  first_hit (framework_rules Pages.react_and_vue) = Some "React" /\
  framework (detectTechnicalDetails Pages.react_and_vue) = Some "Vue.js" /\
  first_hit (cms_rules Pages.wordpress_and_drupal) = Some "WordPress" /\
  cms (detectTechnicalDetails Pages.wordpress_and_drupal) = Some "Drupal".
Proof. repeat split; reflexivity. Qed.

Lemma push_if_app c l acc : push_if c l acc = acc ++ push_if c l [].
Proof. destruct c; simpl; [reflexivity | now rewrite app_nil_r]. Qed.

Lemma analytics_step_app acc el :
  analytics_step acc el = acc ++ analytics_labels el.
Proof.
  unfold analytics_labels, analytics_step. cbv zeta.
  set (c := Js.or_empty (Some (html el))).
  rewrite (push_if_app _ "Mixpanel"), (push_if_app _ "Facebook Pixel"),
    (push_if_app _ "Google Analytics").
  rewrite (push_if_app _ "Mixpanel" (push_if _ _ (push_if _ _ []))),
    (push_if_app _ "Facebook Pixel" (push_if _ _ [])).
  now rewrite !app_assoc.
Qed.

Lemma detect_analytics_flat_map d :
  detect_analytics d = flat_map analytics_labels (select d (tag "script")).
Proof.
  unfold detect_analytics.
  assert (H : forall l acc,
             fold_left analytics_step l acc = acc ++ flat_map analytics_labels l).
  { induction l as [|x l IH]; intros acc; simpl.
    - now rewrite app_nil_r.
    - rewrite IH, analytics_step_app. now rewrite app_assoc. }
  apply (H _ []).
Qed.

Lemma socialMedia_NoDup d : List.NoDup (socialMedia (detectTechnicalDetails d)).
Proof.
  simpl. unfold detect_socialMedia, push_if.
  repeat match goal with |- context [if ?c then _ else _] => destruct c end;
    simpl; repeat (apply List.NoDup_cons; [simpl; intuition discriminate|]);
    apply List.NoDup_nil.
Qed.

(** C4, as amended: [analytics] gets the labels of every script in turn
    and [paymentMethods] has two rules for Stripe and two for PayPal, so
    both can hold a label twice; [socialMedia] has one rule for each of its
    five labels and never holds a label twice. *)
Theorem analytics_payment_repeat_social_not :
  (forall d, analytics (detectTechnicalDetails d) =
             flat_map analytics_labels (select d (tag "script"))) /\
  (exists d, ~ List.NoDup (analytics (detectTechnicalDetails d))) /\
  (exists d, ~ List.NoDup (paymentMethods (detectTechnicalDetails d))) /\
  (forall d, List.NoDup (socialMedia (detectTechnicalDetails d))).
Proof.
  split; [exact detect_analytics_flat_map|].
  split; [|split; [|exact socialMedia_NoDup]].
  - exists Pages.two_gtag_scripts. intros H.
    change (List.NoDup ["Google Analytics"; "Google Analytics"]) in H.
    inversion H as [|x l Hn _]; subst. apply Hn. now left.
  - exists Pages.stripe_twice. intros H.
    change (List.NoDup ["Stripe"; "Stripe"]) in H.
    inversion H as [|x l Hn _]; subst. apply Hn. now left.
Qed.

(** C4, as stated, fails for [socialMedia]: no page makes a label appear
    twice in it. *)
Lemma socialMedia_never_repeats :
  ~ exists d, ~ List.NoDup (socialMedia (detectTechnicalDetails d)).
Proof. intros [d H]. apply H, socialMedia_NoDup. Qed.

(** ** The extractor *)

Section ExtractorFacts.

Variable JSON_parse : string -> Exn JsVal.

Lemma structuredData_step_ok acc el :
  structuredData_step JSON_parse acc el = Ok (acc ++ kept_blocks JSON_parse [el]).
Proof.
  unfold structuredData_step, structuredData_body, kept_blocks. simpl.
  destruct (Js.truthy (html el)); simpl.
  - destruct (JSON_parse (html el)); simpl; rewrite ?app_nil_r; reflexivity.
  - now rewrite app_nil_r.
Qed.

Lemma structuredData_loop_ok els acc :
  exn_fold (structuredData_step JSON_parse) els acc = Ok (acc ++ kept_blocks JSON_parse els).
Proof.
  revert acc. induction els as [|el els IH]; intros acc; simpl.
  - now rewrite app_nil_r.
  - rewrite structuredData_step_ok. simpl. rewrite IH.
    unfold kept_blocks. simpl. now rewrite app_nil_r, app_assoc.
Qed.

Lemma kept_blocks_parsed els :
  JSON_parse "" = Throw -> kept_blocks JSON_parse els = parsed_blocks JSON_parse els.
Proof.
  intros H0. unfold kept_blocks, parsed_blocks.
  induction els as [|el els IH]; simpl; [reflexivity|].
  rewrite IH. f_equal.
  destruct (html el) eqn:E; simpl; [now rewrite H0 | reflexivity].
Qed.

Lemma collect_structuredData_ok d :
  collect_structuredData JSON_parse d =
  Ok (kept_blocks JSON_parse (select d (tag_attr_eq "script" "type" "application/ld+json"))).
Proof. unfold collect_structuredData. now rewrite structuredData_loop_ok. Qed.

(** The extraction returns. *)
Lemma collectScrapedData_ok d h :
  exists s,
    collectScrapedData JSON_parse d h = Ok s /\
    structuredData s =
      kept_blocks JSON_parse
        (select d (tag_attr_eq "script" "type" "application/ld+json")) /\
    allClasses s = fst (collect_classes_ids d) /\
    ecommerceIndicators s = collect_ecommerceIndicators d.
Proof.
  unfold collectScrapedData.
  rewrite collect_structuredData_ok.
  destruct (collect_classes_ids d) as [cs ids]. simpl.
  eexists. split; [reflexivity|]. simpl. repeat split.
Qed.

End ExtractorFacts.

(** Every field but [structuredData] is computed without [JSON.parse]. *)
Lemma collectScrapedData_parser_independent p1 p2 d h s1 s2 :
  collectScrapedData p1 d h = Ok s1 ->
  collectScrapedData p2 d h = Ok s2 ->
  s2 = with_structuredData (structuredData s2) s1.
Proof.
  unfold collectScrapedData. rewrite !collect_structuredData_ok.
  destruct (collect_classes_ids d) as [cs ids]. simpl.
  intros H1 H2. injection H1 as <-. injection H2 as <-. reflexivity.
Qed.

Lemma analyzeWebsite_ok JSON_parse d h u :
  exists r,
    analyzeWebsite JSON_parse d h u = Ok r /\
    detectedElements r = detectElements d /\
    technicalDetails r = detectTechnicalDetails d /\
    websiteType r = classify d u /\
    ecommerceIndicators (scrapedData r) = collect_ecommerceIndicators d /\
    allTextContent (scrapedData r) = collect_allTextContent d.
Proof.
  unfold analyzeWebsite, collectScrapedData.
  rewrite collect_structuredData_ok.
  destruct (collect_classes_ids d) as [cs ids]. simpl.
  eexists. split; [reflexivity|]. simpl. repeat split.
Qed.

(** The JSON-LD script blocks: the [script] elements whose [type] is
    [application/ld+json] in any case of the letters. *)
Lemma select_ld_json d el :
  In el (select d (tag_attr_eq "script" "type" "application/ld+json")) <->
  In el (all_elements d) /\ tagName el = "script" /\
  exists t, attr "type" el = Some t /\ Js.toLowerCase t = "application/ld+json".
Proof.
  unfold select. rewrite filter_In.
  unfold matches, tag_attr_eq. cbn [existsb forallb matches_simple].
  rewrite orb_false_r, andb_true_r, andb_true_iff, String.eqb_eq.
  unfold attr_value_eqb. change (case_insensitive_attr "type") with true. cbv iota.
  split.
  - intros (Hin & Ht & Ha). split; [exact Hin|]. split; [exact Ht|].
    destruct (attr "type" el) as [t|]; [|discriminate].
    exists t. split; [reflexivity|]. now apply String.eqb_eq in Ha.
  - intros (Hin & Ht & t & -> & Hl). split; [exact Hin|]. split; [exact Ht|].
    rewrite Hl. reflexivity.
Qed.

(** C8: the extraction always returns; [structuredData] holds the values
    of the JSON-LD script blocks whose content parses, in document order,
    a block whose content does not parse adds nothing, and no other field
    of the snapshot depends on what [JSON.parse] does.  The JSON-LD
    script blocks are the [script] elements whose [type] is
    [application/ld+json], the case of the letters left aside. *)
Theorem structuredData_parse_failures_dropped JSON_parse d h :
  JSON_parse "" = Throw ->
  exists s,
    collectScrapedData JSON_parse d h = Ok s /\
    structuredData s =
      parsed_blocks JSON_parse
        (select d (tag_attr_eq "script" "type" "application/ld+json")) /\
    (forall v, In v (structuredData s) <->
               exists el,
                 In el (select d (tag_attr_eq "script" "type" "application/ld+json")) /\
                 JSON_parse (html el) = Ok v) /\
    (forall JSON_parse' s',
        collectScrapedData JSON_parse' d h = Ok s' ->
        s' = with_structuredData (structuredData s') s) /\
    (forall el,
        In el (select d (tag_attr_eq "script" "type" "application/ld+json")) <->
        In el (all_elements d) /\ tagName el = "script" /\
        exists t, attr "type" el = Some t /\
                  Js.toLowerCase t = "application/ld+json").
Proof.
  intros H0.
  destruct (collectScrapedData_ok JSON_parse d h) as (s & Hs & Hsd & _).
  exists s. split; [exact Hs|].
  rewrite kept_blocks_parsed in Hsd by exact H0.
  split; [exact Hsd|]. split; [|split; [|apply select_ld_json]].
  - intros v. rewrite Hsd. unfold parsed_blocks. rewrite in_flat_map.
    split.
    + intros (el & Hin & Hv). exists el. split; [exact Hin|].
      destruct (JSON_parse (html el)); simpl in Hv; [|contradiction].
      destruct Hv as [->|[]]. reflexivity.
    + intros (el & Hin & Hv). exists el. split; [exact Hin|].
      rewrite Hv. now left.
  - intros p' s' Hs'.
    exact (collectScrapedData_parser_independent _ _ _ _ _ _ Hs Hs').
Qed.

Lemma structuredData_parse_failures_dropped_witness :
  SampleJSON.parse "" = Throw /\
  (exists s,
      collectScrapedData SampleJSON.parse Pages.ld_json_blocks "" = Ok s /\
      structuredData s = [JObj []; JArr []]) /\
  (exists s,
      collectScrapedData SampleJSON.parse Pages.ld_json_upper_case "" = Ok s /\
      structuredData s = [JObj []; JArr []]).
Proof.
  split; [reflexivity|]. split.
  - destruct (structuredData_parse_failures_dropped SampleJSON.parse
                Pages.ld_json_blocks "" eq_refl) as (s & Hs & Hsd & _).
    exists s. split; [exact Hs|]. rewrite Hsd. reflexivity.
  - destruct (structuredData_parse_failures_dropped SampleJSON.parse
                Pages.ld_json_upper_case "" eq_refl) as (s & Hs & Hsd & _).
    exists s. split; [exact Hs|]. rewrite Hsd. reflexivity.
Defined.

(** ** Class tokens *)

Lemma class_step_add_new toks acc :
  fold_left class_step toks acc =
  fold_left add_new (List.filter Js.truthy (map Js.trim toks)) acc.
Proof.
  revert acc. induction toks as [|t toks IH]; intros acc; [reflexivity|].
  cbn [fold_left map List.filter]. rewrite IH. unfold class_step.
  destruct (Js.truthy (Js.trim t)); cbn [fold_left andb]; [|reflexivity].
  unfold add_new at 3.
  destruct (Js.arr_includes acc (Js.trim t)); reflexivity.
Qed.

Lemma classes_ids_step_fst els cs ids :
  fst (fold_left classes_ids_step els (cs, ids)) =
  fold_left add_new (flat_map class_tokens_of els) cs.
Proof.
  revert cs ids. induction els as [|el els IH]; intros cs ids; [reflexivity|].
  cbn [fold_left flat_map]. rewrite fold_left_app.
  unfold classes_ids_step, class_tokens_of.
  destruct (Js.or_undefined (attr "class" el)) as [c|];
    rewrite IH; rewrite ?class_step_add_new; reflexivity.
Qed.

Lemma arr_includes_In acc x : Js.arr_includes acc x = true <-> In x acc.
Proof.
  unfold Js.arr_includes. rewrite existsb_exists. split.
  - intros (y & Hin & He). apply String.eqb_eq in He. now subst.
  - intros Hin. exists x. split; [exact Hin | apply String.eqb_refl].
Qed.

Lemma arr_includes_app acc x y :
  Js.arr_includes (acc ++ [x]) y = Js.arr_includes acc y || String.eqb x y.
Proof.
  unfold Js.arr_includes. rewrite existsb_app. simpl.
  rewrite orb_false_r, (String.eqb_sym y x). reflexivity.
Qed.

Lemma filter_known acc x (L : list string) :
  Js.arr_includes acc x = true ->
  List.filter (fun y => negb (Js.arr_includes acc y)) L =
  List.filter (fun y => negb (Js.arr_includes acc y))
    (List.filter (fun y => negb (String.eqb x y)) L).
Proof.
  intros E. induction L as [|y r IHr]; simpl; [reflexivity|].
  destruct (String.eqb x y) eqn:Exy; simpl.
  - apply String.eqb_eq in Exy. subst y. rewrite E. simpl. exact IHr.
  - destruct (Js.arr_includes acc y); simpl; now rewrite IHr.
Qed.

Lemma filter_new acc x (L : list string) :
  List.filter (fun y => negb (Js.arr_includes (acc ++ [x]) y)) L =
  List.filter (fun y => negb (Js.arr_includes acc y))
    (List.filter (fun y => negb (String.eqb x y)) L).
Proof.
  induction L as [|y r IHr]; simpl; [reflexivity|].
  rewrite arr_includes_app, negb_orb.
  destruct (String.eqb x y); simpl.
  - rewrite andb_false_r. exact IHr.
  - rewrite andb_true_r.
    destruct (Js.arr_includes acc y); simpl; now rewrite IHr.
Qed.

Lemma add_new_first_seen l acc :
  fold_left add_new l acc =
  acc ++ List.filter (fun y => negb (Js.arr_includes acc y)) (first_seen l).
Proof.
  revert acc. induction l as [|x l IH]; intros acc; simpl.
  - now rewrite app_nil_r.
  - unfold add_new at 2. destruct (Js.arr_includes acc x) eqn:E; simpl.
    + rewrite IH. f_equal. now apply filter_known.
    + rewrite IH, <- app_assoc. simpl. do 2 f_equal. apply filter_new.
Qed.

Lemma first_seen_In l x : In x (first_seen l) -> In x l.
Proof.
  revert x. induction l as [|y l IH]; intros x; simpl; [tauto|].
  intros [->|H]; [now left|]. right. apply IH.
  apply filter_In in H. tauto.
Qed.

Lemma first_seen_NoDup l : List.NoDup (first_seen l).
Proof.
  induction l as [|x l IH]; simpl; constructor.
  - intros H. apply filter_In in H. destruct H as [_ H].
    rewrite String.eqb_refl in H. discriminate.
  - apply List.NoDup_filter. exact IH.
Qed.

Lemma collect_classes_first_seen d :
  fst (collect_classes_ids d) = first_seen (class_tokens d).
Proof.
  unfold collect_classes_ids. rewrite classes_ids_step_fst, add_new_first_seen.
  simpl. unfold class_tokens.
  induction (first_seen _) as [|y r IHr]; simpl; [reflexivity | now rewrite IHr].
Qed.

Lemma class_tokens_nonempty d c : In c (class_tokens d) -> c <> "".
Proof.
  unfold class_tokens. rewrite in_flat_map. intros (el & _ & H).
  unfold class_tokens_of in H.
  destruct (Js.or_undefined (attr "class" el)); [|contradiction].
  apply filter_In in H. destruct H as [_ H]. intros ->. discriminate.
Qed.

(** ** The scenario of the form and the payment link *)

Lemma Stripe_in_paymentMethods d :
  In "Stripe" (paymentMethods (detectTechnicalDetails d)) <->
  found d (tag_attr_sub "img" "src" "stripe") = true \/
  found d (attr_sub "class" "stripe") = true.
Proof.
  simpl. unfold detect_paymentMethods, push_if.
  repeat match goal with |- context [if ?c then _ else _] => destruct c end;
    simpl; intuition congruence.
Qed.

(** C3, as amended: a page with a [form] element has [hasForms = true].
    [paymentMethods] has a Stripe entry exactly when an [img] has a [src]
    that contains [stripe] or an element has a class attribute that
    contains [stripe], and then the page is classified ecommerce;
    [ecommerceIndicators] is not empty exactly when a token of the
    lower-cased text of the body contains one of the keywords.  Neither a
    link to [checkout.stripe.com] nor a class [add-to-cart] counts. *)
Theorem form_scenario JSON_parse d h u n :
  In n (all_elements d) ->
  matches (tag "form") n = true ->
  exists r,
    analyzeWebsite JSON_parse d h u = Ok r /\
    hasForms (detectedElements r) = true /\
    (In "Stripe" (paymentMethods (technicalDetails r)) <->
       found d (tag_attr_sub "img" "src" "stripe") = true \/
       found d (attr_sub "class" "stripe") = true) /\
    (In "Stripe" (paymentMethods (technicalDetails r)) ->
       websiteType r = ecommerce) /\
    (ecommerceIndicators (scrapedData r) <> [] <->
       exists w,
         In w (Js.split_ws (Js.toLowerCase (allTextContent (scrapedData r)))) /\
         is_ecommerce_word w = true).
Proof.
  intros Hin Hform.
  destruct (analyzeWebsite_ok JSON_parse d h u)
    as (r & Hr & He & Ht & Hw & Hi & Hx).
  exists r. split; [exact Hr|].
  rewrite He, Ht, Hw, Hi, Hx.
  split; [exact (found_intro _ _ _ Hin Hform)|].
  split; [apply Stripe_in_paymentMethods|]. split.
  - intros HS. unfold classify, determineWebsiteType, cond_ecommerce.
    destruct (paymentMethods (detectTechnicalDetails d)); [destruct HS|].
    simpl. rewrite orb_true_r. reflexivity.
  - unfold collect_ecommerceIndicators, indicators.
    set (ws := Js.split_ws _). clearbody ws. split.
    + intros Hne. destruct (List.filter is_ecommerce_word ws) as [|w l] eqn:E;
        [congruence|].
      exists w. apply filter_In. rewrite E. now left.
    + intros (w & Hw1 & Hw2) E.
      assert (Hf : In w (List.filter is_ecommerce_word ws))
        by (apply filter_In; tauto).
      rewrite E in Hf. destruct Hf.
Qed.

Lemma form_scenario_witness :
  exists r,
    analyzeWebsite SampleJSON.parse Pages.stripe_class "" "https://shop.test/" = Ok r /\
    hasForms (detectedElements r) = true /\
    websiteType r = ecommerce.
Proof.
  destruct (form_scenario SampleJSON.parse Pages.stripe_class "" "https://shop.test/"
              (Pages.el "form" []
                 [Pages.el "div" [("class", "stripe-button")] [Text "Shop now"]]))
    as (r & Hr & Hf & HS & Hw & _).
  - simpl. tauto.
  - reflexivity.
  - exists r. split; [exact Hr|]. split; [exact Hf|].
    apply Hw, HS. right. reflexivity.
Defined.

(** C3, as stated, fails: the page has a form, an element of class
    [add-to-cart] and a link to [checkout.stripe.com];
    [ecommerceIndicators] and [paymentMethods] are empty and the page is
    classified unknown. *)
Lemma form_scenario_not_ecommerce :
  found Pages.stripe_link (tag "form") = true /\
  found Pages.stripe_link [[SAttrEq "class" "add-to-cart"]] = true /\
  found Pages.stripe_link (tag_attr_sub "a" "href" "checkout.stripe.com") = true /\
  exists r,
    analyzeWebsite SampleJSON.parse Pages.stripe_link "" "https://shop.test/" = Ok r /\
    hasForms (detectedElements r) = true /\
    ecommerceIndicators (scrapedData r) = [] /\
    paymentMethods (technicalDetails r) = [] /\
    websiteType r = unknown.
Proof.
  repeat (split; [reflexivity|]).
  eexists. split; [reflexivity|]. repeat split.
Qed.

(** ** Objects *)

Section ObjFacts.
Context {V : Type}.
Implicit Types (o : list (string * V)) (k : string) (v : V).

Lemma obj_get_set_eq k v o : obj_get k (obj_set k v o) = Some v.
Proof.
  induction o as [|[k' v'] o IH]; simpl.
  - now rewrite String.eqb_refl.
  - destruct (String.eqb k k') eqn:E; simpl; rewrite E; [reflexivity | exact IH].
Qed.

Lemma obj_get_set_ne k k' v o :
  k <> k' -> obj_get k' (obj_set k v o) = obj_get k' o.
Proof.
  intros Hne. induction o as [|[k0 v0] o IH]; simpl.
  - destruct (String.eqb k' k) eqn:E; [|reflexivity].
    apply String.eqb_eq in E. congruence.
  - destruct (String.eqb k k0) eqn:E; simpl.
    + apply String.eqb_eq in E. subst k0.
      destruct (String.eqb k' k) eqn:E'; [|reflexivity].
      apply String.eqb_eq in E'. congruence.
    + now rewrite IH.
Qed.

Lemma obj_get_set k k' v o :
  obj_get k' (obj_set k v o) = if String.eqb k k' then Some v else obj_get k' o.
Proof.
  destruct (String.eqb k k') eqn:E.
  - apply String.eqb_eq in E. subst. apply obj_get_set_eq.
  - apply String.eqb_neq in E. now apply obj_get_set_ne.
Qed.

Lemma obj_get_None_keys k o : obj_get k o = None <-> ~ In k (obj_keys o).
Proof.
  induction o as [|[k' v'] o IH]; simpl; [tauto|].
  destruct (String.eqb k k') eqn:E.
  - apply String.eqb_eq in E. subst. split; [discriminate | tauto].
  - apply String.eqb_neq in E. rewrite IH. intuition congruence.
Qed.

Lemma obj_keys_set_old k v o :
  In k (obj_keys o) -> obj_keys (obj_set k v o) = obj_keys o.
Proof.
  induction o as [|[k' v'] o IH]; simpl; [tauto|].
  destruct (String.eqb k k') eqn:E; simpl; [reflexivity|].
  apply String.eqb_neq in E. intros [H|H]; [congruence|]. now rewrite IH.
Qed.

Lemma obj_keys_set_new k v o :
  ~ In k (obj_keys o) -> obj_keys (obj_set k v o) = obj_keys o ++ [k].
Proof.
  induction o as [|[k' v'] o IH]; simpl; [reflexivity|].
  destruct (String.eqb k k') eqn:E; simpl.
  - apply String.eqb_eq in E. subst. tauto.
  - intros H. rewrite IH; tauto.
Qed.

Lemma obj_keys_set_NoDup k v o :
  List.NoDup (obj_keys o) -> List.NoDup (obj_keys (obj_set k v o)).
Proof.
  intros Hnd. destruct (in_dec string_dec k (obj_keys o)) as [Hin|Hin].
  - now rewrite obj_keys_set_old.
  - rewrite obj_keys_set_new by exact Hin.
    induction (obj_keys o) as [|x l IHl]; simpl.
    + constructor; [intros [] | constructor].
    + inversion Hnd as [|? ? Hx Hl]; subst. simpl in Hin. constructor.
      * rewrite in_app_iff. simpl. intuition congruence.
      * apply IHl; tauto.
Qed.

Lemma obj_assign_NoDup o src :
  List.NoDup (obj_keys o) -> List.NoDup (obj_keys (obj_assign o src)).
Proof.
  unfold obj_assign. revert o.
  induction src as [|[k v] src IH]; intros o Hnd; simpl; [exact Hnd|].
  apply IH, obj_keys_set_NoDup, Hnd.
Qed.

Lemma obj_assign_get_other k o src :
  obj_get k src = None -> obj_get k (obj_assign o src) = obj_get k o.
Proof.
  unfold obj_assign. revert o.
  induction src as [|[k' v'] src IH]; intros o; simpl; [reflexivity|].
  destruct (String.eqb k k') eqn:E; [discriminate|].
  intros H. rewrite IH by exact H.
  apply obj_get_set_ne. apply String.eqb_neq in E. congruence.
Qed.

End ObjFacts.

(** ** Exceptions *)

Lemma exn_fold_inv {A B} (P : A -> Prop) (f : A -> B -> Exn A) l :
  (forall a x a', P a -> In x l -> f a x = Ok a' -> P a') ->
  forall a a', P a -> exn_fold f l a = Ok a' -> P a'.
Proof.
  induction l as [|x l IH]; intros Hf a a' Ha; simpl.
  - intros [= <-]. exact Ha.
  - destruct (f a x) as [a1|] eqn:E; simpl; [|discriminate].
    apply IH.
    + intros b y b' Hb Hy. apply Hf; [exact Hb | now right].
    + apply (Hf a x); [exact Ha | now left | exact E].
Qed.

Lemma exn_map_Forall2 {A B} (f : A -> Exn B) l ys :
  exn_map f l = Ok ys -> Forall2 (fun x y => f x = Ok y) l ys.
Proof.
  revert ys. induction l as [|x l IH]; intros ys; simpl.
  - intros [= <-]. constructor.
  - destruct (f x) as [y|] eqn:E; simpl; [|discriminate].
    destruct (exn_map f l) as [ys'|]; simpl; [|discriminate].
    intros [= <-]. constructor; [exact E | now apply IH].
Qed.

(** ** The synthesizer on values *)

Section SynthesizerFacts.

Variable URL_href : string -> string -> Exn string.
Variable r : AnalysisResult.


Lemma collapse_step_get s key k :
  obj_get k (collapse_step s key) =
  if String.eqb key k then option_map collapsed (obj_get k s) else obj_get k s.
Proof.
  unfold collapse_step.
  destruct (String.eqb key k) eqn:E.
  - apply String.eqb_eq in E. subst k.
    destruct (obj_get key s) as [v|] eqn:G; [|now rewrite G].
    destruct v as [| | | |[|x [|y l]]|]; rewrite ?G; try reflexivity.
    now rewrite obj_get_set_eq.
  - destruct (obj_get key s) as [v|] eqn:G; [|reflexivity].
    destruct v as [| | | |[|x [|y l]]|]; try reflexivity.
    apply obj_get_set_ne. now apply String.eqb_neq.
Qed.

Lemma collapse_step_keys s key : obj_keys (collapse_step s key) = obj_keys s.
Proof.
  unfold collapse_step.
  destruct (obj_get key s) as [v|] eqn:G; [|reflexivity].
  destruct v as [| | | |[|x [|y l]]|]; try reflexivity.
  apply obj_keys_set_old.
  destruct (in_dec string_dec key (obj_keys s)) as [H|H]; [exact H|].
  apply obj_get_None_keys in H. congruence.
Qed.

Lemma collapse_fold ks :
  List.NoDup ks ->
  forall s k,
    obj_keys (fold_left collapse_step ks s) = obj_keys s /\
    (In k ks ->
     obj_get k (fold_left collapse_step ks s) =
     option_map collapsed (obj_get k s)) /\
    (~ In k ks -> obj_get k (fold_left collapse_step ks s) = obj_get k s).
Proof.
  induction 1 as [|a ks Ha Hnd IH]; intros s k; simpl.
  - tauto.
  - destruct (IH (collapse_step s a) k) as (Hk & Hin & Hout).
    rewrite Hk, collapse_step_keys. split; [reflexivity|]. split.
    + intros [->|Hks].
      * rewrite Hout by exact Ha.
        now rewrite collapse_step_get, String.eqb_refl.
      * rewrite Hin by exact Hks. rewrite collapse_step_get.
        destruct (String.eqb a k) eqn:E; [|reflexivity].
        apply String.eqb_eq in E. subst. contradiction.
    + intros Hno. rewrite Hout by tauto. rewrite collapse_step_get.
      destruct (String.eqb a k) eqn:E; [|reflexivity].
      apply String.eqb_eq in E. tauto.
Qed.

Lemma collapse_get s k :
  List.NoDup (obj_keys s) ->
  obj_keys (collapse s) = obj_keys s /\
  obj_get k (collapse s) = option_map collapsed (obj_get k s).
Proof.
  intros Hnd. unfold collapse.
  destruct (collapse_fold (obj_keys s) Hnd s k) as (Hk & Hin & Hout).
  split; [exact Hk|].
  destruct (in_dec string_dec k (obj_keys s)) as [H|H].
  - now apply Hin.
  - rewrite Hout by exact H. apply obj_get_None_keys in H. now rewrite H.
Qed.

Lemma add_description_NoDup s :
  List.NoDup (obj_keys s) -> List.NoDup (obj_keys (add_description r s)).
Proof.
  unfold add_description. destruct (Js.or_undefined _); [|tauto].
  apply obj_keys_set_NoDup.
Qed.

Lemma add_images_NoDup s s' :
  add_images URL_href r s = Ok s' ->
  List.NoDup (obj_keys s) -> List.NoDup (obj_keys s').
Proof.
  unfold add_images. destruct (0 <? _)%nat.
  - destruct (exn_map _ _); simpl; [|discriminate].
    intros [= <-]. apply obj_keys_set_NoDup.
  - now intros [= <-].
Qed.

Lemma nested_step_NoDup s n s' :
  nested_step URL_href r s n = Ok s' ->
  List.NoDup (obj_keys s) -> List.NoDup (obj_keys s').
Proof.
  unfold nested_step. cbv zeta.
  destruct (exn_fold _ _ _); simpl; [|discriminate].
  match goal with |- context [obj_get _ ?s0] => set (s1 := s0) end.
  destruct (obj_get _ s1) as [[| | | |items|]|]; try discriminate.
  intros [= <-] Hnd. apply obj_keys_set_NoDup. subst s1.
  destruct (negb _); [apply obj_keys_set_NoDup|]; exact Hnd.
Qed.

Lemma nested_step_get_other s n s' k :
  nested_step URL_href r s n = Ok s' ->
  ns_context n <> k -> obj_get k s' = obj_get k s.
Proof.
  unfold nested_step. cbv zeta.
  destruct (exn_fold _ _ _); simpl; [|discriminate].
  match goal with |- context [obj_get _ ?s0] => set (s1 := s0) end.
  destruct (obj_get _ s1) as [[| | | |items|]|]; try discriminate.
  intros [= <-] Hne. rewrite obj_get_set_ne by exact Hne. subst s1.
  destruct (negb _); [now apply obj_get_set_ne | reflexivity].
Qed.

Lemma build_schema_NoDup main nested custom s :
  build_schema URL_href r main nested custom = Ok s -> List.NoDup (obj_keys s).
Proof.
  unfold build_schema. cbv zeta.
  destruct (add_images _ _ _) as [s1|] eqn:E1; simpl; [|discriminate].
  apply (exn_fold_inv (fun s => List.NoDup (obj_keys s))).
  - intros a x a' Ha _ Hx. exact (nested_step_NoDup _ _ _ Hx Ha).
  - apply obj_assign_NoDup. apply (add_images_NoDup _ _ E1).
    apply add_description_NoDup. simpl.
    repeat (apply List.NoDup_cons; [simpl; intuition discriminate|]).
    apply List.NoDup_nil.
Qed.

(** The field [image] before the last loop, when neither
    [customProperties] nor a nested schema names it. *)
Lemma build_schema_image main nested custom s :
  build_schema URL_href r main nested custom = Ok s ->
  images (scrapedData r) <> [] ->
  obj_get "image" custom = None ->
  Forall (fun n => ns_context n <> "image") nested ->
  exists objs,
    exn_map (image_object URL_href r)
      (List.filter (fun img => Js.truthy (img_src img)) (images (scrapedData r)))
    = Ok objs /\
    obj_get "image" s = Some (JArr objs).
Proof.
  unfold build_schema. cbv zeta. intros Hb Hne Hc Hn.
  destruct (add_images _ _ _) as [s1|] eqn:E1; simpl in Hb; [|discriminate].
  unfold add_images in E1.
  destruct (images (scrapedData r)) as [|i0 il] eqn:Ei; [congruence|].
  cbn [length Nat.ltb Nat.leb] in E1.
  destruct (exn_map _ _) as [objs|]; simpl in E1; [|discriminate].
  injection E1 as <-. exists objs. split; [reflexivity|].
  revert Hb. apply (exn_fold_inv (fun s => obj_get "image" s = Some (JArr objs))).
  - intros a x a' Ha Hx Hstep.
    rewrite (nested_step_get_other _ _ _ _ Hstep); [exact Ha|].
    rewrite Forall_forall in Hn. apply Hn.
    apply list_elem_of_In. exact Hx.
  - rewrite obj_assign_get_other by exact Hc. apply obj_get_set_eq.
Qed.

(** The synthesis ends with the collapse of the document built. *)
Lemma generateSchemaMarkup_collapse main nested custom :
  match build_schema URL_href r main nested custom with
  | Ok schema =>
      exists out,
        generateSchemaMarkup URL_href r main nested custom = Ok (JObj out) /\
        obj_keys out = obj_keys schema /\
        forall k, obj_get k out = option_map collapsed (obj_get k schema)
  | Throw => generateSchemaMarkup URL_href r main nested custom = Throw
  end.
Proof.
  unfold generateSchemaMarkup.
  destruct (build_schema _ _ _ _ _) as [schema|] eqn:E; simpl; [|reflexivity].
  exists (collapse schema). split; [reflexivity|].
  pose proof (build_schema_NoDup _ _ _ _ E) as Hnd.
  split.
  - exact (proj1 (collapse_get schema "" Hnd)).
  - intros k. exact (proj2 (collapse_get schema k Hnd)).
Qed.

End SynthesizerFacts.

Section SynthesizerTheorems.

Variable URL_href : string -> string -> Exn string.
Variable r : AnalysisResult.

Lemma image_object_shape img o :
  image_object URL_href r img = Ok o ->
  exists u,
    o = JObj [ ("@type", JStr "ImageObject"); ("url", JStr u);
               ("alt", JStr (match Js.or_undefined (img_alt img) with
                             | Some alt => alt
                             | None => title r
                             end)) ] /\
    (if Js.startsWith (img_src img) "http" then u = img_src img
     else URL_href (img_src img) (url r) = Ok u).
Proof.
  unfold image_object.
  destruct (Js.startsWith (img_src img) "http"); simpl.
  - intros [= <-]. eexists. split; reflexivity.
  - destruct (URL_href _ _) as [u|]; simpl; [|discriminate].
    intros [= <-]. eexists. split; reflexivity.
Qed.

Lemma before_nested_get main custom s1 k :
  add_images URL_href r
    (add_description r
       [ ("@context", JStr "https://schema.org"); ("@type", JStr main);
         ("name", JStr (title r)); ("url", JStr (url r)) ]) = Ok s1 ->
  ~ In k base_keys ->
  obj_get k custom = None ->
  obj_get k (obj_assign s1 custom) = None.
Proof.
  intros E Hk Hc. rewrite obj_assign_get_other by exact Hc.
  unfold base_keys in Hk. simpl in Hk.
  assert (Hd : obj_get k
                 (add_description r
                    [ ("@context", JStr "https://schema.org"); ("@type", JStr main);
                      ("name", JStr (title r)); ("url", JStr (url r)) ]) = None).
  { unfold add_description. destruct (Js.or_undefined _).
    - rewrite obj_get_set_ne by intuition congruence.
      apply obj_get_None_keys. simpl. intuition congruence.
    - apply obj_get_None_keys. simpl. intuition congruence. }
  revert E. unfold add_images. destruct (0 <? _)%nat.
  - destruct (exn_map _ _); simpl; [|discriminate].
    intros [= <-]. rewrite obj_get_set_ne by intuition congruence. exact Hd.
  - intros [= <-]. exact Hd.
Qed.


End SynthesizerTheorems.

(** *** When the synthesis returns *)

Lemma obj_assign_get_inv (o src : list (string * JsVal)) k v :
  obj_get k (obj_assign o src) = Some v ->
  obj_get k o = Some v \/ In (k, v) src.
Proof.
  unfold obj_assign. revert o.
  induction src as [|[k' v'] src IH]; intros o; simpl; [tauto|].
  intros H. apply IH in H. destruct H as [H|H]; [|tauto].
  rewrite obj_get_set in H. simpl in H.
  destruct (String.eqb k' k) eqn:E; [|tauto].
  apply String.eqb_eq in E. subst k'. injection H as <-. tauto.
Qed.

(** The synthesis returns when every URL resolves and every context of a
    nested schema is a new field, or a field that [customProperties]
    binds to a list. *)
Lemma generateSchemaMarkup_returns URL_href r main nested custom :
  (forall rel, exists u, URL_href rel (url r) = Ok u) ->
  Forall (fun n => ~ In (ns_context n) base_keys /\
                   inherited (ns_context n) = false) nested ->
  (forall n v, In n nested -> In (ns_context n, v) custom -> is_array v) ->
  exists out, generateSchemaMarkup URL_href r main nested custom = Ok (JObj out).
Proof.
  intros HU Hn Hc. unfold generateSchemaMarkup, build_schema. cbv zeta.
  assert (Himg : exists s1,
             add_images URL_href r
               (add_description r
                  [ ("@context", JStr "https://schema.org"); ("@type", JStr main);
                    ("name", JStr (title r)); ("url", JStr (url r)) ]) = Ok s1).
  { unfold add_images. destruct (0 <? _)%nat; [|eauto].
    assert (Hm : forall l, exists objs, exn_map (image_object URL_href r) l = Ok objs).
    { induction l as [|img l [objs IH]]; simpl; [eauto|].
      unfold image_object at 1.
      destruct (Js.startsWith (img_src img) "http"); simpl.
      - rewrite IH. simpl. eauto.
      - destruct (HU (img_src img)) as [u ->]. simpl. rewrite IH. simpl. eauto. }
    destruct (Hm (List.filter (fun img => Js.truthy (img_src img))
                    (images (scrapedData r)))) as [objs ->].
    simpl. eauto. }
  destruct Himg as [s1 E1]. rewrite E1. simpl.
  set (ok := fun s : list (string * JsVal) =>
               forall n v, In n nested -> obj_get (ns_context n) s = Some v ->
                           is_array v).
  assert (H0 : ok (obj_assign s1 custom)).
  { intros n v Hin Hg. apply obj_assign_get_inv in Hg. destruct Hg as [Hg|Hg].
    - rewrite Forall_forall in Hn. apply list_elem_of_In in Hin.
      destruct (Hn n Hin) as [Hk _].
      pose proof (before_nested_get URL_href r main [] s1 (ns_context n) E1 Hk
                    eq_refl) as Hnone.
      unfold obj_assign in Hnone. simpl in Hnone. congruence.
    - exact (Hc n v Hin Hg). }
  assert (Habs : forall keys o,
             exists o', exn_fold (absolutize_step URL_href r) keys o = Ok o').
  { induction keys as [|k keys IH]; intros o; simpl; [eauto|].
    unfold absolutize_step at 1.
    destruct (obj_get k o) as [[| | |s| |]|]; simpl; try apply IH.
    destruct (Js.startsWith s "/"); simpl; [|apply IH].
    destruct (HU s) as [u ->]. simpl. apply IH. }
  assert (Hloop : forall l s,
             (forall n, In n l -> In n nested) -> ok s ->
             exists s', exn_fold (nested_step URL_href r) l s = Ok s').
  { induction l as [|n l IH]; intros s Hsub Hs; simpl; [eauto|].
    assert (Hin : In n nested) by (apply Hsub; now left).
    assert (Hstep : exists s1', nested_step URL_href r s n = Ok s1' /\ ok s1').
    { unfold nested_step. cbv zeta.
      destruct (Habs (obj_keys (obj_assign [("@type", JStr (ns_type n))]
                                  (ns_properties n)))
                  (obj_assign [("@type", JStr (ns_type n))] (ns_properties n)))
        as [ns ->]. simpl.
      assert (Hi : inherited (ns_context n) = false).
      { rewrite Forall_forall in Hn. apply list_elem_of_In in Hin.
        exact (proj2 (Hn n Hin)). }
      assert (Hset : forall items s0,
                 ok s0 -> ok (obj_set (ns_context n) (JArr items) s0)).
      { intros items s0 H0' m v Hm. rewrite obj_get_set.
        destruct (String.eqb (ns_context n) (ns_context m)).
        - intros [= <-]. exact I.
        - apply H0'. exact Hm. }
      destruct (obj_get (ns_context n) s) as [v|] eqn:G.
      - pose proof (Hs n v Hin G) as Hv. destruct v; try contradiction.
        simpl. rewrite G. eexists. split; [reflexivity|]. now apply Hset.
      - rewrite Hi. simpl. rewrite obj_get_set_eq.
        eexists. split; [reflexivity|]. now apply Hset, Hset. }
    destruct Hstep as (s1' & -> & Hok). simpl.
    apply IH; [|exact Hok]. intros m Hm. apply Hsub. now right. }
  destruct (Hloop nested (obj_assign s1 custom) (fun n H => H) H0) as [s' ->].
  simpl. eauto.
Qed.



(** C6, as amended: every image with a non-empty [src] becomes an
    [ImageObject] whose [url] is the [src] itself when the [src] starts
    with the four characters [http], and otherwise the [src] resolved
    against the URL of the result; with the URL [https://x.test/page] and
    the [src] [/img.png] the [url] is [https://x.test/img.png]. *)
Theorem image_url_http_prefix_or_resolved URL_href r main nested custom :
  (forall schema,
      build_schema URL_href r main nested custom = Ok schema ->
      images (scrapedData r) <> [] ->
      obj_get "image" custom = None ->
      Forall (fun n => ns_context n <> "image") nested ->
      exists objs out,
        generateSchemaMarkup URL_href r main nested custom = Ok (JObj out) /\
        obj_get "image" out = Some (collapsed (JArr objs)) /\
        Forall2
          (fun img o =>
             exists u,
               o = JObj [ ("@type", JStr "ImageObject"); ("url", JStr u);
                          ("alt", JStr (match Js.or_undefined (img_alt img) with
                                        | Some alt => alt
                                        | None => title r
                                        end)) ] /\
               (if Js.startsWith (img_src img) "http" then u = img_src img
                else URL_href (img_src img) (url r) = Ok u))
          (List.filter (fun img => Js.truthy (img_src img)) (images (scrapedData r)))
          objs) /\
  (forall img,
      url r = "https://x.test/page" ->
      images (scrapedData r) = [img] ->
      img_src img = "/img.png" ->
      URL_href "/img.png" "https://x.test/page" = Ok "https://x.test/img.png" ->
      nested = [] ->
      custom = [] ->
      exists out o,
        generateSchemaMarkup URL_href r main nested custom = Ok (JObj out) /\
        obj_get "image" out = Some (JObj o) /\
        obj_get "url" o = Some (JStr "https://x.test/img.png")).
Proof.
  split.
  - intros schema Hb Hne Hc Hn.
    destruct (build_schema_image _ _ _ _ _ _ Hb Hne Hc Hn) as (objs & Hm & Hg).
    pose proof (generateSchemaMarkup_collapse URL_href r main nested custom) as H.
    rewrite Hb in H. destruct H as (out & Hout & _ & Hget).
    exists objs, out. split; [exact Hout|]. split; [now rewrite Hget, Hg|].
    apply exn_map_Forall2 in Hm.
    clear Hg Hget. induction Hm as [|img o l objs' Ho _ IH].
    + constructor.
    + constructor; [exact (image_object_shape _ _ _ _ Ho) | exact IH].
  - intros img Hu Hi Hs HU -> ->.
    unfold generateSchemaMarkup, build_schema, add_images, add_description.
    rewrite Hi. cbn [length Nat.ltb Nat.leb List.filter]. rewrite Hs.
    cbn [Js.truthy exn_map]. unfold image_object. rewrite Hs, Hu.
    change (Js.startsWith "/img.png" "http") with false. cbv iota. rewrite HU.
    destruct (Js.or_undefined (description r)); cbn;
      eexists; eexists; (split; [reflexivity|]); split; reflexivity.
Qed.

Lemma image_url_http_prefix_or_resolved_witness :
  exists out o,
    generateSchemaMarkup SampleURL.href (Samples.result [Samples.image "/img.png"])
      "WebPage" [] [] = Ok (JObj out) /\
    obj_get "image" out = Some (JObj o) /\
    obj_get "url" o = Some (JStr "https://x.test/img.png").
Proof.
  apply (proj2 (image_url_http_prefix_or_resolved SampleURL.href
                  (Samples.result [Samples.image "/img.png"]) "WebPage" [] [])
           (Samples.image "/img.png")); reflexivity.
Defined.

(** C6, as stated, fails: the [src] [httpdocs/logo.png] has no scheme and
    resolves to [https://x.test/httpdocs/logo.png], yet it starts with
    [http] and the synthesis keeps it as it is. *)
Lemma image_url_without_scheme_kept :
  SampleURL.has_scheme "httpdocs/logo.png" = false /\
  SampleURL.href "httpdocs/logo.png" "https://x.test/page" =
    Ok "https://x.test/httpdocs/logo.png" /\
  generateSchemaMarkup SampleURL.href
    (Samples.result [Samples.image "httpdocs/logo.png"]) "WebPage" [] [] =
  Ok (JObj [ ("@context", JStr "https://schema.org"); ("@type", JStr "WebPage");
             ("name", JStr "Shop"); ("url", JStr "https://x.test/page");
             ("image", JObj [ ("@type", JStr "ImageObject");
                              ("url", JStr "httpdocs/logo.png");
                              ("alt", JStr "Shop") ]) ]).
Proof. repeat split; reflexivity. Qed.

(** ** Examples *)

Example split_ws_example : Js.split_ws " a  b " = [""; "a"; "b"; ""].
Proof. reflexivity. Qed.

Example split_char_example : Js.split_char " " "a  b" = ["a"; ""; "b"].
Proof. reflexivity. Qed.

Example trim_example : Js.trim "  a b  " = "a b".
Proof. reflexivity. Qed.

Example includes_example :
  Js.includes "shopping" "shop" = true /\ Js.includes "shop" "shopping" = false.
Proof. split; reflexivity. Qed.

Example parseInt_example :
  parseInt " -12px" = Int (-12) /\ parseInt "0x1F" = Int 31 /\ parseInt "px" = NaN.
Proof. repeat split; reflexivity. Qed.

Example href_example :
  SampleURL.href "a.png" "https://x.test/dir/page" = Ok "https://x.test/dir/a.png" /\
  SampleURL.href "data:image/png;base64,AA" "https://x.test/" =
    Ok "data:image/png;base64,AA" /\
  SampleURL.href "/a.png" "x.test" = Throw.
Proof. repeat split; reflexivity. Qed.

(** A class attribute is cut at the space character only: a tab stays
    inside the token. *)
Example class_token_with_tab :
  class_tokens_of
    (Element "div" [("class", String "a" (String (ascii_of_nat 9) "b"))] []) =
  [String "a" (String (ascii_of_nat 9) "b")].
Proof. reflexivity. Qed.

(** A context that names a field holding a string makes the synthesis
    throw. *)
Example nested_context_name_throws :
  generateSchemaMarkup SampleURL.href (Samples.result []) "WebPage"
    [{| ns_type := "Person"; ns_context := "name"; ns_properties := [] |}] [] = Throw.
Proof. reflexivity. Qed.

(** One image without [src]: the list of image objects is empty and stays
    a list. *)
Example image_without_src :
  exists out,
    generateSchemaMarkup SampleURL.href (Samples.result [Samples.image ""])
      "WebPage" [] [] = Ok (JObj out) /\
    obj_get "image" out = Some (JArr []).
Proof. eexists. split; reflexivity. Qed.

(** The two versions of the synthesis give the same document. *)
Example store_agrees_with_values :
  Store.synthesize SampleURL.href
    (Samples.result [Samples.image "/img.png"; Samples.image "http://y.test/b.png"])
    "Product" [Samples.offer; Samples.offer] [("offers", JArr []); ("sku", JStr "1")] =
  match generateSchemaMarkup SampleURL.href
          (Samples.result [Samples.image "/img.png"; Samples.image "http://y.test/b.png"])
          "Product" [Samples.offer; Samples.offer]
          [("offers", JArr []); ("sku", JStr "1")] with
  | Ok v => Ok (Some v)
  | Throw => Throw
  end /\
  Store.synthesize SampleURL.href (Samples.result [Samples.image "/img.png"])
    "Product" [Samples.offer] [] =
  match generateSchemaMarkup SampleURL.href (Samples.result [Samples.image "/img.png"])
          "Product" [Samples.offer] [] with
  | Ok v => Ok (Some v)
  | Throw => Throw
  end.
Proof. split; reflexivity. Qed.

(** An array that [customProperties] holds under the context of a nested
    schema is the array that the nested schema is pushed to: the cell of
    that array changes. *)
Example customProperties_array_extended :
  let before :=
    fst (Store.load (JObj [("offers", JArr [JNum 1])]) []) in
  let after :=
    fst (Store.bind (Store.load_analysis (Samples.result [])) (fun a =>
         Store.bind (Store.mapM Store.load_nested [Samples.offer]) (fun ns =>
         Store.bind (Store.load (JObj [("offers", JArr [JNum 1])])) (fun c =>
         Store.generateSchemaMarkup SampleURL.href a "Product" ns c))) []) in
  before !! 0 = Some (Store.CArr [Store.VNum 1]) /\
  after !! 4 = Some (Store.CArr [Store.VNum 1; Store.VRef 7]).
Proof. split; reflexivity. Qed.

(** ** The snapshot and the flags *)

Lemma collectScrapedData_scraped JSON_parse d h :
  collectScrapedData JSON_parse d h = Ok (scraped JSON_parse d h).
Proof.
  unfold collectScrapedData, scraped. rewrite collect_structuredData_ok.
  destruct (collect_classes_ids d) as [cs ids]. reflexivity.
Qed.

Lemma analyzeWebsite_scraped JSON_parse d h u :
  exists r,
    analyzeWebsite JSON_parse d h u = Ok r /\
    url r = u /\
    title r = collect_title d /\
    detectedElements r = detectElements d /\
    technicalDetails r = detectTechnicalDetails d /\
    websiteType r = classify d u /\
    scrapedData r = scraped JSON_parse d h.
Proof.
  unfold analyzeWebsite. rewrite collectScrapedData_scraped. simpl.
  eexists. split; [reflexivity|]. repeat split.
Qed.

Lemma existsb_orb {A} (f g : A -> bool) l :
  existsb (fun x => f x || g x) l = existsb f l || existsb g l.
Proof.
  induction l as [|x l IH]; simpl; [reflexivity|]. rewrite IH.
  destruct (f x), (g x), (existsb f l), (existsb g l); reflexivity.
Qed.

Lemma existsb_pointwise {A} (f g : A -> bool) l :
  (forall x, f x = g x) -> existsb f l = existsb g l.
Proof. intros H. induction l as [|x l IH]; simpl; [reflexivity|]. now rewrite H, IH. Qed.

Lemma select_nonempty d s : select d s <> [] <-> found d s = true.
Proof.
  unfold found. destruct (select d s); simpl; split; intros H;
    try reflexivity; try discriminate; now destruct H.
Qed.

Lemma found_union d a b c :
  found d [a; b; c] = found d [a] || found d [b] || found d [c].
Proof.
  rewrite !found_existsb, <- !existsb_orb. apply existsb_pointwise. intros n.
  unfold matches. simpl. rewrite !orb_false_r.
  destruct (forallb _ a), (forallb _ b), (forallb _ c); reflexivity.
Qed.

Lemma map_nonempty {A B} (f : A -> B) l : map f l <> [] <-> l <> [].
Proof. destruct l; simpl; split; congruence. Qed.

(** X1: the flags [hasImages], [hasForms] and [hasVideo] agree with the
    lists of the snapshot: each is true exactly when the list of images,
    of forms, of videos is not empty. *)
Theorem flags_agree_with_snapshot JSON_parse d h u :
  exists r,
    analyzeWebsite JSON_parse d h u = Ok r /\
    (hasImages (detectedElements r) = true <-> images (scrapedData r) <> []) /\
    (hasForms (detectedElements r) = true <-> forms (scrapedData r) <> []) /\
    (hasVideo (detectedElements r) = true <-> videos (scrapedData r) <> []).
Proof.
  destruct (analyzeWebsite_scraped JSON_parse d h u)
    as (r & Hr & _ & _ & He & _ & _ & Hs).
  exists r. split; [exact Hr|]. rewrite He, Hs. simpl.
  rewrite !map_nonempty, !select_nonempty.
  split; [reflexivity|]. split; [reflexivity|].
  rewrite found_union. reflexivity.
Qed.

Lemma select_matches d s n : In n (select d s) -> matches s n = true.
Proof. unfold select. intros H. apply filter_In in H. tauto. Qed.

Lemma select_In d s n : In n (select d s) -> In n (all_elements d).
Proof. unfold select. intros H. apply filter_In in H. tauto. Qed.

Ltac split_tests H :=
  repeat first
    [ apply orb_prop in H; destruct H as [H|H]
    | apply andb_prop in H; destruct H as [H _] ].

(** X2: the fallback [unknown] is never used: a collected video has the
    type [video] or [iframe], and a collected form input has its [type]
    attribute when that is not empty and otherwise the name of its tag,
    [input], [select] or [textarea]. *)
Theorem tag_name_fallback_unused JSON_parse d h :
  exists s,
    collectScrapedData JSON_parse d h = Ok s /\
    Forall (fun v => video_type v = "video" \/ video_type v = "iframe") (videos s) /\
    Forall (fun f =>
              Forall (fun i => input_type i <> "" /\
                               (input_type i = "unknown" ->
                                exists el, attr "type" el = Some "unknown" /\
                                           i = collect_input el))
                     (form_inputs f))
           (forms s).
Proof.
  exists (scraped JSON_parse d h). split; [apply collectScrapedData_scraped|].
  simpl. split.
  - apply Forall_forall. intros v Hv. apply list_elem_of_In in Hv.
    apply in_map_iff in Hv. destruct Hv as (el & <- & Hel).
    apply select_matches in Hel. unfold matches in Hel. simpl in Hel.
    unfold collect_video, tagName_or_unknown. simpl.
    rewrite !orb_false_r, !andb_true_r in Hel.
    split_tests Hel; apply String.eqb_eq in Hel; rewrite Hel; auto.
  - apply Forall_forall. intros f Hf. apply list_elem_of_In in Hf.
    apply in_map_iff in Hf. destruct Hf as (fe & <- & _).
    apply Forall_forall. intros i Hi. apply list_elem_of_In in Hi.
    simpl in Hi. apply in_map_iff in Hi. destruct Hi as (el & <- & Hel).
    apply filter_In in Hel. destruct Hel as [_ Hel].
    unfold matches in Hel. simpl in Hel. rewrite !orb_false_r, !andb_true_r in Hel.
    unfold collect_input. simpl.
    destruct (Js.or_undefined (attr "type" el)) as [t|] eqn:Et.
    + unfold Js.or_undefined, Js.or_else in Et.
      destruct (attr "type" el) as [t'|] eqn:Ea; [|discriminate].
      destruct (Js.truthy t') eqn:Tt; [|discriminate]. injection Et as <-.
      split; [intros ->; discriminate|].
      intros ->. exists el. split; [exact Ea|].
      unfold collect_input. simpl. unfold Js.or_undefined, Js.or_else.
      rewrite Ea. reflexivity.
    + assert (Ht : tagName_or_unknown el = "input" \/
                   tagName_or_unknown el = "select" \/
                   tagName_or_unknown el = "textarea").
      { unfold tagName_or_unknown.
        split_tests Hel; apply String.eqb_eq in Hel; rewrite Hel; auto. }
      destruct Ht as [-> | [-> | ->]]; split; discriminate.
Qed.

(** ** Strings *)

Lemma append_nil_l (s : string) : "" +:+ s = s.
Proof. reflexivity. Qed.

Lemma append_cons c (a b : string) : String c a +:+ b = String c (a +:+ b).
Proof. reflexivity. Qed.

Ltac sapp := rewrite ?append_cons, ?append_nil_l.

Lemma prefix_app p s : String.prefix p s = true <-> exists b, s = p +:+ b.
Proof.
  revert s. induction p as [|c p IH]; intros s.
  - split; [intros _; exists s; reflexivity | intros _; destruct s; reflexivity].
  - destruct s as [|c' s]; simpl.
    + split; [discriminate | intros [b Hb]; discriminate].
    + destruct (Ascii.ascii_dec c c') as [->|Hc].
      * rewrite IH. split; intros [b Hb]; exists b; sapp; [now rewrite Hb|].
        rewrite ?append_cons, ?append_nil_l in Hb. now injection Hb.
      * split; [discriminate|]. intros [b Hb]. rewrite ?append_cons, ?append_nil_l in Hb. injection Hb; intros; congruence.
Qed.

Lemma append_assoc (a b c : string) : (a +:+ b) +:+ c = a +:+ (b +:+ c).
Proof. induction a as [|x a IH]; sapp; [reflexivity | now rewrite IH]. Qed.

Lemma append_nil_r (a : string) : a +:+ "" = a.
Proof. induction a as [|x a IH]; sapp; [reflexivity | now rewrite IH]. Qed.

Lemma includes_nil sub : Js.includes "" sub = String.prefix sub "" || false.
Proof. reflexivity. Qed.

Lemma includes_cons c s sub :
  Js.includes (String c s) sub = String.prefix sub (String c s) || Js.includes s sub.
Proof. reflexivity. Qed.

Lemma includes_app s sub :
  Js.includes s sub = true <-> exists a b, s = a +:+ sub +:+ b.
Proof.
  split.
  - induction s as [|c s IH]; intros H.
    + rewrite includes_nil, orb_false_r in H. apply prefix_app in H.
      destruct H as [b Hb]. exists "", b. exact Hb.
    + rewrite includes_cons in H. apply orb_prop in H. destruct H as [H|H].
      * apply prefix_app in H. destruct H as [b Hb]. exists "", b. exact Hb.
      * destruct (IH H) as (a & b & Hab). exists (String c a), b. sapp. now rewrite Hab.
  - intros (a & b & ->). induction a as [|c a IH]; sapp.
    + assert (Hp : String.prefix sub (sub +:+ b) = true) by (apply prefix_app; eauto).
      destruct (sub +:+ b); [rewrite includes_nil | rewrite includes_cons];
        rewrite Hp; reflexivity.
    + rewrite includes_cons, IH. apply orb_true_r.
Qed.

Lemma includes_trans s t u :
  Js.includes s t = true -> Js.includes t u = true -> Js.includes s u = true.
Proof.
  rewrite !includes_app. intros (a & b & ->) (a' & b' & ->).
  exists (a +:+ a'), (b' +:+ b). now rewrite !append_assoc.
Qed.

Lemma includes_refl s : Js.includes s s = true.
Proof. apply includes_app. exists "", "". sapp. now rewrite append_nil_r. Qed.

Lemma all_chars_app p a b :
  all_chars p (a +:+ b) = all_chars p a && all_chars p b.
Proof.
  unfold all_chars. induction a as [|c a IH]; sapp; simpl; [reflexivity|].
  now rewrite IH, andb_assoc.
Qed.

Lemma all_chars_includes p s sub :
  Js.includes s sub = true -> all_chars p s = true -> all_chars p sub = true.
Proof.
  intros H. apply includes_app in H. destruct H as (a & b & ->).
  rewrite !all_chars_app. intros H.
  apply andb_prop in H. destruct H as [_ H]. apply andb_prop in H. tauto.
Qed.

(** *** Splitting at white space *)

Lemma split_ws_from_head s :
  exists w ws b, Js.split_ws_from false s = w :: ws /\ s = w +:+ b.
Proof.
  induction s as [|c s (w & ws & b & Hs & Hb)]; simpl.
  - exists "", [], "". split; reflexivity.
  - destruct (Js.is_space c).
    + exists "", (Js.split_ws_from true s), (String c s). split; reflexivity.
    + rewrite Hs. simpl. exists (String c w), ws, b. split; [reflexivity|].
      sapp. now rewrite <- Hb.
Qed.

Lemma split_ws_from_substring r s w :
  In w (Js.split_ws_from r s) -> Js.includes s w = true.
Proof.
  revert r. induction s as [|c s IH]; intros r; simpl.
  - intros [<-|[]]. reflexivity.
  - destruct (Js.is_space c).
    + intros H.
      assert (H' : w = "" \/ In w (Js.split_ws_from true s)).
      { destruct r; [right; exact H|]. destruct H as [<-|H]; auto. }
      destruct H' as [->|H'].
      * reflexivity.
      * rewrite (IH _ H'). apply orb_true_r.
    + destruct (split_ws_from_head s) as (w0 & ws & b & Hs & Hb).
      rewrite Hs. simpl. intros [<-|H].
      * assert (Hp : String.prefix (String c w0) (String c s) = true)
          by (apply prefix_app; exists b; sapp; now rewrite <- Hb).
        simpl in Hp. rewrite Hp. reflexivity.
      * rewrite (IH false); [apply orb_true_r|]. rewrite Hs. now right.
Qed.

Lemma split_ws_from_no_space r s w :
  In w (Js.split_ws_from r s) -> no_space w = true.
Proof.
  revert r w. induction s as [|c s IH]; intros r w; simpl.
  - intros [<-|[]]. reflexivity.
  - destruct (Js.is_space c) eqn:Ec.
    + intros H.
      assert (H' : w = "" \/ In w (Js.split_ws_from true s)).
      { destruct r; [right; exact H|]. destruct H as [<-|H]; auto. }
      destruct H' as [->|H']; [reflexivity | eauto].
    + destruct (Js.split_ws_from false s) as [|w0 ws] eqn:Hs; simpl.
      * intros [<-|[]]. unfold no_space, all_chars. simpl. now rewrite Ec.
      * intros [<-|H].
        -- unfold no_space, all_chars. simpl. rewrite Ec. simpl.
           apply (IH false w0). rewrite Hs. now left.
        -- apply (IH false w). rewrite Hs. now right.
Qed.

(** *** Lower case *)

Lemma lower_lower c : Js.lower (Js.lower c) = Js.lower c.
Proof. destruct c as [[] [] [] [] [] [] [] []]; reflexivity. Qed.

Lemma toLowerCase_fixed s :
  Js.toLowerCase s = s <-> all_chars (fun c => Ascii.eqb (Js.lower c) c) s = true.
Proof.
  unfold all_chars. induction s as [|c s IH]; simpl; [tauto|].
  rewrite andb_true_iff, <- IH, Ascii.eqb_eq. split.
  - intros H. injection H. auto.
  - intros [-> ->]. reflexivity.
Qed.

Lemma toLowerCase_idem s : Js.toLowerCase (Js.toLowerCase s) = Js.toLowerCase s.
Proof. induction s as [|c s IH]; simpl; [reflexivity|]. now rewrite lower_lower, IH. Qed.

(** ** Class tests and substring tests *)

Lemma cls_attr_sub_matches c n :
  matches (cls c) n = true -> matches (attr_sub "class" c) n = true.
Proof.
  unfold matches, cls, attr_sub. simpl. rewrite !orb_false_r, !andb_true_r.
  unfold has_class. destruct (attr "class" n) as [v|]; [|discriminate].
  intros H. apply existsb_exists in H. destruct H as (w & Hw & He).
  apply String.eqb_eq in He. subst w. eapply split_ws_from_substring. exact Hw.
Qed.

Lemma cls_attr_sub_found d c :
  found d (cls c) = true -> found d (attr_sub "class" c) = true.
Proof.
  intros H. apply found_elim in H. destruct H as (n & Hn & Hm).
  eapply found_intro; [exact Hn|]. now apply cls_attr_sub_matches.
Qed.

Lemma cls_or_attr_sub d c :
  found d (cls c) || found d (attr_sub "class" c) = found d (attr_sub "class" c).
Proof.
  destruct (found d (cls c)) eqn:E; [|reflexivity].
  now rewrite (cls_attr_sub_found _ _ E).
Qed.

(** X3: the forum rule holds exactly when the class attribute of some
    element contains [thread] or [topic]; [hasComments] and [hasUserAuth]
    have no effect on it. *)
Theorem forum_rule_ignores_flags d e :
  cond_forum d e =
  found d (attr_sub "class" "thread") || found d (attr_sub "class" "topic").
Proof.
  unfold cond_forum.
  pose proof (cls_attr_sub_found d "thread") as H1.
  pose proof (cls_attr_sub_found d "topic") as H2.
  destruct (found d (cls "thread")), (found d (attr_sub "class" "thread")),
    (found d (cls "topic")), (found d (attr_sub "class" "topic")),
    (hasComments e), (hasUserAuth e); simpl; try reflexivity;
    first [discriminate (H1 eq_refl) | discriminate (H2 eq_refl)].
Qed.

Lemma attr_sub_weaken d a v w :
  case_insensitive_attr a = false ->
  Js.includes v w = true ->
  found d (attr_sub a v) = true -> found d (attr_sub a w) = true.
Proof.
  intros Ha Hvw H. apply found_elim in H. destruct H as (n & Hn & Hm).
  eapply found_intro; [exact Hn|]. revert Hm.
  unfold matches, attr_sub. cbn [existsb forallb matches_simple].
  unfold attr_value_includes. rewrite Ha, !orb_false_r, !andb_true_r.
  destruct (attr a n) as [x|]; [|discriminate].
  intros Hx. eapply includes_trans; eassumption.
Qed.

Ltac class_cases :=
  unfold class_contains;
  repeat match goal with
         | |- context [found ?d (cls ?c)] =>
             let H := fresh "H" in
             pose proof (cls_attr_sub_found d c) as H;
             destruct (found d (cls c));
             [ rewrite (H eq_refl) | clear H ]
         end;
  rewrite ?orb_true_r, ?orb_false_r, ?orb_true_l, ?orb_false_l; try reflexivity.

Ltac found_cases :=
  repeat match goal with
         | |- context [found ?d ?s] => destruct (found d s)
         end.

(** X4: the classifier is the first-match chain over the substring
    tests alone: a test of a class [c] that stands beside the test that
    a class attribute contains [c] decides nothing, the class
    [government] is covered by the substring [gov], and of the class
    tests only [documentation] remains. *)
Theorem determineWebsiteType_by_substring d e t u :
  determineWebsiteType d e t u = first_match (rules_by_substring d e t u).
Proof.
  assert (Hgov : found d (cls "government") = true -> class_contains d "gov" = true).
  { intros H. apply cls_attr_sub_found in H.
    revert H. apply attr_sub_weaken; reflexivity. }
  assert (E1 : cond_ecommerce d e t =
               hasShoppingCart e || (0 <? length (paymentMethods t))%nat ||
               class_contains d "product" || class_contains d "price").
  { unfold cond_ecommerce. class_cases. }
  assert (E2 : cond_blog d =
               found d (tag "article") || class_contains d "post" ||
               class_contains d "blog").
  { unfold cond_blog. class_cases.
    all: destruct (found d (tag "article")); simpl; try reflexivity.
    all: found_cases; reflexivity. }
  assert (E3 : cond_news d =
               class_contains d "news" || class_contains d "article" ||
               class_contains d "headline").
  { unfold cond_news. class_cases.
    all: found_cases; reflexivity. }
  assert (E4 : cond_portfolio d =
               class_contains d "portfolio" || class_contains d "gallery" ||
               class_contains d "work").
  { unfold cond_portfolio. class_cases.
    all: found_cases; reflexivity. }
  assert (E6 : cond_forum d e = class_contains d "thread" || class_contains d "topic").
  { unfold cond_forum. class_cases.
    all: found_cases; rewrite ?andb_false_r; reflexivity. }
  assert (E7 : cond_documentation d =
               found d (cls "documentation") || class_contains d "docs" ||
               class_contains d "tutorial" || class_contains d "guide").
  { unfold cond_documentation, class_contains.
    pose proof (cls_attr_sub_found d "tutorial") as H1.
    pose proof (cls_attr_sub_found d "guide") as H2.
    destruct (found d (cls "tutorial")), (found d (cls "guide")),
      (found d (attr_sub "class" "tutorial")), (found d (attr_sub "class" "guide")),
      (found d (cls "documentation")), (found d (attr_sub "class" "docs"));
      simpl; try reflexivity;
      first [discriminate (H1 eq_refl) | discriminate (H2 eq_refl)]. }
  assert (E8 : cond_saas d e =
               hasUserAuth e && hasForms e &&
               (class_contains d "dashboard" || class_contains d "app")).
  { unfold cond_saas. class_cases.
    all: found_cases; reflexivity. }
  assert (E9 : cond_educational d =
               class_contains d "course" || class_contains d "lesson" ||
               class_contains d "education").
  { unfold cond_educational. class_cases.
    all: found_cases; reflexivity. }
  assert (E10 : cond_entertainment d e =
                hasVideo e && (class_contains d "entertainment" ||
                               class_contains d "media")).
  { unfold cond_entertainment. class_cases.
    all: found_cases; reflexivity. }
  assert (E11 : cond_government d u = class_contains d "gov" || Js.includes u ".gov").
  { unfold cond_government.
    pose proof (cls_attr_sub_found d "gov") as H1.
    unfold class_contains in *.
    destruct (found d (cls "gov")), (found d (cls "government")),
      (found d (attr_sub "class" "gov")), (Js.includes u ".gov");
      simpl; try reflexivity;
      first [discriminate (H1 eq_refl) | discriminate (Hgov eq_refl)]. }
  assert (E12 : cond_nonprofit d =
                class_contains d "nonprofit" || class_contains d "charity" ||
                class_contains d "donate").
  { unfold cond_nonprofit. class_cases.
    all: found_cases; reflexivity. }
  assert (E13 : cond_landing_page d = class_contains d "landing" || class_contains d "hero").
  { unfold cond_landing_page. class_cases.
    all: found_cases; reflexivity. }
  assert (E14 : cond_corporate d e =
                hasNavigation e && hasFooter e &&
                (class_contains d "about" || class_contains d "contact")).
  { unfold cond_corporate. class_cases.
    all: found_cases; reflexivity. }
  unfold determineWebsiteType.
  rewrite E1, E2, E3, E4, E6, E7, E8, E9, E10, E11, E12, E13, E14.
  unfold rules_by_substring, first_match, cond_social_media.
  repeat match goal with |- context [if ?c then _ else _] => destruct c end;
    reflexivity.
Qed.

(** ** The indicator lists *)

Lemma indicators_word p t w :
  In w (indicators p t) ->
  p w = true /\ no_space w = true /\ Js.toLowerCase w = w /\
  Js.includes (Js.toLowerCase t) w = true.
Proof.
  unfold indicators, Js.split_ws. intros H. apply filter_In in H.
  destruct H as [Hw Hp]. split; [exact Hp|].
  split; [eapply split_ws_from_no_space; exact Hw|].
  pose proof (split_ws_from_substring _ _ _ Hw) as Hs. split; [|exact Hs].
  apply toLowerCase_fixed. eapply all_chars_includes; [exact Hs|].
  apply toLowerCase_fixed, toLowerCase_idem.
Qed.

(** X5: every entry of [paymentIndicators], [ecommerceIndicators] and
    [contentIndicators] is a non-empty word of the lower-cased text of the
    page: it holds no white space, it is in lower case, and it occurs in
    the lower-cased [allTextContent]. *)
Theorem indicators_are_lowercase_words JSON_parse d h :
  exists s,
    collectScrapedData JSON_parse d h = Ok s /\
    forall w,
      In w (paymentIndicators s) \/ In w (ecommerceIndicators s) \/
      In w (contentIndicators s) ->
      w <> "" /\ no_space w = true /\ Js.toLowerCase w = w /\
      Js.includes (Js.toLowerCase (allTextContent s)) w = true.
Proof.
  exists (scraped JSON_parse d h). split; [apply collectScrapedData_scraped|].
  simpl. intros w [H | [H | H]]; apply indicators_word in H;
    destruct H as (Hp & Hrest); (split; [intros ->; discriminate Hp | exact Hrest]).
Qed.

Lemma no_space_excludes w kw :
  no_space w = true -> no_space kw = false -> Js.includes w kw = false.
Proof.
  intros Hw Hk. destruct (Js.includes w kw) eqn:E; [|reflexivity].
  unfold no_space in *. rewrite (all_chars_includes _ _ _ E Hw) in Hk. discriminate.
Qed.

Lemma filter_pointwise {A} (f g : A -> bool) l :
  (forall x, In x l -> f x = g x) -> List.filter f l = List.filter g l.
Proof.
  induction l as [|x l IH]; simpl; intros H; [reflexivity|].
  rewrite (H x), IH by auto. reflexivity.
Qed.

(** X6: the keywords [add to cart] and [buy now] of
    [ecommerceIndicators] select nothing: the text is cut at white space
    before the keywords are looked for, so that no word holds a space,
    and the list is the one that the other eight keywords give. *)
Theorem ecommerce_keywords_with_space_dead JSON_parse d h :
  exists s,
    collectScrapedData JSON_parse d h = Ok s /\
    ecommerceIndicators s = indicators is_ecommerce_word_single (allTextContent s) /\
    Forall (fun w => Js.includes w "add to cart" = false /\
                     Js.includes w "buy now" = false)
           (Js.split_ws (Js.toLowerCase (allTextContent s))).
Proof.
  exists (scraped JSON_parse d h). split; [apply collectScrapedData_scraped|].
  simpl.
  assert (Hdead : forall w,
             In w (Js.split_ws (Js.toLowerCase (collect_allTextContent d))) ->
             Js.includes w "add to cart" = false /\ Js.includes w "buy now" = false).
  { intros w Hw. apply split_ws_from_no_space in Hw.
    split; apply no_space_excludes; auto. }
  split.
  - unfold indicators. apply filter_pointwise. intros w Hw.
    destruct (Hdead w Hw) as [H1 H2].
    unfold is_ecommerce_word, is_ecommerce_word_single. rewrite H1, H2.
    now rewrite !orb_false_r.
  - apply Forall_forall. intros w Hw. apply list_elem_of_In in Hw. auto.
Qed.

(** ** The text of the page *)

Lemma collapse_ws_from_chars r s :
  all_chars (fun c => negb (Js.is_space c) || Ascii.eqb c " ")
    (Js.collapse_ws_from r s) = true.
Proof.
  revert r. induction s as [|c s IH]; intros r; simpl; [reflexivity|].
  destruct (Js.is_space c) eqn:Ec.
  - destruct r; [apply IH|]. unfold all_chars. simpl. apply IH.
  - unfold all_chars. simpl. rewrite Ec. simpl. apply IH.
Qed.

Lemma collapse_ws_from_run s : starts_with_space (Js.collapse_ws_from true s) = false.
Proof.
  induction s as [|c s IH]; simpl; [reflexivity|].
  destruct (Js.is_space c) eqn:Ec; [exact IH | simpl; exact Ec].
Qed.

Lemma prefix_cons a p b s :
  String.prefix (String a p) (String b s) = true <->
  a = b /\ String.prefix p s = true.
Proof.
  change (String.prefix (String a p) (String b s))
    with (if Ascii.ascii_dec a b then String.prefix p s else false).
  destruct (Ascii.ascii_dec a b); split; try tauto; try discriminate.
Qed.

Lemma prefix_space s : starts_with_space s = false -> String.prefix " " s = false.
Proof.
  destruct s as [|c s]; [reflexivity|]. intros Hc.
  destruct (String.prefix " " (String c s)) eqn:E; [|reflexivity].
  apply prefix_cons in E. destruct E as [<- _]. discriminate Hc.
Qed.

Lemma collapse_ws_from_double r s :
  Js.includes (Js.collapse_ws_from r s) "  " = false.
Proof.
  revert r. induction s as [|c s IH]; intros r; simpl; [reflexivity|].
  destruct (Js.is_space c) eqn:Ec.
  - destruct r; [apply IH|]. rewrite includes_cons, IH, orb_false_r.
    pose proof (prefix_space _ (collapse_ws_from_run s)) as Hp.
    match goal with |- ?p = false => destruct p eqn:E; [|reflexivity] end.
    apply prefix_cons in E. destruct E as [_ E]. congruence.
  - rewrite includes_cons, IH, orb_false_r.
    match goal with |- ?p = false => destruct p eqn:E; [|reflexivity] end.
    apply prefix_cons in E. destruct E as [<- _]. discriminate Ec.
Qed.

Lemma trimStart_suffix s : exists a, s = a +:+ Js.trimStart s.
Proof.
  induction s as [|c s [a Ha]]; simpl; [exists ""; reflexivity|].
  destruct (Js.is_space c).
  - exists (String c a). sapp. now rewrite <- Ha.
  - exists "". reflexivity.
Qed.

Lemma trimEnd_prefix s : exists b, s = Js.trimEnd s +:+ b.
Proof.
  induction s as [|c s [b Hb]]; simpl; [exists ""; reflexivity|].
  destruct (Js.trimEnd s) as [|c' r] eqn:E.
  - destruct (Js.is_space c).
    + exists (String c s). reflexivity.
    + exists s. reflexivity.
  - exists b. rewrite append_cons. f_equal. exact Hb.
Qed.

Lemma trim_substring s : Js.includes s (Js.trim s) = true.
Proof.
  unfold Js.trim. destruct (trimStart_suffix s) as [a Ha].
  destruct (trimEnd_prefix (Js.trimStart s)) as [b Hb].
  apply includes_app. exists a, b. now rewrite <- Hb.
Qed.

Lemma trimStart_lead s : starts_with_space (Js.trimStart s) = false.
Proof.
  induction s as [|c s IH]; simpl; [reflexivity|].
  destruct (Js.is_space c) eqn:Ec; [exact IH | simpl; exact Ec].
Qed.

Lemma trimEnd_lead s :
  starts_with_space s = false -> starts_with_space (Js.trimEnd s) = false.
Proof.
  destruct s as [|c s]; simpl; [reflexivity|]. intros Hc.
  destruct (Js.trimEnd s); [rewrite Hc|]; simpl; auto.
Qed.

Lemma trimEnd_trail s : ends_with_space (Js.trimEnd s) = false.
Proof.
  induction s as [|c s IH]; simpl; [reflexivity|].
  destruct (Js.trimEnd s) as [|c' r] eqn:E.
  - destruct (Js.is_space c) eqn:Ec; simpl; [reflexivity | exact Ec].
  - exact IH.
Qed.

Lemma trimStart_fixed s : starts_with_space s = false -> Js.trimStart s = s.
Proof. destruct s as [|c s]; simpl; [reflexivity|]. now intros ->. Qed.

Lemma trimEnd_fixed s : ends_with_space s = false -> Js.trimEnd s = s.
Proof.
  induction s as [|c s IH]; [reflexivity|].
  destruct s as [|c' r].
  - simpl. now intros ->.
  - intros H. change (ends_with_space (String c' r) = false) in H.
    specialize (IH H). simpl in *. now rewrite IH.
Qed.

(** X7: [allTextContent] is normalised: its only white space is the
    space character, no two spaces follow each other, and it neither
    starts nor ends with white space, so that trimming it again changes
    nothing. *)
Theorem allTextContent_normalised JSON_parse d h :
  exists s,
    collectScrapedData JSON_parse d h = Ok s /\
    all_chars (fun c => negb (Js.is_space c) || Ascii.eqb c " ") (allTextContent s) = true /\
    Js.includes (allTextContent s) "  " = false /\
    starts_with_space (allTextContent s) = false /\
    ends_with_space (allTextContent s) = false /\
    Js.trim (allTextContent s) = allTextContent s.
Proof.
  exists (scraped JSON_parse d h). split; [apply collectScrapedData_scraped|].
  simpl. unfold collect_allTextContent.
  set (t := text (select d (tag "body"))).
  assert (Hl : starts_with_space (Js.trim (Js.collapse_ws t)) = false)
    by apply trimEnd_lead, trimStart_lead.
  assert (Ht : ends_with_space (Js.trim (Js.collapse_ws t)) = false)
    by apply trimEnd_trail.
  split; [|split; [|split; [exact Hl | split; [exact Ht|]]]].
  - eapply all_chars_includes; [apply trim_substring|].
    apply collapse_ws_from_chars.
  - destruct (Js.includes (Js.trim (Js.collapse_ws t)) "  ") eqn:E; [|reflexivity].
    rewrite <- (collapse_ws_from_double false t).
    symmetry. eapply includes_trans; [apply trim_substring | exact E].
  - unfold Js.trim at 1. rewrite (trimStart_fixed _ Hl). now apply trimEnd_fixed.
Qed.

(** ** Identifiers and meta tags *)

Lemma first_seen_complete l x : In x l -> In x (first_seen l).
Proof.
  revert x. induction l as [|y l IH]; intros x; simpl; [tauto|].
  destruct (String.eqb y x) eqn:E.
  - apply String.eqb_eq in E. now left.
  - intros [->|Hin]; [rewrite String.eqb_refl in E; discriminate|].
    right. apply filter_In. split; [now apply IH | now rewrite E].
Qed.

Lemma filter_all {A} (l : list A) : List.filter (fun _ => true) l = l.
Proof. induction l as [|x l IH]; simpl; [reflexivity | now rewrite IH]. Qed.

Lemma classes_ids_step_snd els cs ids :
  snd (fold_left classes_ids_step els (cs, ids)) =
  fold_left add_new
    (flat_map (fun el => match Js.or_undefined (attr "id" el) with
                         | Some id => [id]
                         | None => []
                         end) els) ids.
Proof.
  revert cs ids. induction els as [|el els IH]; intros cs ids; [reflexivity|].
  cbn [fold_left flat_map]. rewrite fold_left_app.
  unfold classes_ids_step at 2.
  destruct (Js.or_undefined (attr "id" el)) as [i|]; rewrite IH; [|reflexivity].
  cbn [fold_left]. unfold add_new at 3.
  destruct (Js.arr_includes ids i); reflexivity.
Qed.

Lemma collect_ids_first_seen d :
  snd (collect_classes_ids d) = first_seen (element_ids d).
Proof.
  unfold collect_classes_ids. rewrite classes_ids_step_snd, add_new_first_seen.
  simpl. apply filter_all.
Qed.

(** *** Class tokens and white space *)

Lemma no_space_edges w :
  no_space w = true -> starts_with_space w = false /\ ends_with_space w = false.
Proof.
  unfold no_space, all_chars. induction w as [|c w IH]; simpl; [auto|].
  intros H. apply andb_prop in H. destruct H as [Hc Hw].
  apply negb_true_iff in Hc. split; [exact Hc|].
  destruct w as [|c' w']; [exact Hc | exact (proj2 (IH Hw))].
Qed.

Lemma no_space_trim w : no_space w = true -> Js.trim w = w.
Proof.
  intros H. destruct (no_space_edges w H) as [Hs He].
  unfold Js.trim. rewrite (trimStart_fixed _ Hs). now apply trimEnd_fixed.
Qed.

Lemma space_separated_cons c v :
  space_separated (String c v) = true ->
  (if Ascii.eqb c " " then Js.is_space c = true else Js.is_space c = false) /\
  space_separated v = true.
Proof.
  unfold space_separated, all_chars. simpl. intros H.
  apply andb_prop in H. destruct H as [Hc Hv]. split; [|exact Hv].
  destruct (Ascii.eqb c " ") eqn:E.
  - apply Ascii.eqb_eq in E. subst c. reflexivity.
  - rewrite orb_false_r in Hc. now apply negb_true_iff in Hc.
Qed.

Lemma split_char_pieces v w :
  space_separated v = true -> In w (Js.split_char " " v) -> no_space w = true.
Proof.
  revert w. induction v as [|c v IH]; intros w Hv; simpl.
  - intros [<-|[]]. reflexivity.
  - destruct (space_separated_cons _ _ Hv) as [Hc Hv'].
    destruct (Ascii.eqb c " ").
    + intros [<-|H]; [reflexivity | now apply IH].
    + destruct (Js.split_char " " v) as [|w0 l]; simpl.
      * intros [<-|[]]. unfold no_space, all_chars. simpl. now rewrite Hc.
      * intros [<-|H].
        -- unfold no_space, all_chars. simpl. rewrite Hc. simpl.
           apply (IH w0 Hv'). now left.
        -- apply (IH w Hv'). now right.
Qed.

(** Where the only white space is the space character, cutting at the
    space character and cutting at white space give the same pieces but
    for empty ones. *)
Lemma split_char_split_ws v :
  space_separated v = true ->
  (exists w l1 l2,
      Js.split_char " " v = w :: l1 /\
      Js.split_ws_from false v = w :: l2 /\
      List.filter Js.truthy l1 = List.filter Js.truthy l2) /\
  List.filter Js.truthy (Js.split_char " " v) =
  List.filter Js.truthy (Js.split_ws_from true v).
Proof.
  induction v as [|c v IH]; intros Hv.
  - split; [|reflexivity]. exists "", [], []. auto.
  - destruct (space_separated_cons _ _ Hv) as [Hc Hv'].
    destruct (IH Hv') as [(w & l1 & l2 & H1 & H2 & Hf) Ht].
    cbn [Js.split_char Js.split_ws_from].
    destruct (Ascii.eqb c " "); rewrite Hc.
    + split.
      * exists "", (Js.split_char " " v), (Js.split_ws_from true v). auto.
      * exact Ht.
    + rewrite H1, H2. simpl. split.
      * exists (String c w), l1, l2. auto.
      * now rewrite Hf.
Qed.

Lemma class_tokens_of_whitespace el :
  (forall v, attr "class" el = Some v -> space_separated v = true) ->
  class_tokens_of el = whitespace_tokens_of el.
Proof.
  intros H. unfold class_tokens_of, whitespace_tokens_of, Js.or_undefined, Js.or_else.
  destruct (attr "class" el) as [v|]; [|reflexivity].
  destruct (Js.truthy v); [|reflexivity].
  specialize (H v eq_refl).
  assert (Hm : map Js.trim (Js.split_char " " v) = Js.split_char " " v).
  { pose proof (split_char_pieces v) as Hp.
    induction (Js.split_char " " v) as [|w l IHl]; simpl; [reflexivity|].
    rewrite (no_space_trim w), IHl.
    - reflexivity.
    - intros w' Hv' Hin. apply Hp; [exact Hv' | now right].
    - apply Hp; [exact H | now left]. }
  rewrite Hm. unfold Js.split_ws.
  destruct (split_char_split_ws v H) as [(w & l1 & l2 & -> & -> & Hf) _].
  simpl. now rewrite Hf.
Qed.

Lemma class_tokens_whitespace d :
  (forall el v, In el (all_elements d) -> attr "class" el = Some v ->
                space_separated v = true) ->
  class_tokens d = whitespace_tokens d.
Proof.
  unfold class_tokens, whitespace_tokens.
  induction (all_elements d) as [|el l IH]; intros H; simpl; [reflexivity|].
  rewrite class_tokens_of_whitespace, IH.
  - reflexivity.
  - intros el' v Hin. apply H. now right.
  - intros v. apply H. now left.
Qed.

(** C7, as amended: the classes of the snapshot are the class tokens of
    the page without the empty ones, each once, in the order of their
    first occurrence, where a token is a piece of a class attribute cut
    at the space character and trimmed.  Where the class attributes
    hold no white space but the space character these are the pieces
    between white space; two elements with the classes [a b a] and
    [b c] give [a; b; c]. *)
Theorem classes_deduplicated_first_seen :
  (forall JSON_parse d h,
      exists s,
        collectScrapedData JSON_parse d h = Ok s /\
        allClasses s = first_seen (class_tokens d) /\
        List.NoDup (allClasses s) /\
        (forall c, In c (allClasses s) -> In c (class_tokens d) /\ c <> "") /\
        (forall c, In c (class_tokens d) -> In c (allClasses s)) /\
        ((forall el v, In el (all_elements d) -> attr "class" el = Some v ->
                       space_separated v = true) ->
         allClasses s = first_seen (whitespace_tokens d))) /\
  (forall JSON_parse h,
      exists s,
        collectScrapedData JSON_parse Pages.classes_twice h = Ok s /\
        class_tokens Pages.classes_twice = ["a"; "b"; "a"; "b"; "c"] /\
        whitespace_tokens Pages.classes_twice = ["a"; "b"; "a"; "b"; "c"] /\
        allClasses s = ["a"; "b"; "c"]).
Proof.
  split.
  - intros p d h.
    destruct (collectScrapedData_ok p d h) as (s & Hs & _ & Hc & _).
    exists s. split; [exact Hs|].
    rewrite Hc, collect_classes_first_seen.
    split; [reflexivity|]. split; [apply first_seen_NoDup|]. split; [|split].
    + intros c Hin. apply first_seen_In in Hin.
      split; [exact Hin | exact (class_tokens_nonempty _ _ Hin)].
    + intros c. apply first_seen_complete.
    + intros H. now rewrite (class_tokens_whitespace d H).
  - intros p h.
    destruct (collectScrapedData_ok p Pages.classes_twice h) as (s & Hs & _ & Hc & _).
    exists s. split; [exact Hs|]. split; [reflexivity|]. split; [reflexivity|].
    rewrite Hc. reflexivity.
Qed.

(** C7, as stated, fails where a class attribute holds white space other
    than the space character: of the classes [a] and [b] with a tab
    between them the snapshot has the one entry that holds the tab, and
    no entry [b], although the element has the class [b]. *)
Lemma classes_not_split_at_tab :
  exists s,
    collectScrapedData SampleJSON.parse MoreSamples.tab_between_classes "" = Ok s /\
    allClasses s = [String "a" (String (ascii_of_nat 9) "b")] /\
    first_seen (whitespace_tokens MoreSamples.tab_between_classes) = ["a"; "b"] /\
    allClasses s <> first_seen (whitespace_tokens MoreSamples.tab_between_classes) /\
    found MoreSamples.tab_between_classes (cls "b") = true /\
    ~ In "b" (allClasses s).
Proof.
  eexists. split; [reflexivity|]. split; [reflexivity|]. split; [reflexivity|].
  split; [discriminate|]. split; [reflexivity|].
  simpl. intros [H|[]]. discriminate H.
Qed.

(** X8: [allIds] holds the non-empty [id] attributes of the page, each
    once, in the order of their first occurrence; an identifier is taken
    as it stands, neither trimmed nor split. *)
Theorem ids_deduplicated_first_seen JSON_parse d h :
  exists s,
    collectScrapedData JSON_parse d h = Ok s /\
    allIds s = first_seen (element_ids d) /\
    List.NoDup (allIds s) /\
    (forall i, In i (allIds s) <->
               i <> "" /\ exists el, In el (all_elements d) /\ attr "id" el = Some i).
Proof.
  exists (scraped JSON_parse d h). split; [apply collectScrapedData_scraped|].
  simpl. rewrite collect_ids_first_seen.
  split; [reflexivity|]. split; [apply first_seen_NoDup|].
  intros i. split.
  - intros H. apply first_seen_In in H. unfold element_ids in H.
    apply in_flat_map in H. destruct H as (el & Hel & Hi).
    unfold Js.or_undefined, Js.or_else in Hi.
    destruct (attr "id" el) as [j|] eqn:Ej; [|destruct Hi].
    destruct (Js.truthy j) eqn:Tj; [|destruct Hi].
    destruct Hi as [<-|[]]. split; [intros ->; discriminate | eauto].
  - intros (Hi & el & Hel & Ha). apply first_seen_complete.
    unfold element_ids. apply in_flat_map. exists el. split; [exact Hel|].
    unfold Js.or_undefined, Js.or_else. rewrite Ha.
    destruct i; [congruence|]. now left.
Qed.

Lemma obj_get_app {V} k (a b : list (string * V)) :
  obj_get k (a ++ b) =
  match obj_get k a with Some v => Some v | None => obj_get k b end.
Proof.
  induction a as [|[k' v'] a IH]; simpl; [reflexivity|].
  destruct (String.eqb k k'); [reflexivity | exact IH].
Qed.

(** [Object.assign]: the last source property of a name wins. *)
Lemma obj_assign_get {V} k (o src : list (string * V)) :
  obj_get k (obj_assign o src) =
  match obj_get k (rev src) with Some v => Some v | None => obj_get k o end.
Proof.
  unfold obj_assign. revert o. induction src as [|[k' v'] src IH]; intros o; simpl.
  - reflexivity.
  - rewrite IH, obj_get_app, obj_get_set. simpl. rewrite (String.eqb_sym k k').
    destruct (obj_get k (rev src)); [reflexivity|].
    destruct (String.eqb k' k); reflexivity.
Qed.

Lemma obj_keys_assign {V} (o src : list (string * V)) :
  obj_keys (obj_assign o src) = fold_left add_new (map fst src) (obj_keys o).
Proof.
  unfold obj_assign. revert o. induction src as [|[k v] src IH]; intros o; simpl.
  - reflexivity.
  - rewrite IH. f_equal. unfold add_new.
    destruct (Js.arr_includes (obj_keys o) k) eqn:E.
    + apply obj_keys_set_old. now apply arr_includes_In.
    + apply obj_keys_set_new. intros H. apply arr_includes_In in H. congruence.
Qed.

Lemma metaTags_fold els acc :
  fold_left metaTags_step els acc =
  obj_assign acc
    (flat_map (fun el => match meta_pair el with Some p => [p] | None => [] end) els).
Proof.
  unfold obj_assign. revert acc. induction els as [|el els IH]; intros acc; simpl.
  - reflexivity.
  - rewrite fold_left_app, IH. f_equal.
    unfold metaTags_step, meta_pair.
    destruct (Js.or_undefined (Js.or_else _ _)) as [n|]; [|reflexivity].
    destruct (Js.or_undefined (attr "content" el)) as [c|]; reflexivity.
Qed.

Lemma or_undefined_Some a s : Js.or_undefined a = Some s -> a = Some s /\ s <> "".
Proof.
  unfold Js.or_undefined, Js.or_else. destruct a as [x|]; [|discriminate].
  destruct x; simpl; [discriminate|]. intros H. injection H as <-. split; congruence.
Qed.

(** X9: [metaTags] has one entry for each name that a [meta] element
    gives together with a content, and a name that occurs again keeps the
    content of its last occurrence; a [meta] element without a name or
    without a content gives nothing, so that names and contents are
    never empty.  (A name [__proto__], which an assignment does not turn
    into a property, is left aside.) *)
Theorem metaTags_last_content_wins JSON_parse d h :
  exists s,
    collectScrapedData JSON_parse d h = Ok s /\
    List.NoDup (obj_keys (metaTags s)) /\
    (forall k, k <> "__proto__" ->
               obj_get k (metaTags s) = obj_get k (rev (meta_pairs d))) /\
    (forall k v, In (k, v) (meta_pairs d) -> k <> "" /\ v <> "").
Proof.
  exists (scraped JSON_parse d h). split; [apply collectScrapedData_scraped|].
  simpl. rewrite metaTags_fold. fold (meta_pairs d).
  split; [apply obj_assign_NoDup; constructor|]. split.
  - intros k _. rewrite obj_assign_get. simpl.
    destruct (obj_get k (rev (meta_pairs d))); reflexivity.
  - intros k v H. unfold meta_pairs in H. apply in_flat_map in H.
    destruct H as (el & _ & H). unfold meta_pair in H.
    destruct (Js.or_undefined (Js.or_else _ _)) as [n|] eqn:En; [|destruct H].
    destruct (Js.or_undefined (attr "content" el)) as [c|] eqn:Ec; [|destruct H].
    destruct H as [H|[]]. injection H as <- <-.
    apply or_undefined_Some in En, Ec. tauto.
Qed.

(** ** Links to social media *)

Lemma includes_nonempty s sub : Js.includes s sub = true -> sub <> "" -> s <> "".
Proof.
  intros H Hs ->. rewrite includes_nil, orb_false_r in H.
  destruct sub; [congruence | discriminate].
Qed.

Lemma or_empty_Some v : v <> "" -> Js.or_empty (Some v) = v.
Proof. destruct v; [congruence | reflexivity]. Qed.

Lemma or_empty_nonempty a v : Js.or_empty a = v -> v <> "" -> a = Some v.
Proof.
  unfold Js.or_empty, Js.or_undefined, Js.or_else. destruct a as [x|].
  - destruct x; simpl; intros <-; congruence.
  - intros <-. congruence.
Qed.

Lemma social_link_found d dom :
  dom <> "" ->
  (forall l, Js.includes (link_href l) dom = true -> is_social l = true) ->
  found d (tag_attr_sub "a" "href" dom) = true <->
  exists l, In l (map link_href (List.filter is_social (collect_links d))) /\
            Js.includes l dom = true.
Proof.
  intros Hdom Hsoc. split.
  - intros H. apply found_elim in H. destruct H as (el & Hel & Hm).
    unfold matches, tag_attr_sub in Hm. simpl in Hm.
    rewrite orb_false_r, andb_true_r in Hm. apply andb_prop in Hm.
    destruct Hm as [Ht Ha]. destruct (attr "href" el) as [v|] eqn:Ev; [|discriminate].
    assert (Hv : link_href (collect_link el) = v).
    { simpl. rewrite Ev. apply or_empty_Some. eapply includes_nonempty; eauto. }
    exists v. split; [|exact Ha]. apply in_map_iff. exists (collect_link el).
    split; [exact Hv|]. apply filter_In. split.
    + unfold collect_links. apply in_map. unfold select. apply filter_In.
      split; [exact Hel|]. unfold matches, tag_attr. simpl. now rewrite Ht, Ev.
    + apply Hsoc. now rewrite Hv.
  - intros (l & Hl & Hi). apply in_map_iff in Hl. destruct Hl as (k & <- & Hk).
    apply filter_In in Hk. destruct Hk as [Hk _]. unfold collect_links in Hk.
    apply in_map_iff in Hk. destruct Hk as (el & <- & Hel).
    pose proof (select_In _ _ _ Hel) as Hin. apply select_matches in Hel.
    unfold matches, tag_attr in Hel. simpl in Hel.
    rewrite orb_false_r, andb_true_r in Hel. apply andb_prop in Hel.
    destruct Hel as [Ht _]. eapply found_intro; [exact Hin|].
    unfold matches, tag_attr_sub. cbn [existsb forallb matches_simple].
    rewrite Ht. simpl in Hi.
    rewrite (or_empty_nonempty _ _ eq_refl (includes_nonempty _ _ Hi Hdom)).
    unfold attr_value_includes. change (case_insensitive_attr "href") with false.
    cbv iota. now rewrite Hi.
Qed.

Ltac social_label :=
  unfold detect_socialMedia, push_if;
  repeat match goal with
         | |- context [found ?d ?s] => destruct (found d s)
         end;
  simpl; intuition congruence.

(** X10: the labels of [technicalDetails.socialMedia] agree with
    [scrapedData.socialMediaLinks]: a label is there exactly when a
    collected link contains the domain of the label, and every collected
    link is the [href] of an [a] element of the page. *)
Theorem socialMedia_labels_agree_with_links JSON_parse d h u :
  exists r,
    analyzeWebsite JSON_parse d h u = Ok r /\
    (forall label dom,
        In (label, dom)
           [ ("Facebook", "facebook.com"); ("Twitter", "twitter.com");
             ("LinkedIn", "linkedin.com"); ("Instagram", "instagram.com");
             ("YouTube", "youtube.com") ] ->
        In label (socialMedia (technicalDetails r)) <->
        exists l, In l (socialMediaLinks (scrapedData r)) /\ Js.includes l dom = true) /\
    (forall l, In l (socialMediaLinks (scrapedData r)) ->
               exists el, In el (all_elements d) /\ tagName el = "a" /\
                          attr "href" el = Some l).
Proof.
  destruct (analyzeWebsite_scraped JSON_parse d h u)
    as (r & Hr & _ & _ & _ & Ht & _ & Hs).
  exists r. split; [exact Hr|]. rewrite Ht, Hs. simpl. split.
  - intros label dom Hin.
    assert (Hfound : In label (detect_socialMedia d) <->
                     found d (tag_attr_sub "a" "href" dom) = true).
    { simpl in Hin.
      destruct Hin as [H|[H|[H|[H|[H|[]]]]]]; injection H as <- <-; social_label. }
    rewrite Hfound. apply social_link_found.
    + simpl in Hin.
      destruct Hin as [H|[H|[H|[H|[H|[]]]]]]; injection H as <- <-; discriminate.
    + intros l Hl. unfold is_social. simpl in Hin.
      destruct Hin as [H|[H|[H|[H|[H|[]]]]]]; injection H as <- <-;
        rewrite Hl, ?orb_true_r; reflexivity.
  - intros l Hl. apply in_map_iff in Hl. destruct Hl as (k & <- & Hk).
    apply filter_In in Hk. destruct Hk as [Hk Hsoc]. unfold collect_links in Hk.
    apply in_map_iff in Hk. destruct Hk as (el & <- & Hel).
    exists el. split; [eapply select_In; exact Hel|].
    apply select_matches in Hel. unfold matches, tag_attr in Hel. simpl in Hel.
    rewrite orb_false_r, andb_true_r in Hel. apply andb_prop in Hel.
    destruct Hel as [Ht' Ha]. apply String.eqb_eq in Ht'. split; [exact Ht'|].
    apply or_empty_nonempty; [reflexivity|].
    intros He. unfold is_social in Hsoc. simpl in He, Hsoc. rewrite He in Hsoc.
    discriminate Hsoc.
Qed.

(** ** Title, description and the address *)

(** X11: the title of a result is never empty and is the title of its
    snapshot; the description of a result is always a string, the
    description of the snapshot when it has one and the empty string
    otherwise, and the description of a snapshot is never the empty
    string. *)
Theorem title_and_description_agree JSON_parse d h u :
  exists r,
    analyzeWebsite JSON_parse d h u = Ok r /\
    title r <> "" /\
    title r = sd_title (scrapedData r) /\
    (title r = "Untitled" \/
     title r = Js.trim (text (select d (tag "title")))) /\
    description r =
      Some (match sd_description (scrapedData r) with Some s => s | None => "" end) /\
    sd_description (scrapedData r) <> Some "".
Proof.
  destruct (analyzeWebsite_scraped JSON_parse d h u)
    as (r & Hr & _ & Ht & _ & _ & _ & Hs).
  exists r. split; [exact Hr|]. rewrite Ht, Hs. simpl.
  assert (Hd : description r =
               Some (Js.or_empty
                       (Js.or_else
                          (attr_first "content"
                             (select d (tag_attr_eq "meta" "name" "description")))
                          (attr_first "content"
                             (select d (tag_attr_eq "meta" "property" "og:description")))))).
  { revert Hr. unfold analyzeWebsite. rewrite collectScrapedData_scraped. simpl.
    intros [= <-]. reflexivity. }
  rewrite Hd. unfold collect_title, collect_description.
  split; [|split; [reflexivity|split; [|split]]].
  - destruct (Js.trim _); simpl; discriminate.
  - destruct (Js.trim _); simpl; auto.
  - destruct (attr_first _ _) as [[|c a]|], (attr_first _ _) as [[|c' b]|]; reflexivity.
  - destruct (attr_first _ _) as [[|c a]|], (attr_first _ _) as [[|c' b]|]; discriminate.
Qed.

(** X12: the address of the page reaches the classifier through the
    government rule only: two addresses give different types to the same
    page only when exactly one of them contains [.gov], and then that
    one gives [government]. *)
Theorem classify_address_only_gov d u u' :
  classify d u <> classify d u' ->
  (Js.includes u ".gov" = true /\ Js.includes u' ".gov" = false /\
   classify d u = government) \/
  (Js.includes u ".gov" = false /\ Js.includes u' ".gov" = true /\
   classify d u' = government).
Proof.
  unfold classify, determineWebsiteType, cond_government.
  repeat match goal with
         | |- context [if ?c then _ else _] =>
             lazymatch c with
             | context [Js.includes] => fail
             | _ => destruct c; [intros H; now destruct H|]
             end
         end.
  destruct (found d (cls "gov")), (found d (attr_sub "class" "gov")),
    (found d (cls "government")); simpl; rewrite ?orb_true_r;
    try (intros H; now destruct H);
    destruct (Js.includes u ".gov"), (Js.includes u' ".gov"); simpl;
    try (intros H; now destruct H); intros _; auto.
Qed.

Lemma classify_address_only_gov_witness :
  classify [] "https://agency.gov/" <> classify [] "https://x.test/" /\
  Js.includes "https://agency.gov/" ".gov" = true /\
  classify [] "https://agency.gov/" = government.
Proof.
  assert (H : classify [] "https://agency.gov/" <> classify [] "https://x.test/")
    by (vm_compute; discriminate).
  split; [exact H|].
  destruct (classify_address_only_gov [] "https://agency.gov/" "https://x.test/" H)
    as [(H1 & _ & H3) | (H1 & _)].
  - split; [exact H1 | exact H3].
  - vm_compute in H1. discriminate H1.
Defined.

(** ** Further properties of the synthesis *)

Section SynthesizerFields.

Variable URL_href : string -> string -> Exn string.
Variable r : AnalysisResult.

Lemma build_schema_base main nested custom :
  build_schema URL_href r main nested custom =
  exn_bind (base_schema URL_href r main)
    (fun s1 => exn_fold (nested_step URL_href r) nested (obj_assign s1 custom)).
Proof. reflexivity. Qed.

Lemma generateSchemaMarkup_inv main nested custom out :
  generateSchemaMarkup URL_href r main nested custom = Ok (JObj out) ->
  exists s1 s,
    base_schema URL_href r main = Ok s1 /\
    exn_fold (nested_step URL_href r) nested (obj_assign s1 custom) = Ok s /\
    List.NoDup (obj_keys s) /\
    out = collapse s.
Proof.
  unfold generateSchemaMarkup.
  destruct (build_schema URL_href r main nested custom) as [s|] eqn:E;
    simpl; [|discriminate].
  intros [= <-]. pose proof (build_schema_NoDup _ _ _ _ _ _ E) as Hnd.
  rewrite build_schema_base in E.
  destruct (base_schema URL_href r main) as [s1|]; simpl in E; [|discriminate].
  exists s1, s. auto.
Qed.

Lemma nested_loop_get_other l k :
  Forall (fun n => ns_context n <> k) l ->
  forall s s',
    exn_fold (nested_step URL_href r) l s = Ok s' -> obj_get k s' = obj_get k s.
Proof.
  induction 1 as [|n l Hn _ IH]; intros s s'; simpl.
  - now intros [= <-].
  - destruct (nested_step URL_href r s n) as [s1|] eqn:E; simpl; [|discriminate].
    intros H. rewrite (IH _ _ H). exact (nested_step_get_other _ _ _ _ _ _ E Hn).
Qed.

Lemma base_schema_get main s1 :
  base_schema URL_href r main = Ok s1 ->
  obj_get "@context" s1 = Some (JStr "https://schema.org") /\
  obj_get "@type" s1 = Some (JStr main) /\
  obj_get "name" s1 = Some (JStr (title r)) /\
  obj_get "url" s1 = Some (JStr (url r)) /\
  obj_get "description" s1 = option_map JStr (Js.or_undefined (description r)) /\
  (forall k, ~ In k base_keys -> obj_get k s1 = None).
Proof.
  unfold base_schema.
  set (b := [ ("@context", JStr "https://schema.org"); ("@type", JStr main);
              ("name", JStr (title r)); ("url", JStr (url r)) ]).
  assert (Hd : forall k,
             obj_get k (add_description r b) =
             if String.eqb k "description"
             then option_map JStr (Js.or_undefined (description r))
             else obj_get k b).
  { intros k. unfold add_description.
    destruct (Js.or_undefined (description r)) as [t|]; cbv beta iota.
    - rewrite obj_get_set, String.eqb_sym.
      destruct (String.eqb k "description"); reflexivity.
    - destruct (String.eqb k "description") eqn:E; [|reflexivity].
      apply String.eqb_eq in E. subst k. reflexivity. }
  intros E.
  assert (Hi : forall k, k <> "image" -> obj_get k s1 = obj_get k (add_description r b)).
  { revert E. unfold add_images. destruct (0 <? _)%nat.
    - destruct (exn_map _ _); simpl; [|discriminate].
      intros [= <-] k Hk. apply obj_get_set_ne. congruence.
    - intros [= <-]. reflexivity. }
  repeat split.
  1-5: rewrite Hi, Hd by discriminate; reflexivity.
  intros k Hk. unfold base_keys in Hk. simpl in Hk.
  rewrite Hi, Hd by intuition congruence.
  destruct (String.eqb k "description") eqn:E1.
  { apply String.eqb_eq in E1. intuition congruence. }
  apply obj_get_None_keys. simpl. intuition congruence.
Qed.

Lemma obj_get_In k (v : JsVal) o :
  List.NoDup (obj_keys o) -> In (k, v) o -> obj_get k o = Some v.
Proof.
  induction o as [|[k' v'] o IH]; simpl; [tauto|].
  intros Hnd. inversion Hnd as [|? ? Hk Hnd']; subst.
  intros [H|H].
  - injection H as -> ->. now rewrite String.eqb_refl.
  - destruct (String.eqb k k') eqn:E.
    + apply String.eqb_eq in E. subst k'. destruct Hk.
      unfold obj_keys. apply in_map_iff. exists (k, v). auto.
    + now apply IH.
Qed.

Lemma obj_get_rev k (v : JsVal) o :
  List.NoDup (obj_keys o) -> In (k, v) o -> obj_get k (rev o) = Some v.
Proof.
  intros Hnd Hin. apply obj_get_In; [|now apply in_rev in Hin].
  unfold obj_keys. rewrite map_rev. apply List.NoDup_rev. exact Hnd.
Qed.

(** X13: a property of [customProperties] replaces the field of the same
    name that the synthesis has set, [@context] and [@type] included: where
    no nested schema has the name as its context, the document holds the
    value of the property, a list of one element replaced by the
    element. *)
Theorem customProperties_override main nested custom out k v :
  generateSchemaMarkup URL_href r main nested custom = Ok (JObj out) ->
  List.NoDup (obj_keys custom) ->
  In (k, v) custom ->
  k <> "__proto__" ->
  Forall (fun n => ns_context n <> k) nested ->
  obj_get k out = Some (collapsed v).
Proof.
  intros H Hnd Hin _ Hn.
  destruct (generateSchemaMarkup_inv _ _ _ _ H) as (s1 & s & _ & Hs & Hnds & ->).
  rewrite (proj2 (collapse_get URL_href s k Hnds)).
  rewrite (nested_loop_get_other _ _ Hn _ _ Hs), obj_assign_get.
  rewrite (obj_get_rev _ _ _ Hnd Hin). reflexivity.
Qed.

(** X14: where neither [customProperties] nor the context of a nested
    schema names them, the document has the fields [@context] with
    [https://schema.org], [@type] with the main schema, [name] with the
    title and [url] with the address of the page, and it has the field
    [description] exactly when the description of the page is not
    empty. *)
Theorem base_fields_of_document main nested custom out :
  generateSchemaMarkup URL_href r main nested custom = Ok (JObj out) ->
  (forall k, In k ["@context"; "@type"; "name"; "url"; "description"] ->
             obj_get k custom = None /\
             Forall (fun n => ns_context n <> k) nested) ->
  obj_get "@context" out = Some (JStr "https://schema.org") /\
  obj_get "@type" out = Some (JStr main) /\
  obj_get "name" out = Some (JStr (title r)) /\
  obj_get "url" out = Some (JStr (url r)) /\
  obj_get "description" out =
    match description r with
    | Some t => if Js.truthy t then Some (JStr t) else None
    | None => None
    end.
Proof.
  intros H Hk.
  destruct (generateSchemaMarkup_inv _ _ _ _ H) as (s1 & s & Hb & Hs & Hnds & ->).
  destruct (base_schema_get _ _ Hb) as (H1 & H2 & H3 & H4 & H5 & _).
  assert (Hget : forall k, In k ["@context"; "@type"; "name"; "url"; "description"] ->
                           obj_get k (collapse s) = option_map collapsed (obj_get k s1)).
  { intros k Hin. destruct (Hk k Hin) as [Hc Hn].
    rewrite (proj2 (collapse_get URL_href s k Hnds)).
    rewrite (nested_loop_get_other _ _ Hn _ _ Hs).
    now rewrite obj_assign_get_other. }
  rewrite !Hget by (simpl; tauto). rewrite H1, H2, H3, H4, H5.
  repeat split.
  unfold Js.or_undefined, Js.or_else.
  destruct (description r) as [t|]; [|reflexivity].
  destruct (Js.truthy t); reflexivity.
Qed.

End SynthesizerFields.

Lemma customProperties_override_witness :
  exists out,
    generateSchemaMarkup SampleURL.href (Samples.result []) "WebPage" []
      [("@type", JArr [JStr "Product"])] = Ok (JObj out) /\
    obj_get "@type" out = Some (JStr "Product").
Proof.
  eexists. split; [reflexivity|].
  apply (customProperties_override SampleURL.href (Samples.result []) "WebPage" []
           [("@type", JArr [JStr "Product"])] _ "@type" (JArr [JStr "Product"])).
  - reflexivity.
  - repeat constructor. simpl. tauto.
  - now left.
  - discriminate.
  - constructor.
Defined.

Lemma base_fields_of_document_witness :
  exists out,
    generateSchemaMarkup SampleURL.href (Samples.result []) "WebPage"
      [Samples.offer] [("sku", JStr "1")] = Ok (JObj out) /\
    obj_get "@type" out = Some (JStr "WebPage") /\
    obj_get "description" out = None.
Proof.
  eexists. split; [reflexivity|].
  pose proof (base_fields_of_document SampleURL.href (Samples.result []) "WebPage"
                [Samples.offer] [("sku", JStr "1")] _ eq_refl) as H.
  destruct H as (_ & H2 & _ & _ & H5).
  - intros k Hk. simpl in Hk.
    destruct Hk as [<-|[<-|[<-|[<-|[<-|[]]]]]];
      (split; [reflexivity | repeat constructor; discriminate]).
  - split; [exact H2 | exact H5].
Defined.

Section SynthesizerNested.

Variable URL_href : string -> string -> Exn string.
Variable r : AnalysisResult.

Lemma nested_step_refused s n :
  refuses_push (obj_get (ns_context n) s) (ns_context n) ->
  nested_step URL_href r s n = Throw.
Proof.
  unfold refuses_push, nested_step. cbv zeta.
  destruct (obj_get (ns_context n) s) as [v|] eqn:G.
  - intros [Ht Ha]. rewrite Ht. simpl negb. cbv iota. rewrite G.
    destruct (exn_fold _ _ _); simpl; [|reflexivity].
    destruct v; try reflexivity. destruct Ha. exact I.
  - intros ->. simpl negb. cbv iota. rewrite G.
    destruct (exn_fold _ _ _); reflexivity.
Qed.

Lemma nested_loop_refused k l :
  (exists n, In n l /\ ns_context n = k) ->
  forall s, refuses_push (obj_get k s) k ->
            exn_fold (nested_step URL_href r) l s = Throw.
Proof.
  induction l as [|m l IH]; intros (n & Hin & Hk) s Hs; [destruct Hin|].
  simpl. destruct (String.eqb_spec (ns_context m) k) as [E|E].
  - rewrite nested_step_refused; [reflexivity | now rewrite E].
  - destruct (nested_step URL_href r s m) as [s1|] eqn:E1; simpl; [|reflexivity].
    apply IH.
    + destruct Hin as [->|Hin]; [congruence | eauto].
    + now rewrite (nested_step_get_other _ _ _ _ _ _ E1 E).
Qed.

Lemma inherited_not_base k : inherited k = true -> ~ In k base_keys.
Proof.
  intros H Hin. unfold base_keys in Hin. simpl in Hin.
  destruct Hin as [<-|[<-|[<-|[<-|[<-|[<-|[]]]]]]]; discriminate H.
Qed.

(** X15: a nested schema whose context names a field that holds a truthy
    value other than a list makes the synthesis throw: the context
    [@context], a context that [customProperties] binds to such a value,
    and a context that is the name of a member that every object
    inherits, such as [constructor] or [toString]; [customProperties]
    has no key [__proto__], which would replace the prototype that the
    inherited members come from. *)
Theorem nested_context_without_list_throws main nested custom n :
  obj_get "__proto__" custom = None ->
  In n nested ->
  match obj_get (ns_context n) (rev custom) with
  | Some v => truthy (Some v) = true /\ ~ is_array v
  | None => ns_context n = "@context" \/ inherited (ns_context n) = true
  end ->
  generateSchemaMarkup URL_href r main nested custom = Throw.
Proof.
  intros _ Hin Hc. unfold generateSchemaMarkup. rewrite build_schema_base.
  destruct (base_schema URL_href r main) as [s1|] eqn:Hb; simpl; [|reflexivity].
  rewrite (nested_loop_refused (ns_context n)); [reflexivity | eauto |].
  rewrite obj_assign_get.
  destruct (obj_get (ns_context n) (rev custom)) as [v|]; [exact Hc|].
  destruct (base_schema_get _ _ _ _ Hb) as (H1 & _ & _ & _ & _ & Hother).
  destruct Hc as [-> | Hi].
  - rewrite H1. simpl. split; [reflexivity | tauto].
  - rewrite (Hother _ (inherited_not_base _ Hi)). exact Hi.
Qed.

(** *** The field of a context *)

Lemma nested_step_field s n s' :
  nested_step URL_href r s n = Ok s' ->
  exists o,
    nested_object URL_href r n = Ok o /\
    obj_get (ns_context n) s' =
      Some (JArr (items_of (obj_get (ns_context n) s) ++ [JObj o])).
Proof.
  unfold nested_step, nested_object. cbv zeta.
  destruct (obj_get (ns_context n) s) as [v|] eqn:G; cbv beta iota.
  - destruct (truthy (Some v)) eqn:T; simpl negb; cbv iota.
    + rewrite G.
      destruct (exn_fold _ _ _) as [o|]; cbn [exn_bind]; [|discriminate].
      destruct v; try discriminate.
      intros [= <-]. exists o. split; [reflexivity|]. now rewrite obj_get_set_eq.
    + rewrite obj_get_set_eq.
      destruct (exn_fold _ _ _) as [o|]; cbn [exn_bind]; [|discriminate].
      intros [= <-]. exists o. split; [reflexivity|].
      rewrite obj_get_set_eq.
      destruct v; try reflexivity. discriminate T.
  - destruct (inherited (ns_context n)); simpl negb; cbv iota.
    + rewrite G. destruct (exn_fold _ _ _) as [o|]; cbn [exn_bind]; discriminate.
    + rewrite obj_get_set_eq.
      destruct (exn_fold _ _ _) as [o|]; cbn [exn_bind]; [|discriminate].
      intros [= <-]. exists o. split; [reflexivity|].
      now rewrite obj_get_set_eq.
Qed.

Lemma nested_loop_field c l :
  forall s s',
    exn_fold (nested_step URL_href r) l s = Ok s' ->
    exists objs,
      exn_map (nested_object URL_href r)
        (List.filter (fun n => String.eqb (ns_context n) c) l) = Ok objs /\
      obj_get c s' =
        match objs with
        | [] => obj_get c s
        | _ => Some (JArr (items_of (obj_get c s) ++ map JObj objs))
        end.
Proof.
  induction l as [|n l IH]; intros s s'; simpl.
  - intros [= <-]. exists []. split; reflexivity.
  - destruct (nested_step URL_href r s n) as [s1|] eqn:E1; simpl; [|discriminate].
    intros H. destruct (IH _ _ H) as (objs & Hm & Hg).
    destruct (String.eqb_spec (ns_context n) c) as [E|E].
    + destruct (nested_step_field _ _ _ E1) as (o & Ho & Hf). rewrite E in Hf.
      simpl. rewrite Ho. simpl. rewrite Hm. simpl.
      exists (o :: objs). split; [reflexivity|].
      rewrite Hg, Hf. simpl. destruct objs as [|o' objs'].
      * reflexivity.
      * now rewrite <- app_assoc.
    + exists objs. split; [exact Hm|].
      now rewrite Hg, (nested_step_get_other _ _ _ _ _ _ E1 E).
Qed.

(** X16: the nested schemas of one context are gathered under the field
    of that context in the order of the request, after the items of a
    list that [customProperties] may hold there; a field that gets no
    nested schema is the property of [customProperties] as it was, and a
    list of one element is replaced by the element in both cases;
    [customProperties] has no key [__proto__], through which a list
    could be inherited instead. *)
Theorem nested_schemas_gathered_in_order main nested custom out c :
  obj_get "__proto__" custom = None ->
  generateSchemaMarkup URL_href r main nested custom = Ok (JObj out) ->
  ~ In c base_keys ->
  exists objs,
    exn_map (nested_object URL_href r)
      (List.filter (fun n => String.eqb (ns_context n) c) nested) = Ok objs /\
    obj_get c out =
      match objs with
      | [] => option_map collapsed (obj_get c (rev custom))
      | _ => Some (collapsed (JArr (items_of (obj_get c (rev custom)) ++ map JObj objs)))
      end.
Proof.
  intros _ H Hc.
  destruct (generateSchemaMarkup_inv _ _ _ _ _ _ H) as (s1 & s & Hb & Hs & Hnds & ->).
  destruct (nested_loop_field c _ _ _ Hs) as (objs & Hm & Hg).
  exists objs. split; [exact Hm|].
  rewrite (proj2 (collapse_get URL_href s c Hnds)), Hg, obj_assign_get.
  destruct (base_schema_get _ _ _ _ Hb) as (_ & _ & _ & _ & _ & Hother).
  rewrite (Hother c Hc).
  destruct (obj_get c (rev custom)); destruct objs; reflexivity.
Qed.

(** *** Addresses in a nested object *)

Lemma absolutize_step_spec o key o' :
  absolutize_step URL_href r o key = Ok o' ->
  obj_keys o' = obj_keys o /\
  absolutized URL_href r (obj_get key o) (obj_get key o') /\
  (forall k, k <> key -> obj_get k o' = obj_get k o).
Proof.
  unfold absolutize_step, absolutized.
  destruct (obj_get key o) as [v|] eqn:G.
  2:{ intros [= <-]. rewrite G. auto. }
  destruct v; try (intros [= <-]; rewrite G; auto).
  destruct (Js.startsWith s "/").
  - destruct (URL_href s (url r)) as [href|]; simpl; [|discriminate].
    intros [= <-]. split; [|split].
    + apply obj_keys_set_old.
      destruct (in_dec string_dec key (obj_keys o)) as [Hi|Hi]; [exact Hi|].
      apply obj_get_None_keys in Hi. congruence.
    + exists href. split; [reflexivity | apply obj_get_set_eq].
    + intros k Hk. apply obj_get_set_ne. congruence.
  - intros [= <-]. rewrite G. auto.
Qed.

Lemma absolutize_fold_spec ks :
  List.NoDup ks ->
  forall o o',
    exn_fold (absolutize_step URL_href r) ks o = Ok o' ->
    obj_keys o' = obj_keys o /\
    (forall k, In k ks -> absolutized URL_href r (obj_get k o) (obj_get k o')) /\
    (forall k, ~ In k ks -> obj_get k o' = obj_get k o).
Proof.
  induction 1 as [|key ks Hkey Hnd IH]; intros o o'; simpl.
  - intros [= <-]. split; [reflexivity|]. split; [intros k [] | reflexivity].
  - destruct (absolutize_step URL_href r o key) as [o1|] eqn:E1; simpl; [|discriminate].
    intros H. destruct (IH _ _ H) as (Hk & Hin & Hout).
    destruct (absolutize_step_spec _ _ _ E1) as (Hk1 & Hkey1 & Hother1).
    split; [congruence|]. split.
    + intros k [<-|Hk'].
      * now rewrite (Hout _ Hkey).
      * assert (k <> key) by congruence.
        rewrite <- (Hother1 k) by assumption. now apply Hin.
    + intros k Hk'. rewrite (Hout k) by tauto. apply Hother1.
      intros ->. apply Hk'. now left.
Qed.

(** X17: the object of a nested schema has the type of the schema under
    [@type], unless the properties give one, and the properties of the
    schema; a property that is a string starting with [/] holds the
    address resolved against the address of the page, every other
    property, a string inside a list or an object included, is as it was
    given; the object is built whenever the addresses resolve. *)
Theorem nested_object_addresses n :
  let given := obj_assign [("@type", JStr (ns_type n))] (ns_properties n) in
  (forall o,
      nested_object URL_href r n = Ok o ->
      obj_keys o = obj_keys given /\
      forall k, absolutized URL_href r (obj_get k given) (obj_get k o)) /\
  ((forall rel, exists href, URL_href rel (url r) = Ok href) ->
   exists o, nested_object URL_href r n = Ok o).
Proof.
  intros given. split.
  - intros o Ho. unfold nested_object in Ho. fold given in Ho.
    assert (Hnd : List.NoDup (obj_keys given)).
    { apply obj_assign_NoDup. repeat constructor. simpl. tauto. }
    destruct (absolutize_fold_spec _ Hnd _ _ Ho) as (Hk & Hin & Hout).
    split; [exact Hk|]. intros k.
    destruct (in_dec string_dec k (obj_keys given)) as [Hi|Hi]; [now apply Hin|].
    rewrite (Hout k Hi). apply obj_get_None_keys in Hi. rewrite Hi. reflexivity.
  - intros HU. unfold nested_object.
    assert (Habs : forall ks o,
               exists o', exn_fold (absolutize_step URL_href r) ks o = Ok o').
    { induction ks as [|k ks IH]; intros o; simpl; [eauto|].
      unfold absolutize_step at 1.
      destruct (obj_get k o) as [[| | |s| |]|]; simpl; try apply IH.
      destruct (Js.startsWith s "/"); simpl; [|apply IH].
      destruct (HU s) as [u ->]. simpl. apply IH. }
    apply Habs.
Qed.

End SynthesizerNested.

Lemma nested_context_without_list_throws_witness :
  generateSchemaMarkup SampleURL.href (Samples.result []) "WebPage"
    [Samples.offer; MoreSamples.person "constructor"] [] = Throw.
Proof.
  apply (nested_context_without_list_throws SampleURL.href (Samples.result [])
           "WebPage" _ [] (MoreSamples.person "constructor")).
  - reflexivity.
  - simpl. tauto.
  - simpl. right. reflexivity.
Defined.

Lemma nested_schemas_gathered_in_order_witness :
  exists out,
    generateSchemaMarkup SampleURL.href (Samples.result []) "Product"
      [Samples.offer; MoreSamples.person "author"; Samples.offer]
      [("offers", JArr [JStr "first"])] = Ok (JObj out) /\
    obj_get "offers" out =
      Some (JArr [ JStr "first";
                   JObj [("@type", JStr "Offer"); ("price", JStr "10")];
                   JObj [("@type", JStr "Offer"); ("price", JStr "10")] ]).
Proof.
  eexists. split; [reflexivity|].
  destruct (nested_schemas_gathered_in_order SampleURL.href (Samples.result [])
              "Product" [Samples.offer; MoreSamples.person "author"; Samples.offer]
              [("offers", JArr [JStr "first"])] _ "offers" eq_refl eq_refl)
    as (objs & Hm & Hg).
  - unfold base_keys. simpl. intuition discriminate.
  - vm_compute in Hm. injection Hm as <-. exact Hg.
Defined.

Section SynthesizerFailures.

Variable URL_href : string -> string -> Exn string.
Variable r : AnalysisResult.

Lemma exn_map_throws {A B} (f : A -> Exn B) l x :
  In x l -> f x = Throw -> exn_map f l = Throw.
Proof.
  induction l as [|y l IH]; simpl; [tauto|].
  intros [->|Hin] Hx.
  - now rewrite Hx.
  - destruct (f y); simpl; [|reflexivity]. now rewrite IH.
Qed.

Lemma absolutize_fold_throws k s ks :
  In k ks ->
  Js.startsWith s "/" = true ->
  URL_href s (url r) = Throw ->
  List.NoDup ks ->
  forall o,
    obj_get k o = Some (JStr s) ->
    exn_fold (absolutize_step URL_href r) ks o = Throw.
Proof.
  intros Hin Hs Hu. induction 1 as [|key ks Hkey Hnd IH]; [destruct Hin|].
  intros o Ho. simpl. destruct Hin as [->|Hin].
  - unfold absolutize_step. now rewrite Ho, Hs, Hu.
  - destruct (absolutize_step URL_href r o key) as [o1|] eqn:E1; simpl; [|reflexivity].
    apply IH; [exact Hin|].
    destruct (absolutize_step_spec _ _ _ _ _ E1) as (_ & _ & Hother).
    rewrite Hother; [exact Ho|]. intros ->. contradiction.
Qed.

Lemma nested_loop_throws n l :
  In n l ->
  nested_object URL_href r n = Throw ->
  forall s, exn_fold (nested_step URL_href r) l s = Throw.
Proof.
  intros Hin Hn. induction l as [|m l IH]; [destruct Hin|].
  intros s. simpl. destruct Hin as [->|Hin].
  - unfold nested_step. cbv zeta. unfold nested_object in Hn. now rewrite Hn.
  - destruct (nested_step URL_href r s m); simpl; [now apply IH | reflexivity].
Qed.

(** X18: an address that cannot be resolved makes the whole synthesis
    throw: the source of an image that does not start with [http], or a
    string property of a nested schema that starts with [/], for which
    [new URL] throws. *)
Theorem unresolved_address_throws main nested custom :
  (exists img,
      In img (images (scrapedData r)) /\ Js.truthy (img_src img) = true /\
      Js.startsWith (img_src img) "http" = false /\
      URL_href (img_src img) (url r) = Throw) \/
  (exists n k s,
      In n nested /\
      obj_get k (obj_assign [("@type", JStr (ns_type n))] (ns_properties n)) =
        Some (JStr s) /\
      Js.startsWith s "/" = true /\
      URL_href s (url r) = Throw) ->
  generateSchemaMarkup URL_href r main nested custom = Throw.
Proof.
  intros H. unfold generateSchemaMarkup. rewrite build_schema_base.
  destruct H as [(img & Hin & Ht & Hh & Hu) | (n & k & s & Hin & Hk & Hs & Hu)].
  - unfold base_schema, add_images.
    destruct (images (scrapedData r)) as [|i0 imgs] eqn:Ei; [destruct Hin|].
    cbn [length Nat.ltb Nat.leb].
    rewrite (exn_map_throws _ _ img); [reflexivity | |].
    + apply filter_In. split; [exact Hin | exact Ht].
    + unfold image_object. now rewrite Hh, Hu.
  - destruct (base_schema URL_href r main) as [s1|]; simpl; [|reflexivity].
    rewrite (nested_loop_throws n); [reflexivity | exact Hin |].
    unfold nested_object. apply (absolutize_fold_throws k s); auto.
    + destruct (in_dec string_dec k
                  (obj_keys (obj_assign [("@type", JStr (ns_type n))] (ns_properties n))))
        as [Hi|Hi]; [exact Hi|].
      apply obj_get_None_keys in Hi. congruence.
    + apply obj_assign_NoDup. repeat constructor. simpl. tauto.
Qed.

(** X19: the field [image], where neither [customProperties] nor the
    context of a nested schema names it, is absent exactly when the page
    has no image; a page whose images all lack a source gets the empty
    list. *)
Theorem image_field_absent_or_list main nested custom out :
  generateSchemaMarkup URL_href r main nested custom = Ok (JObj out) ->
  obj_get "image" custom = None ->
  Forall (fun n => ns_context n <> "image") nested ->
  (obj_get "image" out = None <-> images (scrapedData r) = []) /\
  (images (scrapedData r) <> [] ->
   Forall (fun img => img_src img = "") (images (scrapedData r)) ->
   obj_get "image" out = Some (JArr [])).
Proof.
  intros H Hc Hn.
  destruct (generateSchemaMarkup_inv _ _ _ _ _ _ H) as (s1 & s & Hb & Hs & Hnds & ->).
  rewrite (proj2 (collapse_get URL_href s "image" Hnds)).
  rewrite (nested_loop_get_other _ _ _ _ Hn _ _ Hs).
  rewrite obj_assign_get_other by exact Hc.
  revert Hb. unfold base_schema, add_images.
  destruct (images (scrapedData r)) as [|i0 imgs] eqn:Ei.
  - cbn [length Nat.ltb Nat.leb]. intros [= <-].
    assert (Hd : obj_get "image"
                   (add_description r
                      [ ("@context", JStr "https://schema.org"); ("@type", JStr main);
                        ("name", JStr (title r)); ("url", JStr (url r)) ]) = None).
    { unfold add_description. destruct (Js.or_undefined _); reflexivity. }
    rewrite Hd. simpl. split; [tauto | congruence].
  - cbn [length Nat.ltb Nat.leb].
    destruct (exn_map _ _) as [objs|] eqn:Em; simpl; [|discriminate].
    intros [= <-]. rewrite obj_get_set_eq. simpl. split.
    + split; [|discriminate]. destruct objs as [|x [|y l]]; discriminate.
    + intros _ Hall.
      assert (Hf : List.filter (fun img => Js.truthy (img_src img)) (i0 :: imgs) = []).
      { clear -Hall. induction Hall as [|x l Hx _ IH]; simpl; [reflexivity|].
        now rewrite Hx. }
      rewrite Hf in Em. simpl in Em. injection Em as <-. reflexivity.
Qed.

End SynthesizerFailures.

Lemma unresolved_address_throws_witness :
  generateSchemaMarkup SampleURL.href (MoreSamples.no_base []) "WebPage"
    [MoreSamples.person "author"] [] = Throw /\
  generateSchemaMarkup SampleURL.href (MoreSamples.no_base [Samples.image "a.png"])
    "WebPage" [] [] = Throw.
Proof.
  split.
  - apply unresolved_address_throws. right.
    exists (MoreSamples.person "author"), "image", "/me.png".
    repeat split; try reflexivity. now left.
  - apply unresolved_address_throws. left.
    exists (Samples.image "a.png"). repeat split; try reflexivity. now left.
Defined.

Lemma image_field_absent_or_list_witness :
  exists out,
    generateSchemaMarkup SampleURL.href
      (Samples.result [Samples.image ""; Samples.image ""]) "WebPage"
      [Samples.offer] [] = Ok (JObj out) /\
    obj_get "image" out = Some (JArr []).
Proof.
  eexists. split; [reflexivity|].
  apply (image_field_absent_or_list SampleURL.href
           (Samples.result [Samples.image ""; Samples.image ""]) "WebPage"
           [Samples.offer] []).
  - reflexivity.
  - reflexivity.
  - repeat constructor. discriminate.
  - discriminate.
  - repeat constructor.
Defined.

(** *** The fields before the nested schemas *)

Section Pipeline.

Variable JSON_parse : string -> Exn JsVal.
Variable URL_href : string -> string -> Exn string.

Lemma obj_get_rev_None {V} k (o : list (string * V)) :
  obj_get k o = None -> obj_get k (rev o) = None.
Proof.
  rewrite !obj_get_None_keys. unfold obj_keys. rewrite map_rev.
  intros H Hin. apply H. now apply in_rev.
Qed.

Lemma document_field r main nested custom out k :
  generateSchemaMarkup URL_href r main nested custom = Ok (JObj out) ->
  obj_get k custom = None ->
  Forall (fun n => ns_context n <> k) nested ->
  exists s1,
    base_schema URL_href r main = Ok s1 /\
    obj_get k out = option_map collapsed (obj_get k s1).
Proof.
  intros H Hc Hn.
  destruct (generateSchemaMarkup_inv _ _ _ _ _ _ H) as (s1 & s & Hb & Hs & Hnds & ->).
  exists s1. split; [exact Hb|].
  rewrite (proj2 (collapse_get URL_href s k Hnds)).
  rewrite (nested_loop_get_other _ _ _ _ Hn _ _ Hs).
  now rewrite obj_assign_get_other.
Qed.

Lemma base_schema_image r main s1 :
  base_schema URL_href r main = Ok s1 ->
  match images (scrapedData r) with
  | [] => obj_get "image" s1 = None
  | _ => exists objs, obj_get "image" s1 = Some (JArr objs)
  end.
Proof.
  unfold base_schema, add_images.
  destruct (images (scrapedData r)) as [|i0 imgs].
  - cbn [length Nat.ltb Nat.leb]. intros [= <-].
    unfold add_description. destruct (Js.or_undefined _); reflexivity.
  - cbn [length Nat.ltb Nat.leb].
    destruct (exn_map _ _) as [objs|]; simpl; [|discriminate].
    intros [= <-]. exists objs. apply obj_get_set_eq.
Qed.

End Pipeline.

(** ** Text does not reach the classifier *)

Lemma strip_text_elements :
  forall n, flat_map descendants_or_self (strip_text n) =
            map without_text (descendants_or_self n).
Proof.
  fix IH 1. intros [t a cs| |]; [|reflexivity..].
  cbn [strip_text flat_map descendants_or_self app map without_text].
  rewrite app_nil_r. f_equal.
  induction cs as [|c cs IHcs]; [reflexivity|].
  cbn [flat_map]. rewrite flat_map_app, map_app, IH, IHcs. reflexivity.
Qed.

Lemma all_elements_strip d :
  all_elements (flat_map strip_text d) = map without_text (all_elements d).
Proof.
  unfold all_elements. induction d as [|n d IH]; [reflexivity|].
  cbn [flat_map]. rewrite flat_map_app, map_app, strip_text_elements, IH.
  reflexivity.
Qed.

Lemma matches_without_text s n : matches s (without_text n) = matches s n.
Proof.
  unfold matches. apply existsb_pointwise. intros c.
  induction c as [|x c IH]; [reflexivity|]. simpl. rewrite IH. f_equal.
  destruct n as [t a cs| |]; reflexivity.
Qed.

Lemma found_strip d s : found (flat_map strip_text d) s = found d s.
Proof.
  rewrite !found_existsb, all_elements_strip.
  induction (all_elements d) as [|n l IH]; [reflexivity|].
  simpl. now rewrite matches_without_text, IH.
Qed.

(** X21: the text of a page does not reach the classifier: a page and
    the page without its text nodes and comments, the contents of its
    scripts included, have the same detected elements, the same payment
    methods and social media, and the same type. *)
Theorem classification_ignores_text d u :
  detectElements (flat_map strip_text d) = detectElements d /\
  paymentMethods (detectTechnicalDetails (flat_map strip_text d)) =
    paymentMethods (detectTechnicalDetails d) /\
  socialMedia (detectTechnicalDetails (flat_map strip_text d)) =
    socialMedia (detectTechnicalDetails d) /\
  classify (flat_map strip_text d) u = classify d u.
Proof.
  assert (He : detectElements (flat_map strip_text d) = detectElements d).
  { unfold detectElements. now rewrite !found_strip. }
  assert (Hp : detect_paymentMethods (flat_map strip_text d) = detect_paymentMethods d).
  { unfold detect_paymentMethods. now rewrite !found_strip. }
  assert (Hs : detect_socialMedia (flat_map strip_text d) = detect_socialMedia d).
  { unfold detect_socialMedia. now rewrite !found_strip. }
  split; [exact He|]. split; [exact Hp|]. split; [exact Hs|].
  unfold classify, determineWebsiteType.
  unfold cond_ecommerce, cond_blog, cond_news, cond_portfolio, cond_social_media,
    cond_forum, cond_documentation, cond_saas, cond_educational, cond_entertainment,
    cond_government, cond_nonprofit, cond_landing_page, cond_corporate.
  rewrite He. cbn [paymentMethods socialMedia detectTechnicalDetails].
  rewrite Hp, Hs, !found_strip. reflexivity.
Qed.

(** ** When the synthesis returns *)

Section SynthesizerReturns.

Variable URL_href : string -> string -> Exn string.
Variable r : AnalysisResult.

Lemma refuses_push_dec v k : refuses_push v k \/ ~ refuses_push v k.
Proof.
  unfold refuses_push. destruct v as [v|].
  - destruct (truthy (Some v)); [|right; intros [H _]; discriminate].
    destruct v; simpl; tauto.
  - destruct (inherited k); [now left | right; discriminate].
Qed.

Lemma exn_map_returns {A B} (f : A -> Exn B) l :
  (exists ys, exn_map f l = Ok ys) <-> Forall (fun x => exists y, f x = Ok y) l.
Proof.
  induction l as [|x l IH]; simpl.
  - split; [constructor | eauto].
  - split.
    + intros [ys H]. destruct (f x) as [y|] eqn:E; simpl in H; [|discriminate].
      destruct (exn_map f l) as [ys'|]; simpl in H; [|discriminate].
      constructor; [eauto | apply IH; eauto].
    + intros H. apply Forall_cons in H. destruct H as [[y ->] H].
      apply IH in H. destruct H as [ys ->]. simpl. eauto.
Qed.

Lemma image_object_returns img :
  Js.truthy (img_src img) = true ->
  (exists o, image_object URL_href r img = Ok o) <->
  (needs_base img = true -> exists u, URL_href (img_src img) (url r) = Ok u).
Proof.
  intros Ht. unfold image_object, needs_base. rewrite Ht.
  destruct (Js.startsWith (img_src img) "http"); simpl.
  - split; [discriminate | eauto].
  - destruct (URL_href _ _) as [u|]; simpl.
    + split; eauto.
    + split; [intros [o H]; discriminate|].
      intros H. destruct (H eq_refl) as [u Hu]. discriminate.
Qed.

Lemma base_schema_returns main :
  (exists s1, base_schema URL_href r main = Ok s1) <->
  Forall (fun img => needs_base img = true ->
                     exists u, URL_href (img_src img) (url r) = Ok u)
         (images (scrapedData r)).
Proof.
  unfold base_schema, add_images.
  destruct (images (scrapedData r)) as [|i0 imgs] eqn:Ei.
  - cbn [length Nat.ltb Nat.leb]. split; [constructor | eauto].
  - cbn [length Nat.ltb Nat.leb].
    set (l := i0 :: imgs).
    assert (H : (exists objs,
                    exn_map (image_object URL_href r)
                      (List.filter (fun img => Js.truthy (img_src img)) l) = Ok objs) <->
                Forall (fun img => needs_base img = true ->
                                   exists u, URL_href (img_src img) (url r) = Ok u) l).
    { rewrite exn_map_returns. clearbody l. clear.
      induction l as [|x l IH]; simpl.
      - split; constructor.
      - destruct (Js.truthy (img_src x)) eqn:T.
        + rewrite !Forall_cons, IH, (image_object_returns _ T). reflexivity.
        + assert (Hx : needs_base x = false) by (unfold needs_base; now rewrite T).
          rewrite Forall_cons, IH, Hx.
          split; [intros H; split; [discriminate | exact H] | tauto]. }
    rewrite <- H. split.
    + intros [s1 Hs]. destruct (exn_map _ _) as [objs|]; simpl in Hs; [eauto | discriminate].
    + intros [objs ->]. simpl. eauto.
Qed.

Lemma field_before_nested_refuses main custom s1 k :
  base_schema URL_href r main = Ok s1 ->
  refuses_push (obj_get k (obj_assign s1 custom)) k <->
  refuses_push (field_before_nested r main custom k) k.
Proof.
  intros Hb. rewrite obj_assign_get. unfold field_before_nested.
  destruct (obj_get k (rev custom)) as [v|]; [reflexivity|].
  destruct (String.eqb_spec k "image") as [->|Hk].
  - pose proof (base_schema_image _ _ _ _ Hb) as Hi.
    destruct (images (scrapedData r)).
    + now rewrite Hi.
    + destruct Hi as [objs ->]. simpl. tauto.
  - revert Hb. unfold base_schema, add_images. destruct (0 <? _)%nat.
    + destruct (exn_map _ _); simpl; [|discriminate].
      intros [= <-]. rewrite obj_get_set_ne by congruence. reflexivity.
    + intros [= <-]. reflexivity.
Qed.

Lemma nested_step_returns s n :
  (exists s', nested_step URL_href r s n = Ok s') <->
  (exists o, nested_object URL_href r n = Ok o) /\
  ~ refuses_push (obj_get (ns_context n) s) (ns_context n).
Proof.
  split.
  - intros [s' H]. split.
    + destruct (nested_step_field _ _ _ _ _ H) as (o & Ho & _). eauto.
    + intros Hr. rewrite (nested_step_refused _ _ _ _ Hr) in H. discriminate.
  - intros [[o Ho] Hr]. unfold nested_step, nested_object in *. cbv zeta.
    rewrite Ho. cbn [exn_bind]. unfold refuses_push in Hr.
    destruct (obj_get (ns_context n) s) as [v|] eqn:G.
    + destruct (truthy (Some v)) eqn:T; simpl negb; cbv iota.
      * rewrite G. destruct v; try (destruct Hr; split; [reflexivity | tauto]).
        eauto.
      * rewrite obj_get_set_eq. eauto.
    + destruct (inherited (ns_context n)); [destruct Hr; reflexivity|].
      simpl negb. cbv iota. rewrite obj_get_set_eq. eauto.
Qed.

Lemma nested_step_accepts s n s' m :
  nested_step URL_href r s n = Ok s' ->
  refuses_push (obj_get (ns_context m) s') (ns_context m) <->
  refuses_push (obj_get (ns_context m) s) (ns_context m).
Proof.
  intros H. destruct (String.eqb_spec (ns_context n) (ns_context m)) as [E|E].
  - rewrite <- E. destruct (nested_step_field _ _ _ _ _ H) as (o & _ & ->).
    split.
    + intros [_ Ha]. destruct Ha. exact I.
    + intros Hr. rewrite (nested_step_refused _ _ _ _ Hr) in H. discriminate.
  - now rewrite (nested_step_get_other _ _ _ _ _ _ H E).
Qed.

Lemma nested_loop_returns l :
  forall s,
    (exists s', exn_fold (nested_step URL_href r) l s = Ok s') <->
    Forall (fun n => (exists o, nested_object URL_href r n = Ok o) /\
                     ~ refuses_push (obj_get (ns_context n) s) (ns_context n)) l.
Proof.
  induction l as [|n l IH]; intros s; simpl.
  - split; [constructor | eauto].
  - rewrite Forall_cons, <- nested_step_returns. split.
    + intros [s' H].
      destruct (nested_step URL_href r s n) as [s1|] eqn:E; simpl in H; [|discriminate].
      split; [eauto|].
      assert (Hl : exists s', exn_fold (nested_step URL_href r) l s1 = Ok s') by eauto.
      apply IH in Hl. revert Hl. apply List.Forall_impl. intros m [Ho Hr].
      split; [exact Ho|]. now rewrite <- (nested_step_accepts _ _ _ m E).
    + intros [[s1 E] Hl]. rewrite E. simpl. apply IH.
      revert Hl. apply List.Forall_impl. intros m [Ho Hr].
      split; [exact Ho|]. now rewrite (nested_step_accepts _ _ _ m E).
Qed.

(** X22: the synthesis returns a document exactly when every address
    resolves and every context accepts a list: [new URL] returns for the
    source of every image that has a source not starting with [http]
    and for every string property of a nested schema that starts with
    [/], and the field that a nested schema names as its context holds,
    when the nested schemas are reached, a list or a falsy value, or is
    absent and no inherited member has its name.  In every other case
    the synthesis throws.  [customProperties] has no key [__proto__],
    which would replace the prototype that a context is looked up in. *)
Theorem generateSchemaMarkup_returns_iff main nested custom :
  obj_get "__proto__" custom = None ->
  ((exists out, generateSchemaMarkup URL_href r main nested custom = Ok (JObj out)) <->
   Forall (fun img => needs_base img = true ->
                      exists u, URL_href (img_src img) (url r) = Ok u)
          (images (scrapedData r)) /\
   Forall (fun n => (exists o, nested_object URL_href r n = Ok o) /\
                    ~ refuses_push (field_before_nested r main custom (ns_context n))
                        (ns_context n))
          nested) /\
  ((exists out, generateSchemaMarkup URL_href r main nested custom = Ok (JObj out)) \/
   generateSchemaMarkup URL_href r main nested custom = Throw).
Proof.
  intros _. split.
  2:{ unfold generateSchemaMarkup.
      destruct (build_schema URL_href r main nested custom); simpl; eauto. }
  rewrite <- base_schema_returns. unfold generateSchemaMarkup.
  rewrite build_schema_base. split.
  - intros [out H].
    destruct (base_schema URL_href r main) as [s1|] eqn:Hb; simpl in H; [|discriminate].
    split; [eauto|].
    destruct (exn_fold _ _ _) as [s|] eqn:Hs; simpl in H; [|discriminate].
    assert (Hl : exists s', exn_fold (nested_step URL_href r) nested
                              (obj_assign s1 custom) = Ok s') by eauto.
    apply nested_loop_returns in Hl. revert Hl. apply List.Forall_impl.
    intros n [Ho Hr]. split; [exact Ho|].
    now rewrite <- (field_before_nested_refuses _ _ _ _ Hb).
  - intros [[s1 Hb] Hl]. rewrite Hb. simpl.
    assert (Hs : exists s', exn_fold (nested_step URL_href r) nested
                              (obj_assign s1 custom) = Ok s').
    { apply nested_loop_returns. revert Hl. apply List.Forall_impl.
      intros n [Ho Hr]. split; [exact Ho|].
      now rewrite (field_before_nested_refuses _ _ _ _ Hb). }
    destruct Hs as [s' ->]. simpl. eauto.
Qed.

End SynthesizerReturns.

Lemma generateSchemaMarkup_returns_iff_witness :
  (exists out,
      generateSchemaMarkup SampleURL.href (Samples.result [Samples.image "a.png"])
        "Product" [Samples.offer; Samples.offer] [("offers", JArr [])] =
      Ok (JObj out)) /\
  generateSchemaMarkup SampleURL.href (Samples.result []) "Product"
    [Samples.offer] [("offers", JStr "none")] = Throw.
Proof.
  split.
  - apply (proj1 (generateSchemaMarkup_returns_iff SampleURL.href
                    (Samples.result [Samples.image "a.png"]) "Product"
                    [Samples.offer; Samples.offer] [("offers", JArr [])] eq_refl)).
    split.
    + repeat constructor. intros _. eexists. reflexivity.
    + repeat constructor; try (eexists; reflexivity);
        simpl; intros [_ H]; apply H; exact I.
  - destruct (generateSchemaMarkup_returns_iff SampleURL.href (Samples.result [])
                "Product" [Samples.offer] [("offers", JStr "none")] eq_refl)
      as [Hiff [Hret | Hthrow]]; [|exact Hthrow].
    apply Hiff in Hret. destruct Hret as [_ Hn].
    inversion Hn as [|n l [_ Hr] _]; subst. destruct Hr.
    simpl. split; [reflexivity | tauto].
Defined.

(** ** From a page to its document *)

(** The outcome of an analysis with the browser. *)
Lemma Session_analyzeWebsite_outcome fails content cheerio_load JSON_parse url a :
  snd (Session.analyzeWebsite fails content cheerio_load JSON_parse url a) =
  if Session.browser a && Session.calls_return fails url a
  then analyzeWebsite JSON_parse
         (cheerio_load (Session.page_content content url a))
         (Session.page_content content url a) url
  else Throw.
Proof.
  unfold Session.analyzeWebsite, Session.calls_return, Session.page_content.
  destruct a as [b l]. cbn [Session.browser Session.log].
  destruct b; cbn [negb andb]; [|reflexivity].
  unfold Session.bind, Session.try_finally, Session.call, Session.page_calls.
  cbn [Session.browser Session.log]. rewrite <- !app_assoc. cbn [app].
  set (p := length l).
  destruct (fails l Session.NewPage); cbn [negb andb snd]; [reflexivity|].
  destruct (fails (l ++ [Session.NewPage]) (Session.SetUserAgent p));
    cbn [negb andb snd Session.log].
  { rewrite <- !app_assoc. cbn [app]. destruct (fails _ (Session.ClosePage p));
      reflexivity. }
  destruct (fails (l ++ [Session.NewPage; Session.SetUserAgent p])
              (Session.SetViewport p)); cbn [negb andb snd Session.log].
  { rewrite <- !app_assoc. cbn [app]. destruct (fails _ (Session.ClosePage p));
      reflexivity. }
  destruct (fails (l ++ [Session.NewPage; Session.SetUserAgent p;
                         Session.SetViewport p]) (Session.Goto p url));
    cbn [negb andb snd Session.log].
  { rewrite <- !app_assoc. cbn [app]. destruct (fails _ (Session.ClosePage p));
      reflexivity. }
  destruct (fails (l ++ [Session.NewPage; Session.SetUserAgent p;
                         Session.SetViewport p; Session.Goto p url])
              (Session.Content p)); cbn [negb andb snd Session.log].
  { rewrite <- !app_assoc. cbn [app]. destruct (fails _ (Session.ClosePage p));
      reflexivity. }
  rewrite <- !app_assoc. cbn [app].
  destruct (fails _ (Session.ClosePage p)); reflexivity.
Qed.

Section ToolFacts.

Variable URL_valid : string -> bool.
Variable URL_href : string -> string -> Exn string.
Variable fails : list Session.Call -> Session.Call -> bool.
Variable content : list Session.Call -> string.
Variable cheerio_load : string -> Document.
Variable JSON_parse : string -> Exn JsVal.

Lemma valid_images_numeric d :
  forallb valid_image (map collect_image (select d (tag "img"))) = numeric_dimensions d.
Proof.
  unfold numeric_dimensions.
  induction (select d (tag "img")) as [|el l IH]; simpl; [reflexivity|].
  rewrite IH. f_equal. unfold valid_image, numeric_or_absent. simpl.
  destruct (Js.or_undefined (attr "width" el)) as [w|],
           (Js.or_undefined (attr "height" el)) as [v|]; simpl;
    try destruct (parseInt w); try destruct (parseInt v); reflexivity.
Qed.

Lemma generateSchemaMarkup_alone_returns r main :
  (exists out, generateSchemaMarkup URL_href r main [] [] = Ok (JObj out)) <->
  Forall (fun img => needs_base img = true ->
                     exists href, URL_href (img_src img) (url r) = Ok href)
         (images (scrapedData r)).
Proof.
  rewrite <- (base_schema_returns URL_href r main). unfold generateSchemaMarkup.
  rewrite build_schema_base.
  destruct (base_schema URL_href r main) as [s1|]; simpl.
  - split; intros _; eexists; reflexivity.
  - split; [intros [out H]; discriminate | intros [s1 H]; discriminate].
Qed.

(** X20: the document that the tool [generate_schema_markup] gives for
    an address, without nested schemas and custom properties.  It is
    generated only when the address is valid, the browser is there and
    none of its calls throws, every [img] element of the page has a
    width and a height that are absent, empty or start with a number
    (the validation of the result refuses the others), and the source of
    every image that needs it resolves; and it is generated whenever
    these hold and the numbers are safe integers.  In every other case
    the tool answers with an error, and for an address that is not valid
    it calls nothing.  The [name] of the document is the title of the page and is
    never empty, its [url] is the address that was analysed, it has a
    [description] exactly when the page has a non-empty description in
    its [meta] elements, and it has an [image] exactly when the page has
    an [img] element. *)
Theorem document_of_analysed_page u main a :
  let tool :=
    generate_schema_markup URL_valid URL_href fails content cheerio_load JSON_parse
      u main [] [] a in
  let d := cheerio_load (Session.page_content content u a) in
  ((exists out, snd tool = Ok (JObj out)) ->
   URL_valid u = true /\
   Session.browser a = true /\
   Session.calls_return fails u a = true /\
   numeric_dimensions d = true /\
   Forall (fun img => needs_base img = true ->
                      exists href, URL_href (img_src img) u = Ok href)
          (map collect_image (select d (tag "img")))) /\
  (URL_valid u = true ->
   Session.browser a = true ->
   Session.calls_return fails u a = true ->
   numeric_dimensions d = true ->
   safe_dimensions d = true ->
   Forall (fun img => needs_base img = true ->
                      exists href, URL_href (img_src img) u = Ok href)
          (map collect_image (select d (tag "img"))) ->
   exists out, snd tool = Ok (JObj out)) /\
  ((exists out, snd tool = Ok (JObj out)) \/ snd tool = Throw) /\
  (URL_valid u = false -> tool = (a, Throw)) /\
  (forall out,
      snd tool = Ok (JObj out) ->
      obj_get "@type" out = Some (JStr main) /\
      obj_get "name" out = Some (JStr (collect_title d)) /\
      collect_title d <> "" /\
      obj_get "url" out = Some (JStr u) /\
      obj_get "description" out = option_map JStr (collect_description d) /\
      (obj_get "image" out = None <-> select d (tag "img") = [])).
Proof.
  cbv zeta.
  set (h := Session.page_content content u a).
  set (d := cheerio_load h).
  destruct (analyzeWebsite_scraped JSON_parse d h u)
    as (r & Hr & Hu & Ht & He & _ & _ & Hs).
  assert (Hd : description r =
               Some (Js.or_empty
                       (Js.or_else
                          (attr_first "content"
                             (select d (tag_attr_eq "meta" "name" "description")))
                          (attr_first "content"
                             (select d (tag_attr_eq "meta" "property"
                                          "og:description")))))).
  { revert Hr. unfold analyzeWebsite. rewrite collectScrapedData_scraped. simpl.
    intros [= <-]. reflexivity. }
  assert (Hi : images (scrapedData r) = map collect_image (select d (tag "img")))
    by (now rewrite Hs).
  assert (Htool : snd (generate_schema_markup URL_valid URL_href fails content
                         cheerio_load JSON_parse u main [] [] a) =
                  if URL_valid u && Session.browser a &&
                     Session.calls_return fails u a && numeric_dimensions d
                  then generateSchemaMarkup URL_href r main [] []
                  else Throw).
  { unfold generate_schema_markup, Session.bind.
    destruct (URL_valid u); [|reflexivity].
    pose proof (Session_analyzeWebsite_outcome fails content cheerio_load
                  JSON_parse u a) as Ho.
    fold h in Ho. fold d in Ho. rewrite Hr in Ho.
    destruct (Session.analyzeWebsite fails content cheerio_load JSON_parse u a)
      as [a' res]. cbn [snd] in Ho. subst res.
    destruct (Session.browser a && Session.calls_return fails u a) eqn:E;
      cbn [andb snd]; rewrite ?E; [|reflexivity].
    cbn [snd exn_bind]. cbn [andb]. unfold AnalysisResultSchema_parse.
    rewrite Hi, valid_images_numeric.
    destruct (numeric_dimensions d); reflexivity. }
  rewrite Htool.
  assert (Hiff : (exists out,
                     (if URL_valid u && Session.browser a &&
                         Session.calls_return fails u a && numeric_dimensions d
                      then generateSchemaMarkup URL_href r main [] []
                      else Throw) = Ok (JObj out)) <->
                 URL_valid u = true /\
                 Session.browser a = true /\
                 Session.calls_return fails u a = true /\
                 numeric_dimensions d = true /\
                 Forall (fun img => needs_base img = true ->
                                    exists href, URL_href (img_src img) u = Ok href)
                        (map collect_image (select d (tag "img")))).
  { assert (Hret : (exists out,
                       generateSchemaMarkup URL_href r main [] [] = Ok (JObj out)) <->
                   Forall (fun img => needs_base img = true ->
                                      exists href, URL_href (img_src img) u = Ok href)
                          (map collect_image (select d (tag "img")))).
    { rewrite (generateSchemaMarkup_alone_returns r main), Hi, Hu. reflexivity. }
    rewrite <- Hret.
    destruct (URL_valid u), (Session.browser a), (Session.calls_return fails u a),
      (numeric_dimensions d); simpl;
      try (split; [intros [out H]; discriminate
                  | intros (H1 & H2 & H3 & H4 & _); discriminate]).
    split; [auto | tauto]. }
  split; [apply Hiff|]. split; [|split; [|split]].
  - intros H1 H2 H3 H4 _ H5. apply Hiff. auto.
  - destruct (URL_valid u && Session.browser a && Session.calls_return fails u a
              && numeric_dimensions d); [|now right].
    unfold generateSchemaMarkup.
    destruct (build_schema URL_href r main [] []); simpl; eauto.
  - intros Hv. unfold generate_schema_markup. now rewrite Hv.
  - intros out H.
    destruct (URL_valid u && Session.browser a && Session.calls_return fails u a
              && numeric_dimensions d); [|discriminate].
    assert (Hf : forall k, exists s1,
                 base_schema URL_href r main = Ok s1 /\
                 obj_get k out = option_map collapsed (obj_get k s1)).
    { intros k. apply (document_field _ _ _ _ _ _ _ H); [reflexivity | constructor]. }
    destruct (Hf "@type") as (s1 & Hb & H2).
    destruct (Hf "name") as (s1' & Hb' & H3). rewrite Hb in Hb'. injection Hb' as <-.
    destruct (Hf "url") as (s1' & Hb' & H4). rewrite Hb in Hb'. injection Hb' as <-.
    destruct (Hf "description") as (s1' & Hb' & H5).
    rewrite Hb in Hb'. injection Hb' as <-.
    destruct (Hf "image") as (s1' & Hb' & H6). rewrite Hb in Hb'. injection Hb' as <-.
    destruct (base_schema_get _ _ _ _ Hb) as (_ & G2 & G3 & G4 & G5 & _).
    pose proof (base_schema_image _ _ _ _ Hb) as G6.
    rewrite H2, H3, H4, H5, H6, G2, G3, G4, G5, Ht, Hu.
    split; [reflexivity|]. split; [reflexivity|]. split.
    { unfold collect_title. destruct (Js.trim _); simpl; discriminate. }
    split; [reflexivity|]. split.
    + rewrite Hd. unfold collect_description.
      destruct (attr_first _ _) as [[|c a0]|], (attr_first _ _) as [[|c' b]|];
        reflexivity.
    + rewrite Hi in G6.
      destruct (select d (tag "img")) as [|i0 imgs]; simpl in *.
      * rewrite G6. simpl. tauto.
      * destruct G6 as [objs ->]. simpl.
        split; [|discriminate]. destruct objs as [|x [|y l]]; discriminate.
Qed.

End ToolFacts.

(** A width that is no number: the validation refuses the result, and
    no document is generated although every call returns and every
    address resolves. *)
Example width_auto_refused :
  let a := {| Session.browser := true; Session.log := [] |} in
  let load := fun _ : string => MoreSamples.image_width_auto in
  snd (generate_schema_markup (fun _ => true) SampleURL.href (fun _ _ => false)
         (fun _ => "") load SampleJSON.parse "https://x.test/page" "WebPage" [] [] a) =
  Throw /\
  exists r,
    snd (Session.analyzeWebsite (fun _ _ => false) (fun _ => "") load SampleJSON.parse
           "https://x.test/page" a) = Ok r /\
    exists out, generateSchemaMarkup SampleURL.href r "WebPage" [] [] = Ok (JObj out).
Proof.
  split; [reflexivity|]. eexists. split; [reflexivity|]. eexists. reflexivity.
Qed.

(** A width and a height that start with a number: the document is
    generated, with the image at its absolute address. *)
Example image_with_size_generated :
  let a := {| Session.browser := true; Session.log := [] |} in
  let load := fun _ : string => MoreSamples.image_with_size in
  numeric_dimensions MoreSamples.image_with_size = true /\
  safe_dimensions MoreSamples.image_with_size = true /\
  snd (generate_schema_markup (fun _ => true) SampleURL.href (fun _ _ => false)
         (fun _ => "") load SampleJSON.parse "https://x.test/page" "WebPage" [] [] a) =
  Ok (JObj [("@context", JStr "https://schema.org");
            ("@type", JStr "WebPage");
            ("name", JStr "Untitled");
            ("url", JStr "https://x.test/page");
            ("image", JObj [("@type", JStr "ImageObject");
                            ("url", JStr "https://x.test/a.png");
                            ("alt", JStr "Untitled")])]).
Proof.
  repeat split.
Qed.

(** ** The analysis and the browser *)

(** X23: [analyzeWebsite] closes the page that it has opened on every
    path, and that is its last call: without a browser it throws and
    calls nothing; with one, either [newPage] throws and nothing else is
    called, or the calls are [newPage], a prefix of the calls of the
    analysis and [close] of that page, whether the analysis returns or
    throws.  When it returns, all the calls were made and the result is
    the analysis of the content that the page gave. *)
Theorem analyzeWebsite_closes_its_page fails content cheerio_load JSON_parse url a :
  let a' := fst (Session.analyzeWebsite fails content cheerio_load JSON_parse url a) in
  let res := snd (Session.analyzeWebsite fails content cheerio_load JSON_parse url a) in
  let p := length (Session.log a) in
  Session.browser a' = Session.browser a /\
  (Session.browser a = false -> a' = a /\ res = Throw) /\
  (Session.browser a = true ->
   (Session.log a' = Session.log a ++ [Session.NewPage] /\ res = Throw) \/
   (exists k,
       Session.log a' =
         Session.log a ++ Session.NewPage :: firstn k (Session.page_calls p url)
                       ++ [Session.ClosePage p])) /\
  (forall r,
      res = Ok r ->
      Session.log a' =
        Session.log a ++ Session.NewPage :: Session.page_calls p url
                      ++ [Session.ClosePage p] /\
      let html := content (Session.log a ++ Session.NewPage :: Session.page_calls p url) in
      analyzeWebsite JSON_parse (cheerio_load html) html url = Ok r).
Proof.
  cbv zeta. unfold Session.analyzeWebsite.
  destruct a as [b l]. cbn [Session.browser Session.log].
  destruct b; cbn [negb].
  2:{ cbn [fst snd Session.browser]. repeat split; try discriminate. }
  unfold Session.bind, Session.try_finally, Session.call, Session.page_calls.
  cbn [Session.browser Session.log].
  set (p := length l).
  destruct (fails l Session.NewPage); cbn [fst snd Session.browser Session.log].
  { split; [reflexivity|]. split; [discriminate|]. split; [auto | discriminate]. }
  destruct (fails (l ++ [Session.NewPage]) (Session.SetUserAgent p));
    cbn [fst snd Session.browser Session.log].
  { destruct (fails _ (Session.ClosePage p)); cbn [fst snd Session.browser Session.log];
      (split; [reflexivity|]; split; [discriminate|]; split; [|discriminate]);
      intros _; right; exists 1; rewrite <- !app_assoc; reflexivity. }
  destruct (fails ((l ++ [Session.NewPage]) ++ [Session.SetUserAgent p])
              (Session.SetViewport p));
    cbn [fst snd Session.browser Session.log].
  { destruct (fails _ (Session.ClosePage p)); cbn [fst snd Session.browser Session.log];
      (split; [reflexivity|]; split; [discriminate|]; split; [|discriminate]);
      intros _; right; exists 2; rewrite <- !app_assoc; reflexivity. }
  destruct (fails (((l ++ [Session.NewPage]) ++ [Session.SetUserAgent p])
                     ++ [Session.SetViewport p]) (Session.Goto p url));
    cbn [fst snd Session.browser Session.log].
  { destruct (fails _ (Session.ClosePage p)); cbn [fst snd Session.browser Session.log];
      (split; [reflexivity|]; split; [discriminate|]; split; [|discriminate]);
      intros _; right; exists 3; rewrite <- !app_assoc; reflexivity. }
  destruct (fails ((((l ++ [Session.NewPage]) ++ [Session.SetUserAgent p])
                      ++ [Session.SetViewport p]) ++ [Session.Goto p url])
              (Session.Content p));
    cbn [fst snd Session.browser Session.log].
  { destruct (fails _ (Session.ClosePage p)); cbn [fst snd Session.browser Session.log];
      (split; [reflexivity|]; split; [discriminate|]; split; [|discriminate]);
      intros _; right; exists 4; rewrite <- !app_assoc; reflexivity. }
  assert (Hl : ((((l ++ [Session.NewPage]) ++ [Session.SetUserAgent p])
                   ++ [Session.SetViewport p]) ++ [Session.Goto p url])
                 ++ [Session.Content p] =
               l ++ [Session.NewPage; Session.SetUserAgent p; Session.SetViewport p;
                     Session.Goto p url; Session.Content p])
    by (rewrite <- !app_assoc; reflexivity).
  rewrite Hl.
  destruct (fails _ (Session.ClosePage p)); cbn [fst snd Session.browser Session.log];
    (split; [reflexivity|]; split; [discriminate|]; split;
     [intros _; right; exists 4; rewrite <- !app_assoc; reflexivity|]).
  - discriminate.
  - intros r Hr. split; [rewrite <- !app_assoc; reflexivity | exact Hr].
Qed.

(** ** The synthesizer on a store *)

Import Store.

Section StoreRules.

Variable E : Heap -> Prop.

Lemma hoare_ret {A} (P : Heap -> Prop) (a : A) (Q : A -> Heap -> Prop) :
(forall h, P h -> Q a h) -> hoare E P (ret a) Q.
Proof. intros H h Hp. simpl. auto. Qed.

Lemma hoare_throw {A} (P : Heap -> Prop) (Q : A -> Heap -> Prop) :
(forall h, P h -> E h) -> hoare E P throw Q.
Proof. intros H h Hp. simpl. auto. Qed.

Lemma hoare_bind {A B} (P : Heap -> Prop) (m : M A) (R : A -> Heap -> Prop)
(f : A -> M B) (Q : B -> Heap -> Prop) :
hoare E P m R -> (forall a, hoare E (R a) (f a) Q) -> hoare E P (bind m f) Q.
Proof.
intros Hm Hf h Hp. unfold bind. specialize (Hm h Hp).
destruct (m h) as [h' [a|]]; [exact (Hf a h' Hm) | exact Hm].
Qed.

Lemma hoare_conseq {A} (P P' : Heap -> Prop) (m : M A) (Q Q' : A -> Heap -> Prop) :
(forall h, P' h -> P h) -> (forall a h, Q a h -> Q' a h) ->
hoare E P m Q -> hoare E P' m Q'.
Proof.
intros Hp Hq Hm h Hh. specialize (Hm h (Hp h Hh)).
destruct (m h) as [h' [a|]]; auto.
Qed.

Lemma hoare_forM {A} (I : Heap -> Prop) (l : list A) (f : A -> M unit) :
(forall x, In x l -> hoare E I (f x) (fun _ => I)) ->
hoare E I (forM_ l f) (fun _ => I).
Proof.
induction l as [|x l IH]; intros Hf; simpl.
- now apply hoare_ret.
- eapply hoare_bind; [apply Hf; now left|].
  intros u. apply IH. intros y Hy. apply Hf. now right.
Qed.

Lemma hoare_mapM {A B} (I : Heap -> Prop) (f : A -> M B) (l : list A) :
(forall x, hoare E I (f x) (fun _ => I)) ->
hoare E I (mapM f l) (fun _ => I).
Proof.
intros Hf. induction l as [|x l IH]; simpl.
- now apply hoare_ret.
- eapply hoare_bind; [apply Hf|]. intros y.
  eapply hoare_bind; [apply IH|]. intros ys. now apply hoare_ret.
Qed.

(** A computation that only reads keeps what holds of the store and
  returns what it returns from that store. *)
Lemma hoare_read {A} (P : Heap -> Prop) (m : M A) :
readonly m -> (forall h, P h -> E h) ->
hoare E P m (fun a h => P h /\ m h = (h, Ok a)).
Proof.
intros Hr He h Hp. specialize (Hr h).
destruct (m h) as [h' [a|]] eqn:Em; simpl in Hr; subst h'; auto.
Qed.

End StoreRules.

Lemma readonly_ret {A} (a : A) : readonly (ret a).
Proof. intros h. reflexivity. Qed.

Lemma readonly_bind {A B} (m : M A) (f : A -> M B) :
  readonly m -> (forall a, readonly (f a)) -> readonly (bind m f).
Proof.
  intros Hm Hf h. unfold bind. specialize (Hm h).
  destruct (m h) as [h' [a|]]; simpl in *; subst; [apply Hf | reflexivity].
Qed.

Lemma readonly_get_prop v k : readonly (get_prop v k).
Proof.
  intros h. unfold get_prop.
  destruct v; try reflexivity. destruct (h !! l) as [[|]|]; reflexivity.
Qed.

Lemma readonly_own_props v : readonly (own_props v).
Proof.
  intros h. unfold own_props.
  destruct v; try reflexivity. destruct (h !! l) as [[|]|]; reflexivity.
Qed.

Lemma readonly_array_items v : readonly (array_items v).
Proof.
  intros h. unfold array_items.
  destruct v; try reflexivity. destruct (h !! l) as [[|]|]; reflexivity.
Qed.

Lemma readonly_url_href U s b : readonly (url_href U s b).
Proof. intros h. unfold url_href. destruct b; reflexivity. Qed.

Lemma readonly_filterM {A} (f : A -> M bool) l :
  (forall x, readonly (f x)) -> readonly (filterM f l).
Proof.
  intros Hf. induction l as [|x l IH]; simpl; [apply readonly_ret|].
  apply readonly_bind; [apply Hf|]. intros b.
  apply readonly_bind; [apply IH|]. intros xs. apply readonly_ret.
Qed.

(** *** What a write keeps *)

Lemma hoare_weaken {A} (E E' P : Heap -> Prop) (m : M A) (Q : A -> Heap -> Prop) :
  (forall h, E h -> E' h) -> hoare E P m Q -> hoare E' P m Q.
Proof.
  intros He Hm h Hp. specialize (Hm h Hp).
  destruct (m h) as [h' [a|]]; auto.
Qed.

(** A fact that follows from the precondition may be used to choose the
    rule. *)
Lemma hoare_pure {A} (E P : Heap -> Prop) (m : M A) (Q : A -> Heap -> Prop)
  (phi : Prop) :
  (forall h, P h -> phi) -> (phi -> hoare E P m Q) -> hoare E P m Q.
Proof. intros Hphi Hm h Hp. exact (Hm (Hphi h Hp) h Hp). Qed.

Section Frame.

(** [Wf] are the cells that may have been written, [W] the cells that
  the document may refer to. *)
Variable h0 : Heap.
Variable Wf W : loc -> Prop.

Lemma frame_alloc h c : frame h0 Wf h -> frame h0 Wf (h ++ [c]).
Proof.
intros [Hl Hf]. split.
- rewrite length_app. lia.
- intros l Hlt Hw. rewrite lookup_app_l by lia. now apply Hf.
Qed.

Lemma frame_write h t c :
frame h0 Wf h -> length h0 <= t \/ Wf t -> frame h0 Wf (<[t := c]> h).
Proof.
intros [Hl Hf] Ht. split.
- now rewrite length_insert.
- intros l Hlt Hw. rewrite list_lookup_insert_ne; [now apply Hf|].
  intros ->. destruct Ht; [lia | contradiction].
Qed.

Lemma obj_set_Forall (P : Val -> Prop) k v (o : list (string * Val)) :
P v -> Forall (fun kv => P (snd kv)) o ->
Forall (fun kv => P (snd kv)) (obj_set k v o).
Proof.
intros Hv. induction 1 as [|[k' v'] o Hx Ho IH]; simpl.
- repeat constructor. exact Hv.
- destruct (String.eqb k k'); constructor; auto.
Qed.

Lemma obj_get_Forall (P : Val -> Prop) k (o : list (string * Val)) v :
Forall (fun kv => P (snd kv)) o -> obj_get k o = Some v -> P v.
Proof.
induction 1 as [|[k' v'] o Hx Ho IH]; simpl; [discriminate|].
destruct (String.eqb k k'); [now intros [= <-] | exact IH].
Qed.

Local Abbreviation okval := (okval h0 W).
Local Abbreviation inv := (inv h0 Wf W).

Lemma inv_alloc s h c : inv s h -> inv s (h ++ [c]).
Proof.
intros [Hf (Hs & props & Hp & Hv)]. split; [now apply frame_alloc|].
split; [exact Hs|]. exists props. split; [|exact Hv].
now apply lookup_app_l_Some.
Qed.

Lemma inv_write_other s h t c :
inv s h -> t <> s -> length h0 <= t \/ Wf t -> inv s (<[t := c]> h).
Proof.
intros [Hf (Hs & props & Hp & Hv)] Hne Ht. split; [now apply frame_write|].
split; [exact Hs|]. exists props. split; [|exact Hv].
now rewrite list_lookup_insert_ne.
Qed.

Lemma inv_new s h : inv s h -> length h0 <= length h /\ s < length h.
Proof.
intros [[Hl _] (_ & props & Hp & _)]. split; [exact Hl|].
now apply lookup_lt_Some in Hp.
Qed.

(** A new cell: its place is beyond the old store and is not the
  document. *)
Lemma hoare_alloc s c :
hoare (frame h0 Wf) (inv s) (alloc c)
  (fun l h => inv s h /\ length h0 <= l /\ l <> s).
Proof.
intros h Hh. simpl. split; [now apply inv_alloc|].
destruct (inv_new _ _ Hh). lia.
Qed.

(** [schema[k] = v] keeps the invariant when [v] is [okval]. *)
Lemma hoare_set_schema s k v :
okval v -> hoare (frame h0 Wf) (inv s) (set_prop s k v) (fun _ => inv s).
Proof.
intros Hv h [Hf (Hs & props & Hp & Hvs)]. unfold set_prop. rewrite Hp.
split; [apply frame_write; auto|].
split; [exact Hs|]. exists (obj_set k v props). split.
- apply list_lookup_insert_eq. now apply lookup_lt_Some in Hp.
- now apply obj_set_Forall.
Qed.

(** A write to a new object other than the document keeps the
  invariant. *)
Lemma hoare_set_other s t k v :
t <> s -> length h0 <= t ->
hoare (frame h0 Wf) (inv s) (set_prop t k v) (fun _ => inv s).
Proof.
intros Hne Ht h Hi. unfold set_prop.
destruct (h !! t) as [[props|items]|]; simpl; try exact (proj1 Hi).
apply inv_write_other; auto.
Qed.

(** Reading a field of the document gives an [okval] value. *)
Lemma get_schema_okval s h k v :
inv s h -> get_prop (VRef s) k h = (h, Ok v) -> okval v.
Proof.
intros [_ (_ & props & Hp & Hvs)]. unfold get_prop. rewrite Hp.
destruct (obj_get k props) as [x|] eqn:G.
- intros [= <-]. exact (obj_get_Forall _ _ _ _ Hvs G).
- intros [= <-]. now destruct (inherited k).
Qed.

(** [target.push(x)] keeps the invariant when [target] is [okval] and
  the cells of [W] may be written. *)
Lemma hoare_push s target x :
(forall t, W t -> Wf t) ->
okval target -> hoare (frame h0 Wf) (inv s) (push target x) (fun _ => inv s).
Proof.
intros Hsub Ht h Hi. unfold push.
destruct target as [| | | | |t|]; simpl; try exact (proj1 Hi).
destruct (h !! t) as [[props|items]|] eqn:Hc; simpl; try exact (proj1 Hi).
apply inv_write_other; [exact Hi | | destruct Ht; auto].
intros ->. destruct Hi as [_ (_ & props & Hp & _)]. congruence.
Qed.

(** A computation that only reads keeps the invariant. *)
Lemma hoare_inv_read {A} s (m : M A) :
readonly m ->
hoare (frame h0 Wf) (inv s) m (fun a h => inv s h /\ m h = (h, Ok a)).
Proof. intros Hr. apply hoare_read; [exact Hr | now intros h [Hf _]]. Qed.

Lemma hoare_inv_read_ {A} s (m : M A) :
readonly m -> hoare (frame h0 Wf) (inv s) m (fun _ => inv s).
Proof.
intros Hr. eapply hoare_conseq; [| |apply (hoare_inv_read s m Hr)]; simpl; tauto.
Qed.

End Frame.

(** *** The steps of the synthesis *)

Ltac readonly_tac :=
  repeat first
    [ apply readonly_ret
    | apply readonly_get_prop
    | apply readonly_own_props
    | apply readonly_array_items
    | apply readonly_url_href
    | apply readonly_filterM; intros
    | apply readonly_bind; [|intros]
    | match goal with
      | |- readonly (match ?x with _ => _ end) => destruct x
      | |- readonly throw => intros ?; reflexivity
      end ].

Section Steps.

Variable URL_href : string -> string -> Exn string.
Variable analysisResult : Val.
Variable h0 : Heap.
Variable Wf W : loc -> Prop.

Local Abbreviation E := (frame h0 Wf).
Local Abbreviation inv := (inv h0 Wf W).

Lemma image_object_inv s img :
hoare E (inv s) (image_object URL_href analysisResult img) (fun _ => inv s).
Proof.
unfold image_object.
eapply hoare_bind; [apply hoare_inv_read_; readonly_tac|]. intros src.
eapply hoare_bind; [apply hoare_inv_read_; readonly_tac|]. intros u.
eapply hoare_bind; [apply hoare_inv_read_; readonly_tac|]. intros alt.
eapply hoare_bind; [apply hoare_inv_read_; readonly_tac|]. intros title.
eapply hoare_bind; [apply hoare_alloc|]. intros o.
apply hoare_ret. tauto.
Qed.

Lemma absolutize_step_inv s ns key :
ns <> s -> length h0 <= ns ->
hoare E (inv s) (absolutize_step URL_href analysisResult ns key) (fun _ => inv s).
Proof.
intros Hne Hns. unfold absolutize_step.
eapply hoare_bind; [apply hoare_inv_read_; readonly_tac|]. intros v.
destruct v; try (apply hoare_ret; tauto).
destruct (Js.startsWith s0 "/"); [|apply hoare_ret; tauto].
eapply hoare_bind; [apply hoare_inv_read_; readonly_tac|]. intros base.
eapply hoare_bind; [apply hoare_inv_read_; readonly_tac|]. intros href.
now apply hoare_set_other.
Qed.

Lemma nested_step_inv s nested :
(forall t, W t -> Wf t) ->
hoare E (inv s) (nested_step URL_href analysisResult s nested) (fun _ => inv s).
Proof.
intros Hsub. unfold nested_step.
eapply hoare_bind; [apply hoare_inv_read_; readonly_tac|]. intros cur.
eapply hoare_bind with (R := fun _ => inv s).
{ destruct (negb (truthy cur)); [|apply hoare_ret; tauto].
  eapply hoare_bind; [apply hoare_alloc|]. intros a.
  apply hoare_pure with (phi := length h0 <= a); [tauto|]. intros Ha.
  eapply hoare_conseq; [| |apply (hoare_set_schema h0 Wf W s)].
  - simpl. tauto.
  - simpl. tauto.
  - simpl. now left. }
intros u0.
eapply hoare_bind; [apply hoare_inv_read_; readonly_tac|]. intros props.
eapply hoare_bind; [apply hoare_alloc|]. intros ns.
apply hoare_pure with (phi := length h0 <= ns /\ ns <> s); [tauto|].
intros [Hns Hne].
eapply hoare_bind with (R := fun _ => inv s).
{ eapply hoare_conseq;
    [| |apply (hoare_inv_read_ h0 Wf W s); readonly_tac]; simpl; tauto. }
intros keys.
eapply hoare_bind; [apply hoare_forM; intros; now apply absolutize_step_inv|].
intros u.
eapply hoare_bind; [apply hoare_inv_read; readonly_tac|]. intros target.
apply hoare_pure with (phi := okval h0 W target).
{ intros h [Hi Hg]. exact (get_schema_okval _ _ _ _ _ _ _ Hi Hg). }
intros Ht.
eapply hoare_conseq; [| |apply (hoare_push h0 Wf W s)]; simpl; auto; tauto.
Qed.

End Steps.

Lemma collapse_step_frame h0 Wf s key :
  length h0 <= s ->
  hoare (frame h0 Wf) (frame h0 Wf) (collapse_step s key) (fun _ => frame h0 Wf).
Proof.
  intros Hs. unfold collapse_step.
  eapply hoare_bind; [apply hoare_read; [readonly_tac | tauto]|]. intros v.
  destruct v; try (apply hoare_ret; tauto).
  intros h [Hf _]. destruct (h !! l) as [[props|[|x [|y items]]]|]; try exact Hf.
  unfold set_prop. destruct (h !! s) as [[props|items]|]; try exact Hf.
  apply frame_write; auto.
Qed.

(** *** The frame of the synthesis *)

Lemma frame_mono h0 (Wf Wf' : loc -> Prop) h :
  (forall l, Wf l -> Wf' l) -> frame h0 Wf h -> frame h0 Wf' h.
Proof.
  intros Hsub [Hl Hf]. split; [exact Hl|].
  intros l Hlt Hw. apply Hf; [exact Hlt | intros Hw'; apply Hw, Hsub, Hw'].
Qed.

Lemma frame_refl h0 Wf : frame h0 Wf h0.
Proof. split; [lia | reflexivity]. Qed.

(** While no old cell has been written, a read through a valid
    reference gives what it gave in the old store. *)
Lemma get_prop_old h0 h v k x :
  frame h0 nowhere h -> valid h0 v ->
  get_prop v k h = (h, Ok x) -> get_prop v k h0 = (h0, Ok x).
Proof.
  intros [_ Hf] Hv. unfold get_prop. destruct v; try (intros [= <-]; reflexivity);
    try discriminate.
  simpl in Hv. rewrite (Hf l Hv (fun F => F)).
  destruct (h0 !! l) as [[props|items]|]; [| |discriminate]; now intros [= <-].
Qed.

Lemma own_props_old h0 h v ps :
  frame h0 nowhere h -> valid h0 v ->
  own_props v h = (h, Ok ps) -> own_props v h0 = (h0, Ok ps).
Proof.
  intros [_ Hf] Hv. unfold own_props. destruct v; try (intros [= <-]; reflexivity).
  simpl in Hv. rewrite (Hf l Hv (fun F => F)).
  destruct (h0 !! l) as [[props|items]|]; [| |discriminate]; now intros [= <-].
Qed.

Section MainFrame.

Variable URL_href : string -> string -> Exn string.
Variables analysisResult customProperties : Val.
Variable h0 : Heap.

Local Abbreviation written := (written h0 analysisResult customProperties).

Hypothesis valid_analysisResult : valid h0 analysisResult.
Hypothesis valid_customProperties : valid h0 customProperties.

Lemma field_okval h k v :
frame h0 nowhere h ->
In k ["title"; "url"; "description"] ->
get_prop analysisResult k h = (h, Ok v) -> okval h0 written v.
Proof.
intros Hf Hk Hg. apply (get_prop_old _ _ _ _ _ Hf valid_analysisResult) in Hg.
destruct v; simpl; auto. right. unfold written, exposed.
apply in_or_app. right. apply in_flat_map. exists k. split; [exact Hk|].
rewrite Hg. now left.
Qed.

Lemma custom_okval h ps :
frame h0 nowhere h ->
own_props customProperties h = (h, Ok ps) ->
Forall (fun kv => okval h0 written (snd kv)) ps.
Proof.
intros Hf Hg. apply (own_props_old _ _ _ _ Hf valid_customProperties) in Hg.
apply Forall_forall. intros [k v] Hin. apply list_elem_of_In in Hin.
destruct v; simpl; auto. right.
unfold written, exposed. apply in_or_app. left. rewrite Hg.
apply in_map_iff. exists (k, VRef l). split; [reflexivity | exact Hin].
Qed.

Local Abbreviation E := (frame h0 written).
Local Abbreviation inv1 := (inv h0 nowhere written).
Local Abbreviation inv2 := (inv h0 written written).

Lemma early {A} (P : Heap -> Prop) (m : M A) (Q : A -> Heap -> Prop) :
hoare (frame h0 nowhere) P m Q -> hoare E P m Q.
Proof. apply hoare_weaken. intros h. apply frame_mono. intros l []. Qed.

Lemma inv1_inv2 s h : inv1 s h -> inv2 s h.
Proof.
intros [Hf Hs]. split; [|exact Hs].
revert Hf. apply frame_mono. intros l [].
Qed.

Lemma generateSchemaMarkup_hoare mainSchema nestedSchemas :
hoare E (fun h => h = h0)
  (generateSchemaMarkup URL_href analysisResult mainSchema nestedSchemas
     customProperties)
  (fun _ => E).
Proof.
unfold generateSchemaMarkup.
eapply hoare_bind;
  [apply hoare_read; [readonly_tac | intros h ->; apply frame_refl]|].
intros title. apply hoare_pure with (phi := okval h0 written title).
{ intros h [-> Hg]. eapply field_okval; [apply frame_refl| |exact Hg].
  simpl. tauto. }
intros Htitle.
eapply hoare_bind with (R := fun u h => h = h0 /\ okval h0 written u).
{ eapply hoare_conseq;
    [| |apply (hoare_read E (fun h => h = h0)); [readonly_tac|]].
  - simpl. tauto.
  - simpl. intros u h [-> Hg]. split; [reflexivity|].
    eapply field_okval; [apply frame_refl| |exact Hg]. simpl. tauto.
  - intros h ->. apply frame_refl. }
intros u. apply hoare_pure with (phi := okval h0 written u); [tauto|].
intros Hu.
eapply hoare_bind with (R := fun s => inv1 s).
{ intros h [-> _]. simpl. split; [apply frame_alloc, frame_refl|].
  split; [lia|]. eexists. split.
  - rewrite lookup_app_r by lia. rewrite Nat.sub_diag. reflexivity.
  - repeat constructor; simpl; auto. }
intros s.
(* description *)
eapply hoare_bind; [apply early, hoare_inv_read; readonly_tac|].
intros description.
apply hoare_pure with (phi := okval h0 written description).
{ intros h [[Hf _] Hg]. eapply field_okval; [exact Hf| |exact Hg].
  simpl. tauto. }
intros Hd.
eapply hoare_bind with (R := fun _ => inv1 s).
{ destruct (truthy description).
  - eapply hoare_conseq; [| |apply early, (hoare_set_schema h0 nowhere written s)];
      simpl; auto; tauto.
  - apply hoare_ret. tauto. }
intros u1.
(* images *)
eapply hoare_bind; [apply early, hoare_inv_read_; readonly_tac|].
intros scrapedData.
eapply hoare_bind; [apply early, hoare_inv_read_; readonly_tac|].
intros images.
eapply hoare_bind; [apply early, hoare_inv_read_; readonly_tac|].
intros items.
eapply hoare_bind with (R := fun _ => inv1 s).
{ destruct (0 <? length items)%nat; [|apply hoare_ret; tauto].
  eapply hoare_bind; [apply early, hoare_inv_read_; readonly_tac|].
  intros filtered.
  eapply hoare_bind;
    [apply early, hoare_mapM; intros; apply image_object_inv|].
  intros image.
  eapply hoare_bind; [apply early, hoare_alloc|]. intros arr.
  apply hoare_pure with (phi := length h0 <= arr); [tauto|]. intros Harr.
  eapply hoare_conseq; [| |apply early, (hoare_set_schema h0 nowhere written s)];
    simpl; auto; tauto. }
intros u2.
(* customProperties *)
eapply hoare_bind; [apply early, hoare_inv_read; readonly_tac|].
intros props.
apply hoare_pure
  with (phi := Forall (fun kv => okval h0 written (snd kv)) props).
{ intros h [[Hf _] Hg]. exact (custom_okval _ _ Hf Hg). }
intros Hprops.
eapply hoare_bind with (R := fun _ => inv2 s).
{ eapply hoare_conseq with (P := inv1 s) (Q := fun _ => inv1 s).
  - simpl. tauto.
  - intros _ h. apply inv1_inv2.
  - apply early, hoare_forM. intros kv Hin. apply hoare_set_schema.
    rewrite Forall_forall in Hprops. apply Hprops, list_elem_of_In, Hin. }
intros u3.
(* nestedSchemas *)
eapply hoare_bind;
  [apply hoare_forM; intros; apply nested_step_inv; auto|].
intros u4.
(* the last loop *)
apply hoare_pure with (phi := length h0 <= s).
{ intros h [_ [Hs _]]. exact Hs. }
intros Hs.
eapply hoare_bind with (R := fun _ => E).
{ eapply hoare_conseq;
    [| |apply (hoare_read E (inv2 s)); [readonly_tac|]].
  - simpl. tauto.
  - intros keys h [[Hf _] _]. exact Hf.
  - intros h [Hf _]. exact Hf. }
intros keys.
eapply hoare_bind;
  [apply hoare_forM; intros; now apply collapse_step_frame|].
intros u5. apply hoare_ret. tauto.
Qed.

End MainFrame.

(** Every cell of the store is after the synthesis what it was before,
    whether the synthesis returns or throws, unless [customProperties]
    holds a reference to it in one of its properties or the analysis
    result holds one in [title], [url] or [description]. *)
Lemma generateSchemaMarkup_frame URL_href analysisResult mainSchema nestedSchemas
  customProperties h0 l :
  valid h0 analysisResult ->
  valid h0 customProperties ->
  l < length h0 ->
  ~ In (VRef l) (exposed h0 analysisResult customProperties) ->
  fst (Store.generateSchemaMarkup URL_href analysisResult mainSchema nestedSchemas
         customProperties h0) !! l = h0 !! l.
Proof.
  intros Ha Hc Hl Hw.
  pose proof (generateSchemaMarkup_hoare URL_href analysisResult customProperties
                h0 Ha Hc mainSchema nestedSchemas h0 eq_refl) as H.
  destruct (Store.generateSchemaMarkup _ _ _ _ _ h0) as [h' [v|]]; simpl;
    destruct H as [_ Hf]; now apply Hf.
Qed.

(** *** Values put into the store *)

Lemma appends_ret {A} (a : A) : appends (ret a).
Proof. intros h. exists [], a. simpl. now rewrite app_nil_r. Qed.

Lemma appends_alloc c : appends (alloc c).
Proof. intros h. now exists [c], (length h). Qed.

Lemma appends_bind {A B} (m : M A) (f : A -> M B) :
  appends m -> (forall a, appends (f a)) -> appends (bind m f).
Proof.
  intros Hm Hf h. unfold bind. destruct (Hm h) as (e1 & a & ->).
  destruct (Hf a (h ++ e1)) as (e2 & b & ->).
  exists (e1 ++ e2), b. now rewrite app_assoc.
Qed.

Lemma appends_mapM {A B} (f : A -> M B) l :
  (forall x, appends (f x)) -> appends (mapM f l).
Proof.
  intros Hf. induction l as [|x l IH]; simpl; [apply appends_ret|].
  apply appends_bind; [apply Hf|]. intros y.
  apply appends_bind; [apply IH|]. intros ys. apply appends_ret.
Qed.

Lemma above_le n m v : n <= m -> above m v -> above n v.
Proof. destruct v; simpl; auto. lia. Qed.

(** [load] returns, adds cells at the end of the store and gives a value
    that refers to none of the old cells. *)
Lemma load_spec : forall v h,
  exists ext x, load v h = (h ++ ext, Ok x) /\ above (length h) x.
Proof.
  fix IH 1. intros [| b | n | s | items | props] h.
  - exists [], VNull. simpl. now rewrite app_nil_r.
  - exists [], (VBool b). simpl. now rewrite app_nil_r.
  - exists [], (VNum n). simpl. now rewrite app_nil_r.
  - exists [], (VStr s). simpl. now rewrite app_nil_r.
  - simpl. unfold bind at 1.
    match goal with |- context [?f items h] => set (go := f) end.
    assert (Hgo : forall l h1, exists ext vs, go l h1 = (h1 ++ ext, Ok vs)).
    { induction l as [|x l IHl]; intros h1.
      - exists [], []. simpl. now rewrite app_nil_r.
      - simpl. unfold bind at 1.
        destruct (IH x h1) as (e1 & y & -> & _).
        unfold bind at 1. destruct (IHl (h1 ++ e1)) as (e2 & ys & ->).
        exists (e1 ++ e2), (y :: ys). simpl. now rewrite app_assoc. }
    destruct (Hgo items h) as (ext & vs & ->).
    exists (ext ++ [CArr vs]), (VRef (length (h ++ ext))). simpl.
    rewrite app_assoc. split; [reflexivity|]. rewrite length_app. lia.
  - simpl. unfold bind at 1.
    match goal with |- context [?f props h] => set (go := f) end.
    assert (Hgo : forall l h1, exists ext vs, go l h1 = (h1 ++ ext, Ok vs)).
    { induction l as [|[k x] l IHl]; intros h1.
      - exists [], []. simpl. now rewrite app_nil_r.
      - simpl. unfold bind at 1.
        destruct (IH x h1) as (e1 & y & -> & _).
        unfold bind at 1. destruct (IHl (h1 ++ e1)) as (e2 & ys & ->).
        exists (e1 ++ e2), ((k, y) :: ys). simpl. now rewrite app_assoc. }
    destruct (Hgo props h) as (ext & vs & ->).
    exists (ext ++ [CObj vs]), (VRef (length (h ++ ext))). simpl.
    rewrite app_assoc. split; [reflexivity|]. rewrite length_app. lia.
Qed.

Lemma load_obj_spec props h :
  exists ext ps,
    load (JObj props) h = ((h ++ ext) ++ [CObj ps], Ok (VRef (length (h ++ ext)))) /\
    Forall (fun kv => above (length h) (snd kv)) ps.
Proof.
  simpl. unfold bind at 1.
  match goal with |- context [?f props h] => set (go := f) end.
  assert (Hgo : forall l h1,
             exists ext vs, go l h1 = (h1 ++ ext, Ok vs) /\
                            Forall (fun kv => above (length h1) (snd kv)) vs).
  { induction l as [|[k x] l IHl]; intros h1.
    - exists [], []. simpl. rewrite app_nil_r. split; [reflexivity | constructor].
    - simpl. unfold bind at 1.
      destruct (load_spec x h1) as (e1 & y & -> & Hy).
      unfold bind at 1. destruct (IHl (h1 ++ e1)) as (e2 & ys & -> & Hys).
      exists (e1 ++ e2), ((k, y) :: ys). simpl. rewrite app_assoc.
      split; [reflexivity|]. constructor; [exact Hy|].
      apply Forall_forall. intros kv Hin. rewrite Forall_forall in Hys.
      eapply above_le; [|apply Hys, Hin]. rewrite length_app. lia. }
  destruct (Hgo props h) as (ext & vs & -> & Hvs).
  exists ext, vs. simpl. split; [reflexivity | exact Hvs].
Qed.

Lemma load_images_spec imgs : appends (mapM load_image imgs).
Proof.
  apply appends_mapM. intros img. unfold load_image.
  apply appends_bind; [apply appends_alloc|]. intros o. apply appends_ret.
Qed.

Lemma load_nested_spec ns : appends (mapM load_nested ns).
Proof.
  apply appends_mapM. intros n. unfold load_nested.
  apply appends_bind; [|intros p; apply appends_ret].
  intros h. destruct (load_spec (JObj (ns_properties n)) h) as (e & x & -> & _).
  now exists e, x.
Qed.

(** The analysis result is an object with the strings [url] and [title]
    and, when there is one, [description]. *)
Lemma load_analysis_spec r h :
  exists ext o sd,
    load_analysis r h = (h ++ ext, Ok (VRef o)) /\
    (h ++ ext) !! o =
      Some (CObj ([("url", VStr (url r)); ("title", VStr (title r))]
                  ++ opt_prop "description" (description r)
                  ++ [("scrapedData", VRef sd)])).
Proof.
  unfold load_analysis. unfold bind at 1.
  destruct (load_images_spec (images (scrapedData r)) h) as (e1 & imgs & ->).
  simpl. unfold bind. simpl.
  eexists (e1 ++ [_; _; _]), _, _. split.
  - rewrite <- !app_assoc. simpl. reflexivity.
  - rewrite !length_app. simpl.
    rewrite lookup_app_r by lia.
    rewrite lookup_app_r by lia.
    match goal with
    | |- context [?n - length h - length e1] =>
        replace (n - length h - length e1) with 2 by lia
    end.
    reflexivity.
Qed.

(** C9: when the analysis result, the properties of the nested schemas
    and then [customProperties] have been put into the store, the
    synthesis leaves every cell of the analysis result, its images
    included, and of the properties of the nested schemas as it was,
    whether it returns or throws. *)
Theorem synthesis_keeps_analysis_and_properties
  URL_href r mainSchema nestedSchemas customProperties h :
  exists h1 a h2 ns h3 c,
    load_analysis r h = (h1, Ok a) /\
    mapM load_nested nestedSchemas h1 = (h2, Ok ns) /\
    load (JObj customProperties) h2 = (h3, Ok c) /\
    length h <= length h1 /\ length h1 <= length h2 /\ length h2 <= length h3 /\
    (forall l, l < length h2 -> h3 !! l = h2 !! l) /\
    (forall l, l < length h2 ->
       fst (Store.generateSchemaMarkup URL_href a mainSchema ns c h3) !! l
       = h3 !! l).
Proof.
  destruct (load_analysis_spec r h) as (e1 & o & sd & Ha & Ho).
  assert (Hlt : o < length (h ++ e1)) by (now apply lookup_lt_Some in Ho).
  assert (H1 : length h <= length (h ++ e1)) by (rewrite length_app; lia).
  set (h1 := h ++ e1) in *. clearbody h1.
  destruct (load_nested_spec nestedSchemas h1) as (e2 & ns & Hn).
  assert (H2 : length h1 <= length (h1 ++ e2)) by (rewrite length_app; lia).
  assert (Ho2 : (h1 ++ e2) !! o = Some (CObj
            ([("url", VStr (url r)); ("title", VStr (title r))]
             ++ opt_prop "description" (description r)
             ++ [("scrapedData", VRef sd)]))).
  { rewrite lookup_app_l by exact Hlt. exact Ho. }
  set (h2 := h1 ++ e2) in *. clearbody h2.
  destruct (load_obj_spec customProperties h2) as (e3 & ps & Hc & Hps).
  exists h1, (VRef o), h2, ns, ((h2 ++ e3) ++ [CObj ps]), (VRef (length (h2 ++ e3))).
  split; [exact Ha|]. split; [exact Hn|]. split; [exact Hc|].
  split; [exact H1|]. split; [exact H2|].
  split; [rewrite !length_app; lia|].
  assert (Hold : forall l, l < length h2 ->
                           ((h2 ++ e3) ++ [CObj ps]) !! l = h2 !! l).
  { intros l Hl. rewrite <- app_assoc. now apply lookup_app_l. }
  split; [exact Hold|].
  intros l Hl. apply generateSchemaMarkup_frame.
  - simpl. rewrite !length_app. lia.
  - simpl. rewrite !length_app. simpl. lia.
  - rewrite !length_app. lia.
  - unfold exposed. intros Hin. apply in_app_or in Hin. destruct Hin as [Hin|Hin].
    + unfold own_props in Hin.
      rewrite lookup_app_r in Hin by lia. rewrite Nat.sub_diag in Hin.
      simpl in Hin. apply in_map_iff in Hin. destruct Hin as ([k v] & Hv & Hin).
      simpl in Hv. subst v. rewrite Forall_forall in Hps.
      apply list_elem_of_In in Hin.
      specialize (Hps _ Hin). simpl in Hps. lia.
    + unfold get_prop in Hin. simpl in Hin.
      rewrite (Hold o) in Hin by lia. rewrite Ho2 in Hin. simpl in Hin.
      destruct (description r) as [d|]; simpl in Hin; intuition discriminate.
Qed.

(** *** On any store *)

(** X24: on any store, whatever the arguments share, the synthesis
    removes no cell and changes no cell of the store it was started in
    other than those that [customProperties] holds in a property or the
    analysis result holds in [title], [url] or [description], whether it
    returns or throws; [customProperties] has no property [__proto__],
    through which a list of another cell could be reached. *)
Theorem synthesis_writes_only_exposed_cells URL_href analysisResult mainSchema
  nestedSchemas customProperties h0 :
  Store.valid h0 analysisResult ->
  Store.valid h0 customProperties ->
  match Store.own_props customProperties h0 with
  | (_, Ok props) => obj_get "__proto__" props = None
  | (_, Throw) => True
  end ->
  length h0 <=
    length (fst (Store.generateSchemaMarkup URL_href analysisResult mainSchema
                   nestedSchemas customProperties h0)) /\
  forall l,
    l < length h0 ->
    ~ In (Store.VRef l) (Store.exposed h0 analysisResult customProperties) ->
    fst (Store.generateSchemaMarkup URL_href analysisResult mainSchema
           nestedSchemas customProperties h0) !! l = h0 !! l.
Proof.
  intros Ha Hc _.
  pose proof (generateSchemaMarkup_hoare URL_href analysisResult customProperties
                h0 Ha Hc mainSchema nestedSchemas h0 eq_refl) as H.
  destruct (Store.generateSchemaMarkup _ _ _ _ _ h0) as [h' [v|]]; simpl;
    destruct H as [Hlen Hf]; (split; [exact Hlen | exact Hf]).
Qed.

Lemma synthesis_writes_only_exposed_cells_witness :
  4 <= length (fst (Store.generateSchemaMarkup SampleURL.href (Store.VRef 2)
                      "WebPage" [] (Store.VRef 3) MoreSamples.store)) /\
  fst (Store.generateSchemaMarkup SampleURL.href (Store.VRef 2) "WebPage" []
         (Store.VRef 3) MoreSamples.store) !! 2 =
  MoreSamples.store !! 2.
Proof.
  destruct (synthesis_writes_only_exposed_cells SampleURL.href (Store.VRef 2)
              "WebPage" [] (Store.VRef 3) MoreSamples.store) as [Hlen Hf].
  - simpl. lia.
  - simpl. lia.
  - reflexivity.
  - split; [exact Hlen|]. apply Hf.
    + simpl. lia.
    + vm_compute. intuition discriminate.
Defined.
